(** * AMCL driver node of amcl_doris (amcl_node.cpp): a shallow embedding

    The node fuses a laser and a camera (fiducial marker) observation model
    in one particle filter.  This development embeds the driver: the angle
    helpers, the occupancy-grid conversion, the uniform pose generator and
    the callbacks that gate, score, resample and publish.

    Conventions of the embedding.
    - A C [double] or [float] is a real number (type [R]); rounding, NaN and
      infinities are outside the model.
    - A C [int] index or counter is a [Z]; a [std::vector] is a [list], read
      with a partial lookup: a read that the source performs outside the
      vector is undefined behaviour in C++ and is a [Fault] here.
    - [ros::Time] and [ros::Duration] are integers (nanoseconds).
    - The particle-filter library (pf.h), the sensor models, the map macros
      (map.h) and the transform library (tf) are not part of the node: they
      are the fields of the class [Extern], and every call the node makes to
      them or to a ROS publisher is recorded, in order, as an [event]. *)

From Stdlib Require Import Reals Lra Lia ZArith List String.
From stdpp Require Import base decidable option list gmap strings.

Open Scope R_scope.

(** ** Real comparisons as decisions *)

#[global] Instance Rlt_decision (x y : R) : Decision (x < y) := Rlt_dec x y.
#[global] Instance Rgt_decision (x y : R) : Decision (x > y) := Rgt_dec x y.
#[global] Instance Rle_decision (x y : R) : Decision (x <= y) := Rle_dec x y.
#[global] Instance Rge_decision (x y : R) : Decision (x >= y) := Rge_dec x y.

(** ** Angles *)

(** [atan2] of the C library on real arguments: the argument of the point
    [(x, y)], in (-PI, PI], and 0 at the origin. *)
Definition atan2 (y x : R) : R :=
  if decide (x > 0) then atan (y / x)
  else if decide (x < 0) then
    if decide (y >= 0) then atan (y / x) + PI else atan (y / x) - PI
  else if decide (y > 0) then PI / 2
  else if decide (y < 0) then - (PI / 2)
  else 0.

(** [static double normalize(double z)] *)
Definition normalize (z : R) : R := atan2 (sin z) (cos z).

(** [static double angle_diff(double a, double b)] *)
Definition angle_diff (a b : R) : R :=
  let a := normalize a in
  let b := normalize b in
  let d1 := a - b in
  let d2 := 2 * PI - Rabs d1 in
  let d2 := if decide (d1 > 0) then d2 * -1 else d2 in
  if decide (Rabs d1 < Rabs d2) then d1 else d2.

(** ** Data of the particle-filter interface (pf_vector.h) *)

Record pf_vector_t := mk_vec { v0 : R; v1 : R; v2 : R }.

Definition pf_vector_zero : pf_vector_t := mk_vec 0 0 0.

Record pf_matrix_t := mk_mat {
  m00 : R; m01 : R; m02 : R;
  m10 : R; m11 : R; m12 : R;
  m20 : R; m21 : R; m22 : R }.

Definition pf_matrix_zero : pf_matrix_t := mk_mat 0 0 0 0 0 0 0 0 0.

(** [amcl_hyp_t]: a pose hypothesis *)
Record amcl_hyp_t := mk_hyp {
  weight : R;
  pf_pose_mean : pf_vector_t;
  pf_pose_cov : pf_matrix_t }.

(** ** The map (the members of [map_t] that the node writes) *)

Record map_cell_t := mk_cell { occ_state : Z }.

Record map_t := mk_map {
  size_x : Z;
  size_y : Z;
  scale : R;
  origin_x : R;
  origin_y : R;
  cells : list map_cell_t }.

(** ** Messages *)

(** [nav_msgs::OccupancyGrid]: [og_width] and [og_height] are [uint32],
    [og_data] is a vector of [int8]. *)
Record OccupancyGrid := mk_grid {
  og_frame_id : string;
  og_width : Z;
  og_height : Z;
  og_resolution : R;
  og_origin_x : R;
  og_origin_y : R;
  og_data : list Z }.

(** [sensor_msgs::LaserScan] *)
Record LaserScan := mk_scan {
  scan_frame_id : string;
  scan_stamp : Z;
  angle_min : R;
  angle_increment : R;
  range_min : R;
  range_max : R;
  ranges : list R }.

(** One entry of [detector::messagedet::DetectedMarkers]; [Corners] is read
    at the four indices 0..3. *)
Record DetectedMarker := mk_detected {
  dm_map : Z;
  dm_sector : Z;
  dm_ID : Z;
  dm_Corners : (R * R) * (R * R) * (R * R) * (R * R) }.

Record messagedet := mk_messagedet {
  det_frame_id : string;
  det_stamp : Z;
  DetectedMarkers : list DetectedMarker }.

(** [Marcador]: an observed marker as handed to the marker model *)
Record Marcador := mk_marcador {
  MapID : Z;
  SectorID : Z;
  MarkerID : Z;
  MarkerPoints : list (R * R) }.

(** [geometry_msgs::PoseWithCovarianceStamped]; the pose is kept as
    position and yaw, the covariance as the row-major 6x6 array. *)
Record PoseWithCovarianceStamped := mk_pose_msg {
  p_frame_id : string;
  p_stamp : Z;
  p_x : R;
  p_y : R;
  p_yaw : R;
  p_covariance : list R }.

Definition covariance_at (c : list R) (i : nat) : R := nth i c 0.

(** ** Sensor objects, as far as the node configures them *)

Inductive odom_model_t :=
  ODOM_MODEL_DIFF | ODOM_MODEL_OMNI
| ODOM_MODEL_DIFF_CORRECTED | ODOM_MODEL_OMNI_CORRECTED.

Inductive laser_model_t :=
  LASER_MODEL_BEAM | LASER_MODEL_LIKELIHOOD_FIELD
| LASER_MODEL_LIKELIHOOD_FIELD_PROB.

Inductive marker_model_t := MARKER_MODEL_LIKELIHOOD | MARKER_MODEL_UNSET.

(** The arguments of [AMCLOdom::SetModel] *)
Record AMCLOdom := mk_odom {
  od_type : odom_model_t;
  od_alpha1 : R; od_alpha2 : R; od_alpha3 : R; od_alpha4 : R; od_alpha5 : R }.

(** The arguments of the three [AMCLLaser::SetModel...] calls *)
Inductive laser_setting :=
| SetModelBeam (z_hit z_short z_max z_rand sigma_hit lambda_short chi : R)
| SetModelLikelihoodFieldProb (z_hit z_rand sigma_hit max_dist : R)
    (do_beamskip : bool) (skip_distance skip_threshold skip_error_threshold : R)
| SetModelLikelihoodField (z_hit z_rand sigma_hit max_dist coeff : R).

Record AMCLLaser := mk_laser {
  al_max_beams : Z;
  al_map : option map_t;
  al_setting : option laser_setting;
  al_laser_pose : pf_vector_t }.

(** The arguments of [AMCLMarker::SetModelLikelihoodField] and the members
    the node assigns afterwards *)
Record AMCLMarker := mk_marker {
  am_setting : option (R * R * R * R * R);
  am_model_type : marker_model_t;
  am_num_cam : R;
  am_image_width : R;
  am_image_height : R;
  am_simulation : Z }.

(** [AMCLLaserData]: [ld_ranges] holds a (range, bearing) pair per beam *)
Record AMCLLaserData := mk_ldata {
  ld_sensor : AMCLLaser;
  ld_range_count : nat;
  ld_range_max : R;
  ld_ranges : list (R * R) }.

(** ** What the node takes from its libraries

    The transform library, the parameter server client, the map macros of
    map.h and the particle filter are used through this interface. *)
Class Extern := {
  (* tf *)
  Transform : Type;
  tf_identity : Transform;
  tf_inverse : Transform -> Transform;
  tf_mul : Transform -> Transform -> Transform;
  tf_from_yaw : R -> R -> R -> Transform;     (* yaw, then origin x and y *)
  tf_x : Transform -> R;
  tf_y : Transform -> R;
  tf_yaw : Transform -> R;
  tf_resolve : string -> string;
  (* ros::Duration::fromSec *)
  duration_fromSec : R -> Z;
  (* parameter server *)
  param_server : Type;
  param_double : param_server -> string -> R -> R;
  param_int : param_server -> string -> Z -> Z;
  param_bool : param_server -> string -> bool -> bool;
  param_string : param_server -> string -> string -> string;
  (* map.h *)
  MAP_INDEX : map_t -> Z -> Z -> Z;
  MAP_WXGX : map_t -> Z -> R;
  MAP_WYGY : map_t -> Z -> R;
  (* pf.h; the pose generator handed over draws two numbers in [0, 1) *)
  pf_t : Type;
  pf_alloc : Z -> Z -> R -> R -> (R -> R -> option pf_vector_t) -> pf_t;
  pf_set_pop : pf_t -> R -> R -> pf_t;
  pf_init : pf_t -> pf_vector_t -> pf_matrix_t -> pf_t;
  pf_init_model : pf_t -> (R -> R -> option pf_vector_t) -> pf_t;
  pf_update_resample : pf_t -> pf_t;
  pf_cluster_stats : pf_t -> pf_t;
  pf_get_cluster_stats : pf_t -> Z -> option (R * pf_vector_t * pf_matrix_t);
  pf_cluster_count : pf_t -> Z;
  pf_set_cov : pf_t -> pf_matrix_t;
  pf_samples : pf_t -> list pf_vector_t;
  (* sensor models *)
  odom_UpdateAction : AMCLOdom -> pf_t -> pf_vector_t -> pf_vector_t -> pf_t;
  laser_UpdateSensor : pf_t -> AMCLLaserData -> pf_t;
  marker_UpdateSensor : AMCLMarker -> pf_t -> list Marcador -> pf_t }.

(** ** Map conversion and the free-space index *)

(** Conversion of a [uint32] to [int], and the range of [int] *)
Definition int_of_uint32 (w : Z) : Z :=
  if decide (w < 2 ^ 31)%Z then w else (w - 2 ^ 32)%Z.

Definition in_int (n : Z) : Prop := (- 2 ^ 31 <= n < 2 ^ 31)%Z.

(** The body of the loop of [convertMap] on one occupancy byte *)
Definition occ_of_byte (b : Z) : Z :=
  if decide (b = 0)%Z then (-1)%Z
  else if decide (b = 100)%Z then 1%Z
  else 0%Z.

(** [AmclNode::convertMap].  [None]: the product [size_x * size_y]
    overflows [int], or the loop reads [map_msg.data] past its end. *)
Definition convertMap (map_msg : OccupancyGrid) : option map_t :=
  let sx := int_of_uint32 (og_width map_msg) in
  let sy := int_of_uint32 (og_height map_msg) in
  let sc := og_resolution map_msg in
  if decide (in_int (sx * sy)) then
    cs ← mapM (λ i, (λ b, mk_cell (occ_of_byte b)) <$> og_data map_msg !! i)
              (seq 0 (Z.to_nat (sx * sy)));
    Some (mk_map sx sy sc
            (og_origin_x map_msg + IZR (sx ÷ 2) * sc)
            (og_origin_y map_msg + IZR (sy ÷ 2) * sc)
            cs)
  else None.

(** [map->cells[k]] *)
Definition cell_at (m : map_t) (k : Z) : option map_cell_t :=
  if decide (0 <= k)%Z then cells m !! Z.to_nat k else None.

(** The pairs [(i, j)] in the order of the two nested loops of
    [handleMapMessage] *)
Definition grid_indices (m : map_t) : list (Z * Z) :=
  i ← seqZ 0 (size_x m); j ← seqZ 0 (size_y m); [(i, j)].

(** The index of free space built by [handleMapMessage].  [None]: a read
    of [map_->cells] outside the array. *)
Definition index_free_space `{Extern} (m : map_t) : option (list (Z * Z)) :=
  @List.concat (Z * Z) <$> mapM (λ ij : Z * Z,
                          c ← cell_at m (MAP_INDEX m ij.1 ij.2);
                          Some (if decide (occ_state c = -1)%Z then [ij] else []))
                       (grid_indices m).

(** ** The uniform pose generator *)

(** Conversion of a [double] to [unsigned int]: truncation *)
Definition truncate (r : R) : Z :=
  if decide (0 <= r) then Int_part r else (- Int_part (- r))%Z.

(** [AmclNode::uniformPoseGenerator] (NEW_UNIFORM_SAMPLING).  [u1] and [u2]
    are the two values of [drand48()].  [None]: [free_space_indices] is read
    outside the vector. *)
Definition uniformPoseGenerator `{Extern} (map : map_t)
    (free_space_indices : list (Z * Z)) (u1 u2 : R) : option pf_vector_t :=
  let rand_index := truncate (u1 * INR (length free_space_indices)) in
  free_point ← free_space_indices !! Z.to_nat rand_index;
  Some (mk_vec (MAP_WXGX map free_point.1) (MAP_WYGY map free_point.2)
               (u2 * 2 * PI - PI)).

(** [amcl::AMCLConfig], the members read by [reconfigureCB] *)
Record AMCLConfig := mk_config {
  restore_defaults : bool;
  update_min_d : R;
  update_min_a : R;
  resample_interval : Z;
  laser_min_range : R;
  laser_max_range : R;
  save_pose_rate : R;
  transform_tolerance : R;
  laser_max_beams : Z;
  odom_alpha1 : R; odom_alpha2 : R; odom_alpha3 : R; odom_alpha4 : R;
  odom_alpha5 : R;
  laser_z_hit : R; laser_z_short : R; laser_z_max : R; laser_z_rand : R;
  laser_sigma_hit : R; laser_lambda_short : R;
  laser_likelihood_max_dist : R;
  laser_model_type : string;
  odom_model_type : string;
  min_particles : Z;
  max_particles : Z;
  recovery_alpha_slow : R;
  recovery_alpha_fast : R;
  tf_broadcast : bool;
  do_beamskip : bool;
  beam_skip_distance : R;
  beam_skip_threshold : R;
  kld_err : R;
  kld_z : R;
  odom_frame_id : string;
  base_frame_id : string;
  global_frame_id : string }.

(** ** What the node does to the outside

    Every call into the particle filter or a sensor model and every ROS
    output is an event; a callback produces them in program order.  The
    texts of the log events are the format strings of the source (without
    their inner quotation marks). *)

Inductive log_level := INFO | WARN | ERROR.

(** ** Callbacks as programs

    A callback runs on the node, appends events, and ends in one of three
    ways. *)
Inductive outcome (A : Type) :=
| Normal (a : A)      (* control reached the end of the step *)
| Returned            (* a [return;] left the callback *)
| Fault.              (* undefined behaviour: a read outside a vector, a
                         null pointer, a division by zero, int overflow *)
Arguments Normal {A} a.
Arguments Returned {A}.
Arguments Fault {A}.

Section Model.
Context `{Extern}.

Inductive event :=
| EvLog (level : log_level) (format : string)
| EvPfInit (mean : pf_vector_t) (cov : pf_matrix_t)
| EvPfInitModel
| EvOdomUpdateAction (pose delta : pf_vector_t)
| EvLaserUpdateSensor (laser_index : Z) (ldata : AMCLLaserData)
| EvMarkerUpdateSensor (observation : list Marcador)
| EvPfUpdateResample
| EvPfClusterStats
| EvPublishCloud (stamp : Z) (frame_id : string) (poses : list pf_vector_t)
| EvPublishPose (p : PoseWithCovarianceStamped)
| EvPublishPoseError (p : PoseWithCovarianceStamped) (num_markers : Z)
| EvPublishYaw (yaw : R)
| EvSendTransform (tf : Transform) (stamp : Z) (frame_id child_frame_id : string)
| EvSetParam (key : string) (value : R)
| EvPublishPaths.

(** ** The members of [AmclNode]

    The members keep their names.  Left out are the ROS handles
    (publishers, subscribers, timers, the mutex), the visual map and the
    camera extrinsics handed to the marker model, and the diagnostic paths
    and ground-truth values that only feed diagnostic publications. *)
Record node := mk_node {
  sent_first_transform_ : bool;
  latest_tf_ : Transform;
  latest_tf_valid_ : bool;
  free_space_indices : list (Z * Z);
  latest_odom_pose_scan : pf_vector_t;
  latest_odom_pose_camera : pf_vector_t;
  latest_odom_pose_ : Transform;
  odom_frame_id_ : string;
  base_frame_id_ : string;
  global_frame_id_ : string;
  use_map_topic_ : bool;
  first_map_only_ : bool;
  save_pose_last_time : Z;
  save_pose_period : Z;
  last_published_pose : PoseWithCovarianceStamped;
  map_ : option map_t;
  lasers_ : list AMCLLaser;
  lasers_update_ : list bool;
  frame_to_laser_ : gmap string Z;
  pf_ : option pf_t;
  pf_err_ : R;
  pf_z_ : R;
  pf_init_ : bool;
  pf_odom_pose_ : pf_vector_t;
  d_thresh_ : R;
  a_thresh_ : R;
  resample_interval_ : Z;
  resample_count_cam : Z;
  resample_count_scan : Z;
  laser_min_range_ : R;
  laser_max_range_ : R;
  m_force_update_cam : bool;
  m_force_update_scan : bool;
  updated_scan : bool;
  updated_camera : bool;
  pf_init_scan : bool;
  pf_init_cam : bool;
  odom_ : option AMCLOdom;
  laser_ : option AMCLLaser;
  marker_ : option AMCLMarker;
  transform_tolerance_ : Z;
  initial_pose_hyp_ : option amcl_hyp_t;
  first_map_received_ : bool;
  first_reconfigure_call_ : bool;
  max_beams_ : Z;
  min_particles_ : Z;
  max_particles_ : Z;
  alpha1_ : R;
  alpha2_ : R;
  alpha3_ : R;
  alpha4_ : R;
  alpha5_ : R;
  alpha_slow_ : R;
  alpha_fast_ : R;
  z_hit_ : R;
  z_short_ : R;
  z_max_ : R;
  z_rand_ : R;
  sigma_hit_ : R;
  lambda_short_ : R;
  do_beamskip_ : bool;
  beam_skip_distance_ : R;
  beam_skip_threshold_ : R;
  beam_skip_error_threshold_ : R;
  laser_likelihood_max_dist_ : R;
  odom_model_type_ : odom_model_t;
  init_pose_ : pf_vector_t;
  init_cov_ : pf_vector_t;
  laser_model_type_ : laser_model_t;
  marker_model_type_ : marker_model_t;
  tf_broadcast_ : bool;
  last_laser_received_ts_ : Z;
  marker_update : bool;
  num_cam : R;
  image_width : R;
  image_height : R;
  frame_to_camera_ : string;
  marker_z_hit : R;
  marker_z_rand : R;
  marker_sigma_hit : R;
  marker_landa : R;
  marker_coeff : R;
  laser_coeff : R;
  simulation : Z;
  pose_ini : Transform;
  default_config_ : AMCLConfig }.

Definition node_eta (s : node) : node :=
  mk_node (sent_first_transform_ s) (latest_tf_ s) (latest_tf_valid_ s)
    (free_space_indices s) (latest_odom_pose_scan s) (latest_odom_pose_camera s)
    (latest_odom_pose_ s) (odom_frame_id_ s) (base_frame_id_ s)
    (global_frame_id_ s) (use_map_topic_ s) (first_map_only_ s)
    (save_pose_last_time s) (save_pose_period s) (last_published_pose s)
    (map_ s) (lasers_ s) (lasers_update_ s)
    (frame_to_laser_ s) (pf_ s) (pf_err_ s)
    (pf_z_ s) (pf_init_ s) (pf_odom_pose_ s)
    (d_thresh_ s) (a_thresh_ s) (resample_interval_ s)
    (resample_count_cam s) (resample_count_scan s) (laser_min_range_ s)
    (laser_max_range_ s) (m_force_update_cam s) (m_force_update_scan s)
    (updated_scan s) (updated_camera s) (pf_init_scan s)
    (pf_init_cam s) (odom_ s) (laser_ s)
    (marker_ s) (transform_tolerance_ s) (initial_pose_hyp_ s)
    (first_map_received_ s) (first_reconfigure_call_ s) (max_beams_ s)
    (min_particles_ s) (max_particles_ s) (alpha1_ s)
    (alpha2_ s) (alpha3_ s) (alpha4_ s)
    (alpha5_ s) (alpha_slow_ s) (alpha_fast_ s)
    (z_hit_ s) (z_short_ s) (z_max_ s)
    (z_rand_ s) (sigma_hit_ s) (lambda_short_ s)
    (do_beamskip_ s) (beam_skip_distance_ s) (beam_skip_threshold_ s)
    (beam_skip_error_threshold_ s) (laser_likelihood_max_dist_ s) (odom_model_type_ s)
    (init_pose_ s) (init_cov_ s) (laser_model_type_ s)
    (marker_model_type_ s) (tf_broadcast_ s) (last_laser_received_ts_ s)
    (marker_update s) (num_cam s) (image_width s)
    (image_height s) (frame_to_camera_ s) (marker_z_hit s)
    (marker_z_rand s) (marker_sigma_hit s) (marker_landa s)
    (marker_coeff s) (laser_coeff s) (simulation s)
    (pose_ini s) (default_config_ s).

(** [field_setter f] builds the function that assigns member [f]. *)
Ltac field_setter proj :=
  let e := eval cbv [node_eta] in node_eta in
  match eval pattern proj in e with
  | ?g _ =>
      let t := eval cbv beta in (fun v s => g (fun _ => v) s) in exact t
  end.

Definition set_sent_first_transform_ : bool -> node -> node :=
  ltac:(field_setter sent_first_transform_).
Definition set_latest_tf_ : Transform -> node -> node :=
  ltac:(field_setter latest_tf_).
Definition set_latest_tf_valid_ : bool -> node -> node :=
  ltac:(field_setter latest_tf_valid_).
Definition set_free_space_indices : (list (Z * Z)) -> node -> node :=
  ltac:(field_setter free_space_indices).
Definition set_latest_odom_pose_scan : pf_vector_t -> node -> node :=
  ltac:(field_setter latest_odom_pose_scan).
Definition set_latest_odom_pose_camera : pf_vector_t -> node -> node :=
  ltac:(field_setter latest_odom_pose_camera).
Definition set_latest_odom_pose_ : Transform -> node -> node :=
  ltac:(field_setter latest_odom_pose_).
Definition set_odom_frame_id_ : string -> node -> node :=
  ltac:(field_setter odom_frame_id_).
Definition set_base_frame_id_ : string -> node -> node :=
  ltac:(field_setter base_frame_id_).
Definition set_global_frame_id_ : string -> node -> node :=
  ltac:(field_setter global_frame_id_).
Definition set_use_map_topic_ : bool -> node -> node :=
  ltac:(field_setter use_map_topic_).
Definition set_first_map_only_ : bool -> node -> node :=
  ltac:(field_setter first_map_only_).
Definition set_save_pose_last_time : Z -> node -> node :=
  ltac:(field_setter save_pose_last_time).
Definition set_save_pose_period : Z -> node -> node :=
  ltac:(field_setter save_pose_period).
Definition set_last_published_pose : PoseWithCovarianceStamped -> node -> node :=
  ltac:(field_setter last_published_pose).
Definition set_map_ : (option map_t) -> node -> node :=
  ltac:(field_setter map_).
Definition set_lasers_ : (list AMCLLaser) -> node -> node :=
  ltac:(field_setter lasers_).
Definition set_lasers_update_ : (list bool) -> node -> node :=
  ltac:(field_setter lasers_update_).
Definition set_frame_to_laser_ : (gmap string Z) -> node -> node :=
  ltac:(field_setter frame_to_laser_).
Definition set_pf_ : (option pf_t) -> node -> node :=
  ltac:(field_setter pf_).
Definition set_pf_err_ : R -> node -> node :=
  ltac:(field_setter pf_err_).
Definition set_pf_z_ : R -> node -> node :=
  ltac:(field_setter pf_z_).
Definition set_pf_init_ : bool -> node -> node :=
  ltac:(field_setter pf_init_).
Definition set_pf_odom_pose_ : pf_vector_t -> node -> node :=
  ltac:(field_setter pf_odom_pose_).
Definition set_d_thresh_ : R -> node -> node :=
  ltac:(field_setter d_thresh_).
Definition set_a_thresh_ : R -> node -> node :=
  ltac:(field_setter a_thresh_).
Definition set_resample_interval_ : Z -> node -> node :=
  ltac:(field_setter resample_interval_).
Definition set_resample_count_cam : Z -> node -> node :=
  ltac:(field_setter resample_count_cam).
Definition set_resample_count_scan : Z -> node -> node :=
  ltac:(field_setter resample_count_scan).
Definition set_laser_min_range_ : R -> node -> node :=
  ltac:(field_setter laser_min_range_).
Definition set_laser_max_range_ : R -> node -> node :=
  ltac:(field_setter laser_max_range_).
Definition set_m_force_update_cam : bool -> node -> node :=
  ltac:(field_setter m_force_update_cam).
Definition set_m_force_update_scan : bool -> node -> node :=
  ltac:(field_setter m_force_update_scan).
Definition set_updated_scan : bool -> node -> node :=
  ltac:(field_setter updated_scan).
Definition set_updated_camera : bool -> node -> node :=
  ltac:(field_setter updated_camera).
Definition set_pf_init_scan : bool -> node -> node :=
  ltac:(field_setter pf_init_scan).
Definition set_pf_init_cam : bool -> node -> node :=
  ltac:(field_setter pf_init_cam).
Definition set_odom_ : (option AMCLOdom) -> node -> node :=
  ltac:(field_setter odom_).
Definition set_laser_ : (option AMCLLaser) -> node -> node :=
  ltac:(field_setter laser_).
Definition set_marker_ : (option AMCLMarker) -> node -> node :=
  ltac:(field_setter marker_).
Definition set_transform_tolerance_ : Z -> node -> node :=
  ltac:(field_setter transform_tolerance_).
Definition set_initial_pose_hyp_ : (option amcl_hyp_t) -> node -> node :=
  ltac:(field_setter initial_pose_hyp_).
Definition set_first_map_received_ : bool -> node -> node :=
  ltac:(field_setter first_map_received_).
Definition set_first_reconfigure_call_ : bool -> node -> node :=
  ltac:(field_setter first_reconfigure_call_).
Definition set_max_beams_ : Z -> node -> node :=
  ltac:(field_setter max_beams_).
Definition set_min_particles_ : Z -> node -> node :=
  ltac:(field_setter min_particles_).
Definition set_max_particles_ : Z -> node -> node :=
  ltac:(field_setter max_particles_).
Definition set_alpha1_ : R -> node -> node :=
  ltac:(field_setter alpha1_).
Definition set_alpha2_ : R -> node -> node :=
  ltac:(field_setter alpha2_).
Definition set_alpha3_ : R -> node -> node :=
  ltac:(field_setter alpha3_).
Definition set_alpha4_ : R -> node -> node :=
  ltac:(field_setter alpha4_).
Definition set_alpha5_ : R -> node -> node :=
  ltac:(field_setter alpha5_).
Definition set_alpha_slow_ : R -> node -> node :=
  ltac:(field_setter alpha_slow_).
Definition set_alpha_fast_ : R -> node -> node :=
  ltac:(field_setter alpha_fast_).
Definition set_z_hit_ : R -> node -> node :=
  ltac:(field_setter z_hit_).
Definition set_z_short_ : R -> node -> node :=
  ltac:(field_setter z_short_).
Definition set_z_max_ : R -> node -> node :=
  ltac:(field_setter z_max_).
Definition set_z_rand_ : R -> node -> node :=
  ltac:(field_setter z_rand_).
Definition set_sigma_hit_ : R -> node -> node :=
  ltac:(field_setter sigma_hit_).
Definition set_lambda_short_ : R -> node -> node :=
  ltac:(field_setter lambda_short_).
Definition set_do_beamskip_ : bool -> node -> node :=
  ltac:(field_setter do_beamskip_).
Definition set_beam_skip_distance_ : R -> node -> node :=
  ltac:(field_setter beam_skip_distance_).
Definition set_beam_skip_threshold_ : R -> node -> node :=
  ltac:(field_setter beam_skip_threshold_).
Definition set_beam_skip_error_threshold_ : R -> node -> node :=
  ltac:(field_setter beam_skip_error_threshold_).
Definition set_laser_likelihood_max_dist_ : R -> node -> node :=
  ltac:(field_setter laser_likelihood_max_dist_).
Definition set_odom_model_type_ : odom_model_t -> node -> node :=
  ltac:(field_setter odom_model_type_).
Definition set_init_pose_ : pf_vector_t -> node -> node :=
  ltac:(field_setter init_pose_).
Definition set_init_cov_ : pf_vector_t -> node -> node :=
  ltac:(field_setter init_cov_).
Definition set_laser_model_type_ : laser_model_t -> node -> node :=
  ltac:(field_setter laser_model_type_).
Definition set_marker_model_type_ : marker_model_t -> node -> node :=
  ltac:(field_setter marker_model_type_).
Definition set_tf_broadcast_ : bool -> node -> node :=
  ltac:(field_setter tf_broadcast_).
Definition set_last_laser_received_ts_ : Z -> node -> node :=
  ltac:(field_setter last_laser_received_ts_).
Definition set_marker_update : bool -> node -> node :=
  ltac:(field_setter marker_update).
Definition set_num_cam : R -> node -> node :=
  ltac:(field_setter num_cam).
Definition set_image_width : R -> node -> node :=
  ltac:(field_setter image_width).
Definition set_image_height : R -> node -> node :=
  ltac:(field_setter image_height).
Definition set_frame_to_camera_ : string -> node -> node :=
  ltac:(field_setter frame_to_camera_).
Definition set_marker_z_hit : R -> node -> node :=
  ltac:(field_setter marker_z_hit).
Definition set_marker_z_rand : R -> node -> node :=
  ltac:(field_setter marker_z_rand).
Definition set_marker_sigma_hit : R -> node -> node :=
  ltac:(field_setter marker_sigma_hit).
Definition set_marker_landa : R -> node -> node :=
  ltac:(field_setter marker_landa).
Definition set_marker_coeff : R -> node -> node :=
  ltac:(field_setter marker_coeff).
Definition set_laser_coeff : R -> node -> node :=
  ltac:(field_setter laser_coeff).
Definition set_simulation : Z -> node -> node :=
  ltac:(field_setter simulation).
Definition set_pose_ini : Transform -> node -> node :=
  ltac:(field_setter pose_ini).
Definition set_default_config_ : AMCLConfig -> node -> node :=
  ltac:(field_setter default_config_).

(** ** The monad of callbacks *)

Definition M (A : Type) : Type := node -> outcome A * node * list event.

Definition ret {A} (a : A) : M A := fun s => (Normal a, s, []).

(** The events of a run, its final state and its outcome *)
Definition trace {A} (r : outcome A * node * list event) : list event := r.2.
Definition final {A} (r : outcome A * node * list event) : node := r.1.2.
Definition result {A} (r : outcome A * node * list event) : outcome A := r.1.1.

(** A run after the events [t] *)
Definition prepend {A} (t : list event)
    (r : outcome A * node * list event) : outcome A * node * list event :=
  (result r, final r, t ++ trace r).

Definition bind {A B} (m : M A) (k : A -> M B) : M B :=
  fun s =>
    match m s with
    | (Normal a, s1, t1) => prepend t1 (k a s1)
    | (Returned, s1, t1) => (Returned, s1, t1)
    | (Fault, s1, t1) => (Fault, s1, t1)
    end.

Definition get : M node := fun s => (Normal s, s, []).
Definition modify (f : node -> node) : M unit := fun s => (Normal tt, f s, []).
Definition emit (e : event) : M unit := fun s => (Normal tt, s, [e]).
Definition return_ {A} : M A := fun s => (Returned, s, []).
Definition fault {A} : M A := fun s => (Fault, s, []).

(** A read that is undefined behaviour when the value is absent *)
Definition deref {A} (o : option A) : M A :=
  match o with Some a => ret a | None => fault end.

Definition when (b : bool) (m : M unit) : M unit := if b then m else ret tt.

End Model.

Notation "'let*' x ':=' m 'in' k" := (bind m (fun x => k))
  (at level 10, x name, m at level 100, k at level 200).
Notation "m ';;;' k" := (bind m (fun _ => k))
  (at level 100, k at level 200, right associativity).

Section Callbacks.
Context `{Extern}.

(** A call that replaces the filter state [*pf_] *)
Definition call_pf (f : pf_t -> pf_t) : M unit :=
  let* st := get in
  let* pf := deref (pf_ st) in
  modify (set_pf_ (Some (f pf))).

(** [lasers_update_[laser_index]] *)
Definition laser_flag (st : node) (laser_index : Z) : option bool :=
  if decide (0 <= laser_index)%Z then lasers_update_ st !! Z.to_nat laser_index
  else None.

(** *** getOdomPose *)

(** [AmclNode::getOdomPose]; [lookup] is the result of [transformPose] into
    the odometry frame, [None] for a [tf::TransformException].  The result
    is the triple written to [x], [y], [yaw], or [None] for [false]. *)
Definition getOdomPose (lookup : option Transform) : M (option pf_vector_t) :=
  match lookup with
  | None =>
      emit (EvLog WARN "Failed to compute odom pose, skipping scan (%s)");;;
      ret None
  | Some odom_pose =>
      modify (set_latest_odom_pose_ odom_pose);;;
      ret (Some (mk_vec (tf_x odom_pose) (tf_y odom_pose) (tf_yaw odom_pose)))
  end.

(** The test of both callbacks on the displacement since the sensor's last
    update *)
Definition moved (st : node) (delta_update : pf_vector_t) : bool :=
  bool_decide (Rabs (v0 delta_update) > d_thresh_ st)
  || bool_decide (Rabs (v1 delta_update) > d_thresh_ st)
  || bool_decide (Rabs (v2 delta_update) > a_thresh_ st).

Definition pose_delta (pose last : pf_vector_t) : pf_vector_t :=
  mk_vec (v0 pose - v0 last) (v1 pose - v1 last)
         (angle_diff (v2 pose) (v2 last)).

(** *** Reading out the hypotheses *)

Definition zero_hyp : amcl_hyp_t := mk_hyp 0 pf_vector_zero pf_matrix_zero.

(** The loop over [hyp_count]; the accumulator is [max_weight],
    [max_weight_hyp] and [hyps].  A failing [pf_get_cluster_stats] logs an
    error and breaks. *)
Fixpoint read_hyps (pf : pf_t) (counts : list Z)
    (acc : R * Z * list amcl_hyp_t) : (R * Z * list amcl_hyp_t) * list event :=
  match counts with
  | [] => (acc, [])
  | hyp_count :: rest =>
      match pf_get_cluster_stats pf hyp_count with
      | None => (acc, [EvLog ERROR "Couldn't get stats on cluster %d"])
      | Some (w, pose_mean, pose_cov) =>
          let hyps := <[Z.to_nat hyp_count := mk_hyp w pose_mean pose_cov]> acc.2 in
          if decide (w > acc.1.1)
          then read_hyps pf rest (w, hyp_count, hyps)
          else read_hyps pf rest (acc.1.1, acc.1.2, hyps)
      end
  end.

Definition read_hypotheses : M (R * Z * list amcl_hyp_t) :=
  let* st := get in
  let* pf := deref (pf_ st) in
  let n := pf_cluster_count pf in
  let r := read_hyps pf (seqZ 0 n) (0, (-1)%Z, replicate (Z.to_nat n) zero_hyp) in
  fun s => (Normal (r.1), s, r.2).

(** [hyps[max_weight_hyp]] *)
Definition hyp_at (hyps : list amcl_hyp_t) (i : Z) : option amcl_hyp_t :=
  if decide (0 <= i)%Z then hyps !! Z.to_nat i else None.

(** The pose message filled from the best hypothesis and the covariance
    of the current sample set *)
Definition pose_message (frame_id : string) (stamp : Z) (h : amcl_hyp_t)
    (cov : pf_matrix_t) : PoseWithCovarianceStamped :=
  mk_pose_msg frame_id stamp
    (v0 (pf_pose_mean h)) (v1 (pf_pose_mean h)) (v2 (pf_pose_mean h))
    (<[35%nat := m22 cov]>
       (<[7%nat := m11 cov]> (<[6%nat := m10 cov]>
          (<[1%nat := m01 cov]> (<[0%nat := m00 cov]> (replicate 36 0)))))).

(** [AmclNode::savePoseToServer] *)
Definition savePoseToServer : M unit :=
  let* st := get in
  let map_pose := tf_mul (tf_inverse (latest_tf_ st)) (latest_odom_pose_ st) in
  let c := p_covariance (last_published_pose st) in
  emit (EvSetParam "initial_pose_x" (tf_x map_pose));;;
  emit (EvSetParam "initial_pose_y" (tf_y map_pose));;;
  emit (EvSetParam "initial_pose_a" (tf_yaw map_pose));;;
  emit (EvSetParam "initial_cov_xx" (covariance_at c 0));;;
  emit (EvSetParam "initial_cov_yy" (covariance_at c 7));;;
  emit (EvSetParam "initial_cov_aa" (covariance_at c 35)).

(** The tail of both callbacks' republication branch: save the pose when
    the period has passed *)
Definition save_pose_if_due (now : Z) : M unit :=
  let* st := get in
  when (bool_decide (0 < save_pose_period st)%Z
        && bool_decide (save_pose_period st <= now - save_pose_last_time st)%Z)
    (savePoseToServer;;; modify (set_save_pose_last_time now)).

(** The cloud message of the current sample set *)
Definition publish_cloud (now : Z) : M unit :=
  let* st := get in
  let* pf := deref (pf_ st) in
  emit (EvPublishCloud now (global_frame_id_ st) (pf_samples pf)).

(** *** laserReceived *)

(** What the transform listener and the clock answer during one call of
    [laserReceived]; [None] stands for a [tf::TransformException]. *)
Record laser_env := mk_laser_env {
  le_now : Z;
  le_laser_pose : option Transform;      (* the laser in the base frame *)
  le_odom_pose : option Transform;       (* the base in the odometry frame *)
  le_scan_angles : option (R * R);       (* yaw of [min_q] and of [inc_q] *)
  le_odom_to_map : Transform -> option Transform }.

Definition set_laser_pose (v : pf_vector_t) (l : AMCLLaser) : AMCLLaser :=
  mk_laser (al_max_beams l) (al_map l) (al_setting l) v.

(** [lasers_[laser_index]] *)
Definition laser_at (st : node) (laser_index : Z) : option AMCLLaser :=
  if decide (0 <= laser_index)%Z then lasers_ st !! Z.to_nat laser_index
  else None.

Definition all_true (flags : list bool) : list bool := (λ _, true) <$> flags.

(** The first block: find or set up the laser of the scan's frame. *)
Definition register_laser (laser_scan : LaserScan) (env : laser_env) : M Z :=
  let* st := get in
  match frame_to_laser_ st !! scan_frame_id laser_scan with
  | None =>
      let* l := deref (laser_ st) in
      modify (set_lasers_ (lasers_ st ++ [l]));;;
      modify (set_lasers_update_ (lasers_update_ st ++ [true]));;;
      let laser_index := Z.of_nat (size (frame_to_laser_ st)) in
      match le_laser_pose env with
      | None =>
          emit (EvLog ERROR
            "Couldn't transform from %s to %s, even though the message notifier is in use");;;
          return_
      | Some laser_pose =>
          let laser_pose_v := mk_vec (tf_x laser_pose) (tf_y laser_pose) 0 in
          let* st1 := get in
          let* l1 := deref (laser_at st1 laser_index) in
          modify (set_lasers_
            (<[Z.to_nat laser_index := set_laser_pose laser_pose_v l1]> (lasers_ st1)));;;
          modify (set_frame_to_laser_
            (<[scan_frame_id laser_scan := laser_index]> (frame_to_laser_ st)));;;
          ret laser_index
      end
  | Some laser_index => ret laser_index
  end.

(** The block under [if(pf_init_scan)]: the deltas and the update test.
    The result is [delta], the change since the last filter update. *)
Definition laser_gate (pose : pf_vector_t) : M pf_vector_t :=
  let* st := get in
  if pf_init_scan st then
    let delta := pose_delta pose (pf_odom_pose_ st) in
    let delta_update := pose_delta pose (latest_odom_pose_scan st) in
    let update := moved st delta_update in
    let update := update || m_force_update_scan st in
    modify (set_m_force_update_scan false);;;
    when update (modify (set_lasers_update_ (all_true (lasers_update_ st))));;;
    ret delta
  else ret pf_vector_zero.

(** Initialization of the laser gate, or the motion update.  The result is
    [force_publication]. *)
Definition laser_motion (pose delta : pf_vector_t) (laser_index : Z) : M bool :=
  let* st := get in
  if negb (pf_init_scan st) then
    modify (set_pf_odom_pose_ pose);;;
    modify (set_latest_odom_pose_scan pose);;;
    modify (set_pf_init_scan true);;;
    modify (set_lasers_update_ (all_true (lasers_update_ st)));;;
    modify (set_resample_count_scan 0);;;
    ret true
  else
    let* flag := deref (laser_flag st laser_index) in
    when flag
      (let* od := deref (odom_ st) in
       call_pf (λ pf, odom_UpdateAction od pf pose delta);;;
       emit (EvOdomUpdateAction pose delta));;;
    ret false.

(** [fmod] on reals *)
Definition fmod (x y : R) : R := x - IZR (truncate (x / y)) * y.

(** The range thresholds applied to a scan *)
Definition scan_range_max (st : node) (laser_scan : LaserScan) : R :=
  if decide (laser_max_range_ st > 0)
  then Rmin (range_max laser_scan) (laser_max_range_ st)
  else range_max laser_scan.

Definition scan_range_min (st : node) (laser_scan : LaserScan) : R :=
  if decide (laser_min_range_ st > 0)
  then Rmax (range_min laser_scan) (laser_min_range_ st)
  else range_min laser_scan.

(** The loop that fills [ldata.ranges] *)
Definition fill_ranges (rs : list R) (range_min range_max : R)
    (angle_min angle_increment : R) : list (R * R) :=
  imap (λ i r, (if decide (r <= range_min) then range_max else r,
                angle_min + INR i * angle_increment)) rs.

(** The block under [if(lasers_update_[laser_index])]: score the scan and
    resample.  The result is [resampled]. *)
Definition laser_update (laser_scan : LaserScan) (env : laser_env)
    (pose : pf_vector_t) (laser_index : Z) : M bool :=
  let* st := get in
  let* sensor := deref (laser_at st laser_index) in
  match le_scan_angles env with
  | None =>
      emit (EvLog WARN
        "Unable to transform min/max laser angles into base frame: %s");;;
      return_
  | Some (yaw_min, yaw_inc) =>
      let angle_min := yaw_min in
      let angle_increment := yaw_inc - angle_min in
      let angle_increment := fmod (angle_increment + 5 * PI) (2 * PI) - PI in
      let ldata :=
        mk_ldata sensor (length (ranges laser_scan)) (scan_range_max st laser_scan)
          (fill_ranges (ranges laser_scan) (scan_range_min st laser_scan)
             (scan_range_max st laser_scan) angle_min angle_increment) in
      call_pf (λ pf, laser_UpdateSensor pf ldata);;;
      emit (EvLaserUpdateSensor laser_index ldata);;;
      modify (set_updated_scan true);;;
      modify (set_lasers_update_
        (<[Z.to_nat laser_index := false]> (lasers_update_ st)));;;
      modify (set_latest_odom_pose_scan pose);;;
      modify (set_pf_odom_pose_ pose);;;
      call_pf pf_update_resample;;;
      emit EvPfUpdateResample;;;
      when (negb (m_force_update_scan st)) (publish_cloud (le_now env));;;
      ret true
  end.

(** The publication stage of [laserReceived] *)
Definition laser_publish (laser_scan : LaserScan) (env : laser_env)
    (resampled force_publication : bool) : M unit :=
  let* st := get in
  if resampled || force_publication then
    when (negb resampled) (call_pf pf_cluster_stats;;; emit EvPfClusterStats);;;
    let* r := read_hypotheses in
    if decide (r.1.1 > 0) then
      let* h := deref (hyp_at r.2 r.1.2) in
      let* st1 := get in
      let* pf := deref (pf_ st1) in
      let p := pose_message (global_frame_id_ st) (scan_stamp laser_scan) h
                 (pf_set_cov pf) in
      emit (EvPublishPoseError p 0);;;
      emit (EvPublishPose p);;;
      modify (set_last_published_pose p);;;
      let tmp_tf := tf_from_yaw (v2 (pf_pose_mean h)) (v0 (pf_pose_mean h))
                      (v1 (pf_pose_mean h)) in
      match le_odom_to_map env (tf_inverse tmp_tf) with
      | None => return_
      | Some odom_to_map =>
          modify (set_latest_tf_ odom_to_map);;;
          modify (set_latest_tf_valid_ true);;;
          when (tf_broadcast_ st)
            (let transform_expiration :=
               (scan_stamp laser_scan + transform_tolerance_ st)%Z in
             emit (EvSendTransform (tf_inverse odom_to_map) transform_expiration
                     (global_frame_id_ st) (odom_frame_id_ st));;;
             modify (set_sent_first_transform_ true))
      end
    else emit (EvLog ERROR "No pose!")
  else if latest_tf_valid_ st then
    when (tf_broadcast_ st)
      (let transform_expiration :=
         (scan_stamp laser_scan + transform_tolerance_ st)%Z in
       emit (EvSendTransform (tf_inverse (latest_tf_ st)) transform_expiration
               (global_frame_id_ st) (odom_frame_id_ st)));;;
    save_pose_if_due (le_now env)
  else ret tt.

(** The rest of [laserReceived]: the update block under
    [if(lasers_update_[laser_index])], the publication stage and the
    diagnostic paths *)
Definition laser_score_and_publish (laser_scan : LaserScan) (env : laser_env)
    (pose : pf_vector_t) (laser_index : Z) (force_publication : bool) : M unit :=
  let* st1 := get in
  let* flag := deref (laser_flag st1 laser_index) in
  let* resampled :=
    (if flag then laser_update laser_scan env pose laser_index
     else ret false) in
  laser_publish laser_scan env resampled force_publication;;;
  emit EvPublishPaths.

(** [AmclNode::laserReceived] *)
Definition laserReceived (laser_scan : LaserScan) (env : laser_env) : M unit :=
  modify (set_last_laser_received_ts_ (le_now env));;;
  let* st := get in
  match map_ st with
  | None => return_
  | Some _ =>
      let* laser_index := register_laser laser_scan env in
      let* odom := getOdomPose (le_odom_pose env) in
      match odom with
      | None =>
          emit (EvLog ERROR
            "Couldn't determine robot's pose associated with laser scan");;;
          return_
      | Some pose =>
          let* delta := laser_gate pose in
          let* force_publication := laser_motion pose delta laser_index in
          laser_score_and_publish laser_scan env pose laser_index
            force_publication
      end
  end.

(** *** detectionCallback *)

Record detection_env := mk_detection_env {
  de_now : Z;
  de_odom_pose : option Transform;
  de_odom_to_map : Transform -> option Transform }.

(** The loop that copies the detected markers into [observation] *)
Definition observation_of (msg : messagedet) : list Marcador :=
  (λ d, let '(c0, c1, c2, c3) := dm_Corners d in
        mk_marcador (dm_map d) (dm_sector d) (dm_ID d) [c0; c1; c2; c3])
    <$> DetectedMarkers msg.

(** The block under [if(frame_to_camera_!=msg->header.frame_id)] *)
Definition camera_setup (msg : messagedet) : M unit :=
  let* st := get in
  let* mk := deref (marker_ st) in
  modify (set_marker_update true);;;
  modify (set_frame_to_camera_ (det_frame_id msg));;;
  modify (set_marker_ (Some
    (mk_marker (am_setting mk) (am_model_type mk) (am_num_cam mk)
       (image_width st) (image_height st) (simulation st)))).

(** The block under [if(pf_init_cam)] *)
Definition camera_gate (pose : pf_vector_t) : M pf_vector_t :=
  let* st := get in
  if pf_init_cam st then
    let delta := pose_delta pose (pf_odom_pose_ st) in
    let delta_update := pose_delta pose (latest_odom_pose_camera st) in
    let update := moved st delta_update in
    let update := update || m_force_update_cam st in
    modify (set_m_force_update_cam false);;;
    when update (modify (set_marker_update true));;;
    ret delta
  else ret pf_vector_zero.

(** Initialization of the camera gate, or the motion update.  The result
    is [force_publication]. *)
Definition camera_motion (pose delta : pf_vector_t) : M bool :=
  let* st := get in
  if negb (pf_init_cam st) then
    modify (set_pf_odom_pose_ pose);;;
    modify (set_latest_odom_pose_camera pose);;;
    modify (set_pf_init_cam true);;;
    modify (set_marker_update true);;;
    modify (set_resample_count_cam 0);;;
    ret true
  else
    when (marker_update st)
      (let* od := deref (odom_ st) in
       call_pf (λ pf, odom_UpdateAction od pf pose delta);;;
       emit (EvOdomUpdateAction pose delta));;;
    ret false.

(** The block under [if(marker_update)]: score the detections, and
    resample when the incremented count is a multiple of the interval.  The
    result is [resampled]. *)
Definition camera_update (env : detection_env) (observation : list Marcador)
    (pose : pf_vector_t) : M bool :=
  let* st := get in
  let* mk := deref (marker_ st) in
  let mk1 := mk_marker (am_setting mk) (marker_model_type_ st) (num_cam st)
               (image_width st) (image_height st) (am_simulation mk) in
  modify (set_marker_ (Some mk1));;;
  when (negb (bool_decide (observation = [])))
    (call_pf (λ pf, marker_UpdateSensor mk1 pf observation);;;
     emit (EvMarkerUpdateSensor observation);;;
     modify (set_updated_camera true));;;
  modify (set_latest_odom_pose_camera pose);;;
  modify (set_pf_odom_pose_ pose);;;
  modify (set_marker_update false);;;
  let count := (resample_count_cam st + 1)%Z in
  (if decide (in_int count) then ret tt else fault);;;
  modify (set_resample_count_cam count);;;
  (if decide (resample_interval_ st = 0)%Z then fault else ret tt);;;
  when (bool_decide (Z.rem count (resample_interval_ st) = 0)%Z)
    (call_pf pf_update_resample;;; emit EvPfUpdateResample);;;
  let resampled := true in
  emit (EvLog INFO "Num samples: %d");;;
  when (negb (m_force_update_cam st)) (publish_cloud (de_now env));;;
  ret resampled.

(** The publication stage of [detectionCallback] *)
Definition camera_publish (msg : messagedet) (env : detection_env)
    (observation : list Marcador) (resampled force_publication : bool) : M unit :=
  let* st := get in
  if resampled || force_publication then
    when (negb resampled) (call_pf pf_cluster_stats;;; emit EvPfClusterStats);;;
    let* r := read_hypotheses in
    if decide (r.1.1 > 0) then
      let* h := deref (hyp_at r.2 r.1.2) in
      let* st1 := get in
      let* pf := deref (pf_ st1) in
      let p := pose_message (global_frame_id_ st) (det_stamp msg) h
                 (pf_set_cov pf) in
      emit (EvPublishPose p);;;
      when (bool_decide (simulation st = 1)%Z)
        (emit (EvPublishPoseError p (Z.of_nat (length observation))));;;
      when (bool_decide (simulation st = 0)%Z)
        (emit (EvPublishYaw (v2 (pf_pose_mean h))));;;
      modify (set_last_published_pose p);;;
      let tmp_tf := tf_from_yaw (v2 (pf_pose_mean h)) (v0 (pf_pose_mean h))
                      (v1 (pf_pose_mean h)) in
      match de_odom_to_map env (tf_inverse tmp_tf) with
      | None => return_
      | Some odom_to_map =>
          modify (set_latest_tf_ odom_to_map);;;
          modify (set_latest_tf_valid_ true);;;
          when (tf_broadcast_ st)
            (emit (EvSendTransform (tf_inverse odom_to_map) (det_stamp msg)
                     (global_frame_id_ st) (odom_frame_id_ st));;;
             modify (set_sent_first_transform_ true);;;
             emit (EvSendTransform odom_to_map (det_stamp msg)
                     (odom_frame_id_ st) (global_frame_id_ st)))
      end
    else emit (EvLog ERROR "No pose!")
  else if latest_tf_valid_ st then
    when (tf_broadcast_ st)
      (let transform_expiration :=
         (det_stamp msg + transform_tolerance_ st)%Z in
       emit (EvSendTransform (tf_inverse (latest_tf_ st)) transform_expiration
               (global_frame_id_ st) (odom_frame_id_ st));;;
       emit (EvSendTransform (latest_tf_ st) transform_expiration
               (odom_frame_id_ st) (global_frame_id_ st)));;;
    save_pose_if_due (de_now env)
  else ret tt.

(** The rest of [detectionCallback]: the update block under
    [if(marker_update)], the publication stage and the diagnostic paths *)
Definition camera_score_and_publish (msg : messagedet) (env : detection_env)
    (observation : list Marcador) (pose : pf_vector_t)
    (force_publication : bool) : M unit :=
  let* st1 := get in
  let* resampled :=
    (if marker_update st1 then camera_update env observation pose
     else ret false) in
  camera_publish msg env observation resampled force_publication;;;
  emit EvPublishPaths.

(** [AmclNode::detectionCallback] *)
Definition detectionCallback (msg : messagedet) (env : detection_env) : M unit :=
  let* st := get in
  match map_ st with
  | None => return_
  | Some _ =>
      let observation := observation_of msg in
      when (negb (bool_decide (frame_to_camera_ st = det_frame_id msg)))
        (camera_setup msg);;;
      let* odom := getOdomPose (de_odom_pose env) in
      match odom with
      | None =>
          emit (EvLog ERROR
            "Couldn't determine robot's pose associated with camera info");;;
          return_
      | Some pose =>
          let* delta := camera_gate pose in
          let* force_publication := camera_motion pose delta in
          camera_score_and_publish msg env observation pose force_publication
      end
  end.

(** *** Map, initial pose and services *)

(** A function called from a callback: its [return;] ends the function,
    not the caller. *)
Definition call_fn (m : M unit) : M unit :=
  fun s =>
    match m s with
    | (Returned, s1, t1) => (Normal tt, s1, t1)
    | r => r
    end.

(** [AmclNode::updatePoseFromServer]; no NaN among the reals, so the
    branches that ignore one are not taken. *)
Definition updatePoseFromServer (ps : param_server) : M unit :=
  modify (set_init_pose_
    (mk_vec (param_double ps "initial_pose_x" 0)
            (param_double ps "initial_pose_y" 0)
            (param_double ps "initial_pose_a" 0)));;;
  modify (set_init_cov_
    (mk_vec (param_double ps "initial_cov_xx" (0.5 * 0.5))
            (param_double ps "initial_cov_yy" (0.5 * 0.5))
            (param_double ps "initial_cov_aa" ((PI / 12) * (PI / 12))))).

(** [AmclNode::freeMapDependentMemory] *)
Definition freeMapDependentMemory : M unit :=
  modify (set_map_ None);;;
  modify (set_pf_ None);;;
  modify (set_odom_ None);;;
  modify (set_laser_ None);;;
  modify (set_marker_ None).

(** [AmclNode::applyInitialPose] *)
Definition applyInitialPose : M unit :=
  let* st := get in
  match initial_pose_hyp_ st, map_ st with
  | Some h, Some _ =>
      call_pf (λ pf, pf_init pf (pf_pose_mean h) (pf_pose_cov h));;;
      emit (EvPfInit (pf_pose_mean h) (pf_pose_cov h));;;
      modify (set_pf_init_ false);;;
      modify (set_pf_init_scan false);;;
      modify (set_pf_init_cam false);;;
      modify (set_initial_pose_hyp_ None)
  | _, _ => ret tt
  end.

(** The pose generator as handed to the filter: it reads the map behind
    [arg] and the free-space index. *)
Definition pose_generator (st : node) : R -> R -> option pf_vector_t :=
  match map_ st with
  | Some m => uniformPoseGenerator m (free_space_indices st)
  | None => λ _ _, None
  end.

(** A diagonal covariance *)
Definition diag_cov (d : pf_vector_t) : pf_matrix_t :=
  mk_mat (v0 d) 0 0 0 (v1 d) 0 0 0 (v2 d).

(** The instantiation of the odometry, laser and marker objects, written
    out in [handleMapMessage] and again in [reconfigureCB];
    [in_reconfigure] selects the log texts of the latter. *)
Definition instantiate_laser (in_reconfigure : bool) : M unit :=
  let* st := get in
  let new_laser setting :=
    mk_laser (max_beams_ st) (map_ st) (Some setting) pf_vector_zero in
  match laser_model_type_ st with
  | LASER_MODEL_BEAM =>
      modify (set_laser_ (Some (new_laser
        (SetModelBeam (z_hit_ st) (z_short_ st) (z_max_ st) (z_rand_ st)
           (sigma_hit_ st) (lambda_short_ st) 0))))
  | LASER_MODEL_LIKELIHOOD_FIELD_PROB =>
      emit (EvLog INFO
        "Initializing likelihood field model; this can take some time on large maps...");;;
      modify (set_laser_ (Some (new_laser
        (SetModelLikelihoodFieldProb (z_hit_ st) (z_rand_ st) (sigma_hit_ st)
           (laser_likelihood_max_dist_ st) (do_beamskip_ st)
           (beam_skip_distance_ st) (beam_skip_threshold_ st)
           (beam_skip_error_threshold_ st)))));;;
      emit (EvLog INFO
        (if in_reconfigure
         then "Done initializing likelihood field model with probabilities."
         else "Done initializing likelihood field model."))
  | LASER_MODEL_LIKELIHOOD_FIELD =>
      emit (EvLog INFO
        "Initializing likelihood field model; this can take some time on large maps...");;;
      modify (set_laser_ (Some (new_laser
        (SetModelLikelihoodField (z_hit_ st) (z_rand_ st) (sigma_hit_ st)
           (laser_likelihood_max_dist_ st) (laser_coeff st)))));;;
      emit (EvLog INFO "Done initializing likelihood field model.")
  end.

Definition instantiate_odom : M unit :=
  let* st := get in
  modify (set_odom_ (Some (mk_odom (odom_model_type_ st) (alpha1_ st)
    (alpha2_ st) (alpha3_ st) (alpha4_ st) (alpha5_ st)))).

(** [new AMCLMarker(simulation)]; members not assigned yet are shown as 0 *)
Definition new_AMCLMarker (st : node) : AMCLMarker :=
  mk_marker None MARKER_MODEL_UNSET 0 0 0 (simulation st).

Definition instantiate_marker (in_reconfigure : bool) : M unit :=
  let* st := get in
  match marker_model_type_ st with
  | MARKER_MODEL_LIKELIHOOD =>
      when in_reconfigure (emit (EvLog INFO "Initializong visual algorithm..."));;;
      modify (set_marker_ (Some
        (mk_marker
           (Some (marker_z_hit st, marker_z_rand st, marker_sigma_hit st,
                  marker_landa st, marker_coeff st))
           MARKER_MODEL_UNSET (num_cam st) (image_width st) (image_height st)
           (simulation st))))
  | MARKER_MODEL_UNSET => modify (set_marker_ (Some (new_AMCLMarker st)))
  end.

(** [AmclNode::handleMapMessage]; [ps] is the parameter server as read by
    [updatePoseFromServer]. *)
Definition handleMapMessage (msg : OccupancyGrid) (ps : param_server) : M unit :=
  let* st := get in
  emit (EvLog INFO "Received a %d X %d map @ %.3f m/pix");;;
  when (negb (bool_decide (og_frame_id msg = global_frame_id_ st)))
    (emit (EvLog WARN
      "Frame_id of map received:'%s' doesn't match global_frame_id:'%s;'. This could cause issues with reading published topics"));;;
  freeMapDependentMemory;;;
  modify (set_lasers_ []);;;
  modify (set_lasers_update_ []);;;
  modify (set_frame_to_laser_ ∅);;;
  let* m := deref (convertMap msg) in
  modify (set_map_ (Some m));;;
  let* free := deref (index_free_space m) in
  modify (set_free_space_indices free);;;
  modify (set_pf_ (Some
    (pf_set_pop
       (pf_alloc (min_particles_ st) (max_particles_ st) (alpha_slow_ st)
          (alpha_fast_ st) (uniformPoseGenerator m free))
       (pf_err_ st) (pf_z_ st))));;;
  updatePoseFromServer ps;;;
  let* st1 := get in
  call_pf (λ pf, pf_init pf (init_pose_ st1) (diag_cov (init_cov_ st1)));;;
  emit (EvPfInit (init_pose_ st1) (diag_cov (init_cov_ st1)));;;
  modify (set_pf_init_ false);;;
  modify (set_pf_init_scan false);;;
  modify (set_pf_init_cam false);;;
  instantiate_odom;;;
  instantiate_laser false;;;
  instantiate_marker false;;;
  applyInitialPose.

(** [AmclNode::mapReceived] *)
Definition mapReceived (msg : OccupancyGrid) (ps : param_server) : M unit :=
  let* st := get in
  if first_map_only_ st && first_map_received_ st then return_
  else
    call_fn (handleMapMessage msg ps);;;
    modify (set_first_map_received_ true).

(** [geometry_msgs::PoseWithCovarianceStamped] as an initial pose: the pose
    is the transform that [tf::poseMsgToTF] makes of it. *)
Record InitialPose := mk_initial_pose {
  ip_frame_id : string;
  ip_stamp : Z;
  ip_pose : Transform;
  ip_covariance : list R }.

Record initial_pose_env := mk_initial_pose_env {
  ie_tx_odom : option Transform }.   (* [lookupTransform]; [None]: exception *)

(** [AmclNode::handleInitialPoseMessage] *)
Definition handleInitialPoseMessage (msg : InitialPose)
    (env : initial_pose_env) : M unit :=
  let* st := get in
  (if decide (ip_frame_id msg = EmptyString) then
     emit (EvLog WARN
       "Received initial pose with empty frame_id.  You should always supply a frame_id.")
   else if decide (tf_resolve (ip_frame_id msg) ≠ tf_resolve (global_frame_id_ st))
   then
     emit (EvLog WARN
       "Ignoring initial pose in frame %s; initial poses must be in the global frame, %s");;;
     return_
   else ret tt);;;
  let* tx_odom :=
    match ie_tx_odom env with
    | Some tx => ret tx
    | None =>
        when (sent_first_transform_ st)
          (emit (EvLog WARN "Failed to transform initial pose in time (%s)"));;;
        ret tf_identity
    end in
  let pose_new := tf_mul (ip_pose msg) tx_odom in
  modify (set_pose_ini pose_new);;;
  emit (EvLog INFO "Setting pose (%.6f): %.3f %.3f %.3f");;;
  let pf_init_pose_mean :=
    mk_vec (tf_x pose_new) (tf_y pose_new) (tf_yaw pose_new) in
  let c := ip_covariance msg in
  let pf_init_pose_cov :=
    mk_mat (covariance_at c 0) (covariance_at c 1) 0
           (covariance_at c 6) (covariance_at c 7) 0
           0 0 (covariance_at c 35) in
  modify (set_initial_pose_hyp_
    (Some (mk_hyp 0 pf_init_pose_mean pf_init_pose_cov)));;;
  applyInitialPose.

(** [AmclNode::globalLocalizationCallback] *)
Definition globalLocalizationCallback : M bool :=
  let* st := get in
  match map_ st with
  | None => ret true
  | Some m =>
      emit (EvLog INFO "Initializing with uniform distribution");;;
      call_pf (λ pf, pf_init_model pf
                       (uniformPoseGenerator m (free_space_indices st)));;;
      emit EvPfInitModel;;;
      emit (EvLog INFO "Global initialisation done!");;;
      modify (set_pf_init_ false);;;
      modify (set_pf_init_scan false);;;
      modify (set_pf_init_cam false);;;
      ret true
  end.

(** [AmclNode::nomotionUpdateCallback] *)
Definition nomotionUpdateCallback : M bool :=
  modify (set_m_force_update_scan true);;;
  modify (set_m_force_update_cam true);;;
  ret true.

(** [AmclNode::setMapCallback] *)
Definition setMapCallback (map : OccupancyGrid) (initial_pose : InitialPose)
    (ps : param_server) (env : initial_pose_env) : M bool :=
  call_fn (handleMapMessage map ps);;;
  call_fn (handleInitialPoseMessage initial_pose env);;;
  ret true.

(** *** Reconfiguration and construction *)

Definition laser_model_of (name : string) : option laser_model_t :=
  if decide (name = "beam") then Some LASER_MODEL_BEAM
  else if decide (name = "likelihood_field") then Some LASER_MODEL_LIKELIHOOD_FIELD
  else if decide (name = "likelihood_field_prob")
       then Some LASER_MODEL_LIKELIHOOD_FIELD_PROB
  else None.

Definition odom_model_of (name : string) : option odom_model_t :=
  if decide (name = "diff") then Some ODOM_MODEL_DIFF
  else if decide (name = "omni") then Some ODOM_MODEL_OMNI
  else if decide (name = "diff-corrected") then Some ODOM_MODEL_DIFF_CORRECTED
  else if decide (name = "omni-corrected") then Some ODOM_MODEL_OMNI_CORRECTED
  else None.

(** [AmclNode::reconfigureCB].  The two assignments to the in-out argument
    [config] ([restore_defaults], [max_particles]) are kept as far as the
    node reads them back. *)
Definition reconfigureCB (config : AMCLConfig) : M unit :=
  let* st := get in
  if first_reconfigure_call_ st then
    modify (set_first_reconfigure_call_ false);;;
    modify (set_default_config_ config);;;
    return_
  else
    let config := if restore_defaults config then default_config_ st else config in
    modify (set_d_thresh_ (update_min_d config));;;
    modify (set_a_thresh_ (update_min_a config));;;
    modify (set_resample_interval_ (resample_interval config));;;
    modify (set_laser_min_range_ (laser_min_range config));;;
    modify (set_laser_max_range_ (laser_max_range config));;;
    modify (set_save_pose_period (duration_fromSec (1 / save_pose_rate config)));;;
    modify (set_transform_tolerance_ (duration_fromSec (transform_tolerance config)));;;
    modify (set_max_beams_ (laser_max_beams config));;;
    modify (set_alpha1_ (odom_alpha1 config));;;
    modify (set_alpha2_ (odom_alpha2 config));;;
    modify (set_alpha3_ (odom_alpha3 config));;;
    modify (set_alpha4_ (odom_alpha4 config));;;
    modify (set_alpha5_ (odom_alpha5 config));;;
    modify (set_z_hit_ (laser_z_hit config));;;
    modify (set_z_short_ (laser_z_short config));;;
    modify (set_z_max_ (laser_z_max config));;;
    modify (set_z_rand_ (laser_z_rand config));;;
    modify (set_sigma_hit_ (laser_sigma_hit config));;;
    modify (set_lambda_short_ (laser_lambda_short config));;;
    modify (set_laser_likelihood_max_dist_ (laser_likelihood_max_dist config));;;
    match laser_model_of (laser_model_type config) with
    | Some t => modify (set_laser_model_type_ t)
    | None => ret tt
    end;;;
    match odom_model_of (odom_model_type config) with
    | Some t => modify (set_odom_model_type_ t)
    | None => ret tt
    end;;;
    let too_many := bool_decide (min_particles config > max_particles config)%Z in
    when too_many (emit (EvLog WARN
      "You've set min_particles to be greater than max particles, this isn't allowed so they'll be set to be equal."));;;
    modify (set_min_particles_ (min_particles config));;;
    modify (set_max_particles_
      (if too_many then min_particles config else max_particles config));;;
    modify (set_alpha_slow_ (recovery_alpha_slow config));;;
    modify (set_alpha_fast_ (recovery_alpha_fast config));;;
    modify (set_tf_broadcast_ (tf_broadcast config));;;
    modify (set_do_beamskip_ (do_beamskip config));;;
    modify (set_beam_skip_distance_ (beam_skip_distance config));;;
    modify (set_beam_skip_threshold_ (beam_skip_threshold config));;;
    let* st1 := get in
    modify (set_pf_err_ (kld_err config));;;
    modify (set_pf_z_ (kld_z config));;;
    modify (set_pf_ (Some
      (pf_set_pop
         (pf_alloc (min_particles_ st1) (max_particles_ st1) (alpha_slow_ st1)
            (alpha_fast_ st1) (pose_generator st1))
         (kld_err config) (kld_z config))));;;
    let last := last_published_pose st1 in
    let pf_init_pose_mean := mk_vec (p_x last) (p_y last) (p_yaw last) in
    let pf_init_pose_cov :=
      diag_cov (mk_vec (covariance_at (p_covariance last) 0)
                       (covariance_at (p_covariance last) 7)
                       (covariance_at (p_covariance last) 35)) in
    call_pf (λ pf, pf_init pf pf_init_pose_mean pf_init_pose_cov);;;
    emit (EvPfInit pf_init_pose_mean pf_init_pose_cov);;;
    modify (set_pf_init_scan false);;;
    modify (set_pf_init_cam false);;;
    instantiate_odom;;;
    instantiate_laser true;;;
    modify (set_odom_frame_id_ (odom_frame_id config));;;
    modify (set_base_frame_id_ (base_frame_id config));;;
    modify (set_global_frame_id_ (global_frame_id config));;;
    instantiate_marker true.

(** [AmclNode::requestMap]; [map] is the answer of the map service. *)
Definition requestMap (map : OccupancyGrid) (ps : param_server) : M unit :=
  emit (EvLog INFO "Requesting the map...");;;
  call_fn (handleMapMessage map ps).

(** [AmclNode::AmclNode], run on the node's memory as allocated.  The
    containers [lasers_], [lasers_update_] and [frame_to_laser_] are
    constructed empty before the body runs; the other members that the
    constructor does not assign keep the value they had.  [ps] is the
    parameter server, [map] the answer of the map service and [config] the
    configuration of the first reconfigure call. *)
Definition AmclNode_ctor (ps : param_server) (map : OccupancyGrid)
    (config : AMCLConfig) : M unit :=
  modify (set_lasers_ []);;;
  modify (set_lasers_update_ []);;;
  modify (set_frame_to_laser_ ∅);;;
  modify (set_sent_first_transform_ false);;;
  modify (set_latest_tf_valid_ false);;;
  modify (set_map_ None);;;
  modify (set_pf_ None);;;
  modify (set_resample_count_cam 0);;;
  modify (set_resample_count_scan 0);;;
  modify (set_odom_ None);;;
  modify (set_laser_ None);;;
  modify (set_marker_ None);;;
  modify (set_initial_pose_hyp_ None);;;
  modify (set_first_map_received_ false);;;
  modify (set_first_reconfigure_call_ true);;;
  modify (set_use_map_topic_ (param_bool ps "use_map_topic" false));;;
  modify (set_first_map_only_ (param_bool ps "first_map_only" false));;;
  modify (set_save_pose_period
    (duration_fromSec (1 / param_double ps "save_pose_rate" 0.5)));;;
  modify (set_marker_coeff (param_double ps "camera_coeff" 0.5));;;
  modify (set_laser_coeff (param_double ps "camera_coeff" 0.5));;;
  modify (set_laser_min_range_ (param_double ps "laser_min_range" (-1)));;;
  modify (set_laser_max_range_ (param_double ps "laser_max_range" (-1)));;;
  modify (set_max_beams_ (param_int ps "laser_max_beams" 30));;;
  modify (set_min_particles_ (param_int ps "min_particles" 100));;;
  modify (set_max_particles_ (param_int ps "max_particles" 5000));;;
  modify (set_pf_err_ (param_double ps "kld_err" 0.01));;;
  modify (set_pf_z_ (param_double ps "kld_z" 0.99));;;
  modify (set_alpha1_ (param_double ps "odom_alpha1" 0.2));;;
  modify (set_alpha2_ (param_double ps "odom_alpha2" 0.2));;;
  modify (set_alpha3_ (param_double ps "odom_alpha3" 0.2));;;
  modify (set_alpha4_ (param_double ps "odom_alpha4" 0.2));;;
  modify (set_alpha5_ (param_double ps "odom_alpha5" 0.2));;;
  modify (set_do_beamskip_ (param_bool ps "do_beamskip" false));;;
  modify (set_beam_skip_distance_ (param_double ps "beam_skip_distance" 0.5));;;
  modify (set_beam_skip_threshold_ (param_double ps "beam_skip_threshold" 0.3));;;
  modify (set_beam_skip_error_threshold_
    (param_double ps "beam_skip_error_threshold_" 0.9));;;
  modify (set_z_hit_ (param_double ps "laser_z_hit" 0.95));;;
  modify (set_z_short_ (param_double ps "laser_z_short" 0.1));;;
  modify (set_z_max_ (param_double ps "laser_z_max" 0.05));;;
  modify (set_z_rand_ (param_double ps "laser_z_rand" 0.05));;;
  modify (set_sigma_hit_ (param_double ps "laser_sigma_hit" 0.2));;;
  modify (set_lambda_short_ (param_double ps "laser_lambda_short" 0.1));;;
  modify (set_laser_likelihood_max_dist_
    (param_double ps "laser_likelihood_max_dist" 2));;;
  match laser_model_of (param_string ps "laser_model_type" "likelihood_field") with
  | Some t => modify (set_laser_model_type_ t)
  | None =>
      emit (EvLog WARN
        "Unknown laser model type %s; defaulting to likelihood_field model");;;
      modify (set_laser_model_type_ LASER_MODEL_LIKELIHOOD_FIELD)
  end;;;
  when (bool_decide
          (param_string ps "marker_model_type" "observation_likelihood"
           = "observation_likelihood"))
    (modify (set_marker_model_type_ MARKER_MODEL_LIKELIHOOD));;;
  match odom_model_of (param_string ps "odom_model_type" "diff") with
  | Some t => modify (set_odom_model_type_ t)
  | None =>
      emit (EvLog WARN "Unknown odom model type %s; defaulting to diff model");;;
      modify (set_odom_model_type_ ODOM_MODEL_DIFF)
  end;;;
  modify (set_d_thresh_ (param_double ps "update_min_d" 0.2));;;
  modify (set_a_thresh_ (param_double ps "update_min_a" (PI / 6)));;;
  modify (set_odom_frame_id_ (param_string ps "odom_frame_id" "odom"));;;
  modify (set_base_frame_id_ (param_string ps "base_frame_id" "base_link"));;;
  modify (set_global_frame_id_ (param_string ps "global_frame_id" "map"));;;
  modify (set_resample_interval_ (param_int ps "resample_interval" 2));;;
  modify (set_alpha_slow_ (param_double ps "recovery_alpha_slow" 0.001));;;
  modify (set_alpha_fast_ (param_double ps "recovery_alpha_fast" 0.1));;;
  modify (set_tf_broadcast_ (param_bool ps "tf_broadcast" true));;;
  modify (set_transform_tolerance_
    (duration_fromSec (param_double ps "transform_tolerance" 0.1)));;;
  updatePoseFromServer ps;;;
  let* st := get in
  (if use_map_topic_ st then emit (EvLog INFO "Subscribed to map topic.")
   else call_fn (requestMap map ps));;;
  let* st1 := get in
  modify (set_image_width
    (param_double ps "/amcl_doris/IMAGE_WIDTH" (image_width st1)));;;
  modify (set_image_height
    (param_double ps "/amcl_doris/IMAGE_HEIGHT" (image_height st1)));;;
  modify (set_num_cam (param_double ps "/amcl_doris/NUM_CAM" (num_cam st1)));;;
  modify (set_marker_z_hit
    (param_double ps "/amcl_doris/marker_z_hit" (marker_z_hit st1)));;;
  modify (set_marker_z_rand
    (param_double ps "/amcl_doris/marker_z_rand" (marker_z_rand st1)));;;
  modify (set_marker_sigma_hit
    (param_double ps "/amcl_doris/marker_sigma_hit" (marker_sigma_hit st1)));;;
  modify (set_marker_landa
    (param_double ps "/amcl_doris/marker_landa" (marker_landa st1)));;;
  modify (set_simulation
    (param_int ps "/amcl_doris/simulation" (simulation st1)));;;
  let* st2 := get in
  modify (set_marker_ (Some (new_AMCLMarker st2)));;;
  modify (set_m_force_update_cam false);;;
  modify (set_m_force_update_scan false);;;
  modify (set_updated_scan false);;;
  modify (set_updated_camera false);;;
  call_fn (reconfigureCB config).

(** *** The node as a transition system *)

(** What can arrive at a constructed node *)
Inductive input :=
| InLaserScan (laser_scan : LaserScan) (env : laser_env)
| InDetection (msg : messagedet) (env : detection_env)
| InInitialPose (msg : InitialPose) (env : initial_pose_env)
| InMap (msg : OccupancyGrid) (ps : param_server)
| InGlobalLocalization
| InNomotionUpdate
| InSetMap (map : OccupancyGrid) (initial_pose : InitialPose)
    (ps : param_server) (env : initial_pose_env)
| InReconfigure (config : AMCLConfig).

Definition handle (i : input) : M unit :=
  match i with
  | InLaserScan laser_scan env => laserReceived laser_scan env
  | InDetection msg env => detectionCallback msg env
  | InInitialPose msg env => handleInitialPoseMessage msg env
  | InMap msg ps => mapReceived msg ps
  | InGlobalLocalization => globalLocalizationCallback;;; ret tt
  | InNomotionUpdate => nomotionUpdateCallback;;; ret tt
  | InSetMap map initial_pose ps env =>
      setMapCallback map initial_pose ps env;;; ret tt
  | InReconfigure config => reconfigureCB config
  end.

(** The states of a node: the one the constructor leaves, whatever the
    memory held before, and those in which the handling of an input ends
    or stops. *)
Inductive reachable : node -> Prop :=
| reachable_ctor (memory : node) ps map config :
    reachable (final (AmclNode_ctor ps map config memory))
| reachable_handle st i :
    reachable st ->
    reachable (final (handle i st)).

(** Events of interest in a trace *)
Definition is_laser_scoring (e : event) : bool :=
  match e with EvLaserUpdateSensor _ _ => true | _ => false end.

Definition is_marker_scoring (e : event) : bool :=
  match e with EvMarkerUpdateSensor _ => true | _ => false end.

Definition is_resample (e : event) : bool :=
  match e with EvPfUpdateResample => true | _ => false end.

Definition is_pf_init (e : event) : bool :=
  match e with EvPfInit _ _ => true | _ => false end.

Definition is_warning (e : event) : bool :=
  match e with EvLog WARN _ => true | _ => false end.

(** The stamps of the broadcasts of the map->odom transform in a trace:
    the transforms sent with the global frame as parent and the odometry
    frame as child *)
Definition map_to_odom_stamps (st : node) (tr : list event) : list Z :=
  omap (λ e, match e with
             | EvSendTransform _ stamp frame child =>
                 if decide (frame = global_frame_id_ st
                            ∧ child = odom_frame_id_ st)
                 then Some stamp else None
             | _ => None
             end) tr.

(** *** Vocabulary for statements about runs *)

(** Some event of the run satisfies [p] *)
Definition occurs {A} (p : event -> bool)
    (r : outcome A * node * list event) : bool :=
  existsb p (trace r).

(** No run of [m] produces an event that satisfies [p] *)
Definition silent {A} (p : event -> bool) (m : M A) : Prop :=
  forall s, occurs p (m s) = false.

(** Every run of [m] from a state in [I] ends in [I] and produces only
    events in [good] *)
Definition maintains {A} (I : node -> Prop) (good : event -> Prop)
    (m : M A) : Prop :=
  forall s, I s -> I (final (m s)) /\ Forall good (trace (m s)).

(** The stamp of a broadcast of the map->odom transform is [t] *)
Definition stamps_are (st : node) (t : Z) (e : event) : Prop :=
  match e with
  | EvSendTransform _ stamp frame child =>
      frame = global_frame_id_ st -> child = odom_frame_id_ st -> stamp = t
  | _ => True
  end.

(** The ranges handed to the laser model, from the scan and the two
    configured range limits: a range up to the effective minimum is
    replaced by the effective maximum, every other one is kept. *)
Definition ranges_handed_over (laser_min laser_max : R)
    (laser_scan : LaserScan) (e : event) : Prop :=
  match e with
  | EvLaserUpdateSensor _ ldata =>
      let emax := if decide (laser_max > 0)
                  then Rmin (range_max laser_scan) laser_max
                  else range_max laser_scan in
      let emin := if decide (laser_min > 0)
                  then Rmax (range_min laser_scan) laser_min
                  else range_min laser_scan in
      ld_range_max ldata = emax /\
      length (ld_ranges ldata) = length (ranges laser_scan) /\
      forall (i : nat) r, ranges laser_scan !! i = Some r ->
        exists bearing,
          ld_ranges ldata !! i
          = Some (if decide (r <= emin) then emax else r, bearing)
  | _ => True
  end.

(** The two configured range limits *)
Definition range_limits_are (laser_min laser_max : R) (s : node) : Prop :=
  laser_min_range_ s = laser_min /\ laser_max_range_ s = laser_max.

(** No condition on the state *)
Definition any_state (s : node) : Prop := True.

(** The values of the two fusion coefficients *)
Definition coeffs_are (c1 c2 : R) (s : node) : Prop :=
  marker_coeff s = c1 /\ laser_coeff s = c2.




(** No constraint on the events *)
Definition any_event (e : event) : Prop := True.

(** The update test of a sensor, on the odometric pose [pose], the pose
    [last] at the sensor's last update and the sensor's force flag *)
Definition gate_open (st : node) (pose last : pf_vector_t) (force : bool) : Prop :=
  Rabs (v0 pose - v0 last) > d_thresh_ st \/
  Rabs (v1 pose - v1 last) > d_thresh_ st \/
  Rabs (angle_diff (v2 pose) (v2 last)) > a_thresh_ st \/
  force = true.

(** The value of [marker_update] at the test [if(marker_update)] of an
    initialized camera gate: the update test, a flag left set earlier, or a
    detection message of another frame *)
Definition camera_due (st : node) (msg : messagedet) (pose : pf_vector_t) : bool :=
  (if bool_decide (frame_to_camera_ st = det_frame_id msg)
   then marker_update st else true)
  || (moved st (pose_delta pose (latest_odom_pose_camera st))
      || m_force_update_cam st).

(** The settings of the broadcast are in [s'] what they are in [s] *)
Definition same_broadcast_settings (s s' : node) : Prop :=
  global_frame_id_ s' = global_frame_id_ s /\
  odom_frame_id_ s' = odom_frame_id_ s /\
  tf_broadcast_ s' = tf_broadcast_ s /\
  transform_tolerance_ s' = transform_tolerance_ s.

(** The odometric pose that [getOdomPose] reads off a transform *)
Definition pose_of (t : Transform) : pf_vector_t :=
  mk_vec (tf_x t) (tf_y t) (tf_yaw t).

End Callbacks.

(** ** More vocabulary for the properties *)

(** What the loop over the clusters keeps: [hyps] has its allocated
    length, no weight in it exceeds [max_weight], and a positive
    [max_weight] is the weight of [hyps[max_weight_hyp]]. *)
Definition best_so_far (n : nat) (k : Z) (acc : R * Z * list amcl_hyp_t) : Prop :=
  length acc.2 = n /\ 0 <= acc.1.1 /\
  Forall (λ h, weight h <= acc.1.1) acc.2 /\
  (acc.1.1 > 0 ->
   (0 <= acc.1.2 < k)%Z /\
   exists h, acc.2 !! Z.to_nat acc.1.2 = Some h /\ weight h = acc.1.1).

Section MoreVocabulary.
Context `{Extern}.

(** [AmclNode::checkLaserReceived]; [now] is [ros::Time::now()] and
    [laser_check_interval] the member of that name, which the constructor
    sets and nothing else in the node assigns. *)
Definition checkLaserReceived (now laser_check_interval : Z) : M unit :=
  let* st := get in
  let d := (now - last_laser_received_ts_ st)%Z in
  when (bool_decide (d > laser_check_interval)%Z)
    (emit (EvLog WARN
       "No laser scan received (and thus no pose updates have been published) for %f seconds.  Verify that data is being published on the %s topic.")).

(** More events of interest *)
Definition is_filter_init (e : event) : bool :=
  match e with EvPfInit _ _ | EvPfInitModel => true | _ => false end.

Definition is_odom_action (e : event) : bool :=
  match e with EvOdomUpdateAction _ _ => true | _ => false end.

Definition is_publication (e : event) : bool :=
  match e with
  | EvPublishPose _ | EvPublishPoseError _ _ | EvPublishCloud _ _ _ => true
  | _ => false
  end.

(** The laser registry: the lengths of [lasers_] and [lasers_update_] and
    the map from frames to indices *)
Definition laser_registry (s : node) : nat * nat * gmap string Z :=
  (length (lasers_ s), length (lasers_update_ s), frame_to_laser_ s).

(** A registry is consistent when both vectors have one length and every
    registered index is below the number of registered frames, which is at
    most that length. *)
Definition registry_consistent (r : nat * nat * gmap string Z) : Prop :=
  r.1.2 = r.1.1 /\ (size r.2 <= r.1.1)%nat /\
  forall frame i, r.2 !! frame = Some i -> (0 <= i < Z.of_nat (size r.2))%Z.

Definition registry_ok (s : node) : Prop :=
  registry_consistent (laser_registry s).

Definition registry_is (r : nat * nat * gmap string Z) (s : node) : Prop :=
  laser_registry s = r.

(** A program keeps [I] when every run from a state in [I] ends, or stops,
    in [I]. *)
Definition keeps {A} (I : node -> Prop) (m : M A) : Prop :=
  forall s, I s -> I (final (m s)).

(** From a state in [P] the program does not fault, and when it reaches
    its end with [a], [Q a] holds of the state. *)
Definition ensures {A} (P : node -> Prop) (m : M A)
    (Q : A -> node -> Prop) : Prop :=
  forall s, P s ->
    match result (m s) with
    | Normal a => Q a (final (m s))
    | Returned => True
    | Fault => False
    end.

(** What the laser callback needs of the node once a scan's laser has the
    index [laser_index] *)
Definition laser_ready (laser_index : Z) (s : node) : Prop :=
  is_Some (pf_ s) /\ is_Some (odom_ s) /\
  is_Some (laser_flag s laser_index) /\ is_Some (laser_at s laser_index).

(** What the camera callback needs of the node *)
Definition camera_ready (s : node) : Prop :=
  is_Some (pf_ s) /\ is_Some (odom_ s) /\ is_Some (marker_ s) /\
  resample_interval_ s ≠ 0%Z /\ in_int (resample_count_cam s + 1).

(** The same once the update block has counted the cycle *)
Definition camera_counted (s : node) : Prop :=
  is_Some (pf_ s) /\ is_Some (odom_ s) /\ is_Some (marker_ s).

End MoreVocabulary.

(** ** A small instance of the interface

    Planar transforms as triples, the conventional map macros, a parameter
    server without parameters, and a filter that counts the calls that
    change it.  It serves to run the node on concrete inputs. *)
Definition example_extern : Extern := {|
  Transform := pf_vector_t;
  tf_identity := pf_vector_zero;
  tf_inverse := λ t, mk_vec (- v0 t) (- v1 t) (- v2 t);
  tf_mul := λ t u, mk_vec (v0 t + v0 u) (v1 t + v1 u) (v2 t + v2 u);
  tf_from_yaw := λ yaw x y, mk_vec x y yaw;
  tf_x := v0;
  tf_y := v1;
  tf_yaw := v2;
  tf_resolve := λ name, name;
  duration_fromSec := λ t, Int_part (t * 1000000000);
  param_server := unit;
  param_double := λ _ _ default, default;
  param_int := λ _ _ default, default;
  param_bool := λ _ _ default, default;
  param_string := λ _ _ default, default;
  MAP_INDEX := λ m i j, (i + j * size_x m)%Z;
  MAP_WXGX := λ m i, origin_x m + (IZR i - IZR (size_x m ÷ 2)) * scale m;
  MAP_WYGY := λ m j, origin_y m + (IZR j - IZR (size_y m ÷ 2)) * scale m;
  pf_t := nat;
  pf_alloc := λ _ _ _ _ _, 0%nat;
  pf_set_pop := λ pf _ _, pf;
  pf_init := λ pf _ _, S pf;
  pf_init_model := λ pf _, S pf;
  pf_update_resample := S;
  pf_cluster_stats := S;
  pf_get_cluster_stats := λ _ k,
    match k with
    | 0%Z => Some (1, pf_vector_zero, pf_matrix_zero)
    | _ => None
    end;
  pf_cluster_count := λ _, 1%Z;
  pf_set_cov := λ _, pf_matrix_zero;
  pf_samples := λ _, [];
  odom_UpdateAction := λ _ pf _ _, S pf;
  laser_UpdateSensor := λ pf _, S pf;
  marker_UpdateSensor := λ _ pf _, S pf |}.



(** A state of the node over the small instance: a map of one free cell,
    one laser registered under the frame [laser], both gates initialized
    and both force flags set *)
Definition example_map : map_t := mk_map 1 1 1 0 0 [mk_cell (-1)].

Definition example_grid : OccupancyGrid := mk_grid "map" 1 1 1 0 0 [0%Z].

Definition example_laser : AMCLLaser :=
  mk_laser 30 (Some example_map)
    (Some (SetModelLikelihoodField 0.95 0.05 0.2 2 0.5)) pf_vector_zero.

Definition example_odom : AMCLOdom := mk_odom ODOM_MODEL_DIFF 0.2 0.2 0.2 0.2 0.2.

Definition example_marker : AMCLMarker :=
  mk_marker (Some (0.95, 0.05, 0.2, 0.1, 0.5)) MARKER_MODEL_LIKELIHOOD
    1 640 480 1.

Definition example_pose : PoseWithCovarianceStamped :=
  mk_pose_msg "map" 0 0 0 0 (replicate 36 0).

Definition example_config : AMCLConfig :=
  mk_config false 0.2 (PI / 6) 2 (-1) (-1) 0.5 0.1 30 0.2 0.2 0.2 0.2 0.2
    0.95 0.1 0.05 0.05 0.2 0.1 2 "likelihood_field" "diff" 100 5000 0.001 0.1
    true false 0.5 0.3 0.01 0.99 "odom" "base_link" "map".

Definition example_node : @node example_extern :=
  @mk_node example_extern
    (* sent_first_transform_ *) false
    (* latest_tf_ *) pf_vector_zero
    (* latest_tf_valid_ *) false
    (* free_space_indices *) [(0%Z, 0%Z)]
    (* latest_odom_pose_scan *) pf_vector_zero
    (* latest_odom_pose_camera *) pf_vector_zero
    (* latest_odom_pose_ *) pf_vector_zero
    (* odom_frame_id_ *) "odom"
    (* base_frame_id_ *) "base_link"
    (* global_frame_id_ *) "map"
    (* use_map_topic_ *) false
    (* first_map_only_ *) false
    (* save_pose_last_time *) 0%Z
    (* save_pose_period *) 0%Z
    (* last_published_pose *) example_pose
    (* map_ *) (Some example_map)
    (* lasers_ *) [example_laser]
    (* lasers_update_ *) [false]
    (* frame_to_laser_ *) {["laser" := 0%Z]}
    (* pf_ *) (Some 0%nat)
    (* pf_err_ *) 0
    (* pf_z_ *) 0
    (* pf_init_ *) true
    (* pf_odom_pose_ *) pf_vector_zero
    (* d_thresh_ *) 0.2
    (* a_thresh_ *) (PI / 6)
    (* resample_interval_ *) 2%Z
    (* resample_count_cam *) 0%Z
    (* resample_count_scan *) 0%Z
    (* laser_min_range_ *) (-1)
    (* laser_max_range_ *) (-1)
    (* m_force_update_cam *) true
    (* m_force_update_scan *) true
    (* updated_scan *) false
    (* updated_camera *) false
    (* pf_init_scan *) true
    (* pf_init_cam *) true
    (* odom_ *) (Some example_odom)
    (* laser_ *) (Some example_laser)
    (* marker_ *) (Some example_marker)
    (* transform_tolerance_ *) 100000000%Z
    (* initial_pose_hyp_ *) None
    (* first_map_received_ *) true
    (* first_reconfigure_call_ *) false
    (* max_beams_ *) 30%Z
    (* min_particles_ *) 100%Z
    (* max_particles_ *) 5000%Z
    (* alpha1_ *) 0
    (* alpha2_ *) 0
    (* alpha3_ *) 0
    (* alpha4_ *) 0
    (* alpha5_ *) 0
    (* alpha_slow_ *) 0
    (* alpha_fast_ *) 0
    (* z_hit_ *) 0
    (* z_short_ *) 0
    (* z_max_ *) 0
    (* z_rand_ *) 0
    (* sigma_hit_ *) 0
    (* lambda_short_ *) 0
    (* do_beamskip_ *) false
    (* beam_skip_distance_ *) 0
    (* beam_skip_threshold_ *) 0
    (* beam_skip_error_threshold_ *) 0
    (* laser_likelihood_max_dist_ *) 0
    (* odom_model_type_ *) ODOM_MODEL_DIFF
    (* init_pose_ *) pf_vector_zero
    (* init_cov_ *) pf_vector_zero
    (* laser_model_type_ *) LASER_MODEL_LIKELIHOOD_FIELD
    (* marker_model_type_ *) MARKER_MODEL_LIKELIHOOD
    (* tf_broadcast_ *) true
    (* last_laser_received_ts_ *) 0%Z
    (* marker_update *) false
    (* num_cam *) 0
    (* image_width *) 0
    (* image_height *) 0
    (* frame_to_camera_ *) "camera"
    (* marker_z_hit *) 0
    (* marker_z_rand *) 0
    (* marker_sigma_hit *) 0
    (* marker_landa *) 0
    (* marker_coeff *) 0.5
    (* laser_coeff *) 0.5
    (* simulation *) 1%Z
    (* pose_ini *) pf_vector_zero
    (* default_config_ *) example_config.

(** A detection message without markers and one with a marker, both in
    the frame of the camera seen last, and an environment in which every
    lookup of a transform succeeds *)
Definition example_no_detection : messagedet := mk_messagedet "camera" 5 [].

Definition example_detection : messagedet :=
  mk_messagedet "camera" 5
    [mk_detected 0 0 7 ((0, 0), (0, 1), (1, 1), (1, 0))].

Definition example_detection_env : @detection_env example_extern :=
  @mk_detection_env example_extern 0%Z (Some pf_vector_zero) (λ t, Some t).

(** A scan of two beams, the first one shorter than the scan's minimum
    range *)
Definition example_scan : LaserScan :=
  mk_scan "laser" 5 0 1 1 10 [0.5; 3].

Definition example_laser_env : @laser_env example_extern :=
  @mk_laser_env example_extern 0%Z (Some pf_vector_zero) (Some pf_vector_zero)
    (Some (0, 1)) (λ t, Some t).

(** An initial pose without a frame id, and one in a frame that is not the
    global frame *)
Definition example_initial_pose (frame_id : string) : @InitialPose example_extern :=
  @mk_initial_pose example_extern frame_id 0%Z pf_vector_zero (replicate 36 0).

Definition example_initial_pose_env : @initial_pose_env example_extern :=
  @mk_initial_pose_env example_extern None.

(* ===================================================================== *)
(** * Properties *)
(* ===================================================================== *)

(** ** Facts about [atan2] and [normalize] *)

Lemma atan_nonpos (t : R) : t <= 0 -> atan t <= 0.
Proof.
  intros [Ht | ->].
  - left. rewrite <- atan_0. now apply atan_increasing.
  - rewrite atan_0. lra.
Qed.

Lemma atan_pos (t : R) : 0 < t -> 0 < atan t.
Proof. intros Ht. rewrite <- atan_0. now apply atan_increasing. Qed.

Lemma atan2_range (y x : R) : - PI < atan2 y x <= PI.
Proof.
  pose proof PI_RGT_0 as Hpi.
  unfold atan2.
  destruct (decide (x > 0)) as [Hx | Hx].
  { pose proof (atan_bound (y / x)). lra. }
  destruct (decide (x < 0)) as [Hx' | Hx'].
  { pose proof (atan_bound (y / x)) as Hb.
    destruct (decide (y >= 0)) as [Hy | Hy].
    - assert (atan (y / x) <= 0).
      { apply atan_nonpos. unfold Rdiv.
        assert (/ x < 0) by now apply Rinv_lt_0_compat. nra. }
      lra.
    - assert (0 < atan (y / x)).
      { apply atan_pos. unfold Rdiv.
        assert (/ x < 0) by now apply Rinv_lt_0_compat. nra. }
      lra. }
  destruct (decide (y > 0)); [lra|].
  destruct (decide (y < 0)); lra.
Qed.

Lemma normalize_range (z : R) : - PI < normalize z <= PI.
Proof. apply atan2_range. Qed.

Lemma sqrt_ratio_unit (y x : R) :
  x <> 0 -> x² + y² = 1 -> sqrt (1 + (y / x)²) = / Rabs x.
Proof.
  intros Hx Hc.
  assert (Hax : 0 < Rabs x) by now apply Rabs_pos_lt.
  replace (1 + (y / x)²) with ((/ Rabs x)²).
  - apply sqrt_Rsqr. left. now apply Rinv_0_lt_compat.
  - rewrite Rsqr_inv'. rewrite <- Rsqr_abs. unfold Rsqr in *.
    field_simplify_eq; [lra | exact Hx].
Qed.

Lemma sin_cos_atan2 (y x : R) :
  x² + y² = 1 -> sin (atan2 y x) = y /\ cos (atan2 y x) = x.
Proof.
  intros Hc. unfold atan2.
  destruct (decide (x > 0)) as [Hx | Hx].
  { rewrite sin_atan, cos_atan, sqrt_ratio_unit by (lra || assumption).
    rewrite Rabs_right by lra. split; field; lra. }
  destruct (decide (x < 0)) as [Hx' | Hx'].
  { destruct (decide (y >= 0)) as [Hy | Hy].
    - rewrite neg_sin, neg_cos, sin_atan, cos_atan,
        sqrt_ratio_unit by (lra || assumption).
      rewrite Rabs_left by lra. split; field; lra.
    - unfold Rminus. rewrite sin_plus, cos_plus, sin_neg, cos_neg, sin_PI, cos_PI.
      rewrite sin_atan, cos_atan, sqrt_ratio_unit by (lra || assumption).
      rewrite Rabs_left by lra. split; field; lra. }
  assert (x = 0) by lra. subst x.
  assert (Hy : y² = 1) by (unfold Rsqr in *; lra).
  assert (Hy' : y = 1 \/ y = -1).
  { unfold Rsqr in Hy. assert ((y - 1) * (y + 1) = 0) by lra.
    destruct (Rmult_integral _ _ H); lra. }
  destruct (decide (y > 0)).
  { rewrite sin_PI2, cos_PI2. lra. }
  destruct (decide (y < 0)).
  { rewrite sin_neg, cos_neg, sin_PI2, cos_PI2. lra. }
  lra.
Qed.

Lemma sin_cos_normalize (z : R) :
  sin (normalize z) = sin z /\ cos (normalize z) = cos z.
Proof.
  apply sin_cos_atan2. rewrite Rplus_comm. apply sin2_cos2.
Qed.

Lemma normalize_0 : normalize 0 = 0.
Proof.
  unfold normalize, atan2. rewrite sin_0, cos_0.
  destruct (decide (1 > 0)); [|lra].
  unfold Rdiv. rewrite Rmult_0_l. apply atan_0.
Qed.

Lemma normalize_PI : normalize PI = PI.
Proof.
  unfold normalize, atan2. rewrite sin_PI, cos_PI.
  destruct (decide (-1 > 0)); [lra|].
  destruct (decide (-1 < 0)); [|lra].
  destruct (decide (0 >= 0)); [|lra].
  unfold Rdiv. rewrite Rmult_0_l, atan_0. lra.
Qed.

(** The three possible values of [angle_diff]: the difference of the
    normalized angles, shifted by a full turn when it leaves [-PI, PI]. *)
Lemma angle_diff_cases (a b : R) :
  let d1 := normalize a - normalize b in
  (Rabs d1 < PI /\ angle_diff a b = d1) \/
  (PI <= d1 /\ angle_diff a b = d1 - 2 * PI) \/
  (d1 <= - PI /\ angle_diff a b = d1 + 2 * PI).
Proof.
  pose proof PI_RGT_0 as Hpi.
  pose proof (normalize_range a) as Ha.
  pose proof (normalize_range b) as Hb.
  unfold angle_diff. cbv zeta.
  set (d1 := normalize a - normalize b).
  assert (Hd : -(2 * PI) < d1 < 2 * PI) by (unfold d1; lra).
  destruct (decide (d1 > 0)) as [Hp | Hp].
  - rewrite (Rabs_right d1) by lra.
    replace ((2 * PI - d1) * -1) with (d1 - 2 * PI) by lra.
    rewrite (Rabs_left (d1 - 2 * PI)) by lra.
    destruct (decide (d1 < - (d1 - 2 * PI))) as [Hlt | Hlt].
    + left. split; [|reflexivity]. lra.
    + right; left. split; [lra | reflexivity].
  - assert (Hab : Rabs d1 = - d1).
    { destruct (Rle_lt_or_eq_dec d1 0) as [Hneg | Hz]; [lra| |].
      - now apply Rabs_left.
      - rewrite Hz, Rabs_R0. lra. }
    rewrite Hab.
    rewrite (Rabs_right (2 * PI - - d1)) by lra.
    destruct (decide (- d1 < 2 * PI - - d1)) as [Hlt | Hlt].
    + left. split; [|reflexivity]. lra.
    + right; right. split; [lra | lra].
Qed.

Lemma angle_diff_range (a b : R) : - PI <= angle_diff a b <= PI.
Proof.
  pose proof PI_RGT_0 as Hpi.
  pose proof (normalize_range a) as Ha.
  pose proof (normalize_range b) as Hb.
  destruct (angle_diff_cases a b) as [[H ->] | [[H ->] | [H ->]]].
  - apply Rabs_def2 in H. lra.
  - lra.
  - lra.
Qed.

Lemma angle_diff_antisym (a b : R) : angle_diff a b = - angle_diff b a.
Proof.
  pose proof PI_RGT_0 as Hpi.
  destruct (angle_diff_cases a b) as [[H ->] | [[H ->] | [H ->]]];
    destruct (angle_diff_cases b a) as [[H' ->] | [[H' ->] | [H' ->]]];
    try lra;
    repeat match goal with
      | H : Rabs _ < PI |- _ => apply Rabs_def2 in H
      end; lra.
Qed.

Lemma angle_diff_sin_cos (a b : R) :
  sin (angle_diff a b) = sin (a - b) /\ cos (angle_diff a b) = cos (a - b).
Proof.
  destruct (sin_cos_normalize a) as [Hsa Hca].
  destruct (sin_cos_normalize b) as [Hsb Hcb].
  assert (Hd : sin (normalize a - normalize b) = sin (a - b) /\
               cos (normalize a - normalize b) = cos (a - b)).
  { rewrite !sin_minus, !cos_minus, Hsa, Hca, Hsb, Hcb. split; reflexivity. }
  destruct Hd as [Hs Hc].
  destruct (angle_diff_cases a b) as [[_ ->] | [[_ ->] | [_ ->]]].
  - split; assumption.
  - rewrite (sin_minus _ (2 * PI)), (cos_minus _ (2 * PI)),
      sin_2PI, cos_2PI, Hs, Hc. split; ring.
  - rewrite (sin_plus _ (2 * PI)), (cos_plus _ (2 * PI)),
      sin_2PI, cos_2PI, Hs, Hc. split; ring.
Qed.

Lemma angle_diff_PI_0 : angle_diff PI 0 = - PI.
Proof.
  pose proof PI_RGT_0 as Hpi.
  unfold angle_diff. rewrite normalize_PI, normalize_0. cbv zeta.
  replace (PI - 0) with PI by lra.
  rewrite (Rabs_right PI) by lra.
  destruct (decide (PI > 0)); [|lra].
  replace ((2 * PI - PI) * -1) with (- PI) by lra.
  rewrite Rabs_Ropp, (Rabs_right PI) by lra.
  destruct (decide (PI < PI)); [lra | reflexivity].
Qed.

(** C3, as the code has it: for all real angles [a] and [b],
    [angle_diff a b] lies in the closed interval [-PI, PI], it is
    antisymmetric, [angle_diff a b = - angle_diff b a], and it is the
    difference [a - b] up to whole turns (same sine and cosine), [normalize]
    being [atan2 (sin z) (cos z)] with values in (-PI, PI]. *)
Theorem angle_diff_closed_range_antisym (a b : R) :
  - PI <= angle_diff a b <= PI /\
  angle_diff a b = - angle_diff b a /\
  sin (angle_diff a b) = sin (a - b) /\
  cos (angle_diff a b) = cos (a - b) /\
  - PI < normalize a <= PI.
Proof.
  split; [apply angle_diff_range|].
  split; [apply angle_diff_antisym|].
  destruct (angle_diff_sin_cos a b) as [Hs Hc].
  split; [exact Hs|]. split; [exact Hc|]. apply normalize_range.
Qed.

(** C3 as stated fails: at [a = PI], [b = 0] the result is [-PI], which is
    outside the half-open interval (-PI, PI]. *)
Lemma angle_diff_half_open_range_fails :
  ~ (forall a b : R,
       - PI < angle_diff a b <= PI /\ angle_diff a b = - angle_diff b a).
Proof.
  intros H. destruct (H PI 0) as [[Hlo _] _].
  rewrite angle_diff_PI_0 in Hlo. lra.
Qed.

(** ** Reasoning about runs *)

Section Runs.
Context `{Extern}.

Lemma bind_run {A B} (m : M A) (k : A -> M B) s a s1 t1 :
  m s = (Normal a, s1, t1) -> bind m k s = prepend t1 (k a s1).
Proof. intros Hm. unfold bind. now rewrite Hm. Qed.

Lemma bind_returned {A B} (m : M A) (k : A -> M B) s s1 t1 :
  m s = (Returned, s1, t1) -> bind m k s = (Returned, s1, t1).
Proof. intros Hm. unfold bind. now rewrite Hm. Qed.

Lemma bind_fault {A B} (m : M A) (k : A -> M B) s s1 t1 :
  m s = (Fault, s1, t1) -> bind m k s = (Fault, s1, t1).
Proof. intros Hm. unfold bind. now rewrite Hm. Qed.

Lemma prepend_nil {A} (r : outcome A * node * list event) : prepend [] r = r.
Proof. now destruct r as [[o s] t]. Qed.

Lemma occurs_prepend {A} p t (r : outcome A * node * list event) :
  occurs p (prepend t r) = existsb p t || occurs p r.
Proof. unfold occurs, prepend, trace. cbn. apply existsb_app. Qed.

Lemma result_prepend {A} t (r : outcome A * node * list event) :
  result (prepend t r) = result r.
Proof. reflexivity. Qed.

Lemma final_prepend {A} t (r : outcome A * node * list event) :
  final (prepend t r) = final r.
Proof. reflexivity. Qed.

Lemma trace_prepend {A} t (r : outcome A * node * list event) :
  trace (prepend t r) = t ++ trace r.
Proof. reflexivity. Qed.

Lemma occurs_bind {A B} p (m : M A) (k : A -> M B) s :
  occurs p (bind m k s) =
  occurs p (m s) ||
  match result (m s) with
  | Normal a => occurs p (k a (final (m s)))
  | _ => false
  end.
Proof.
  unfold occurs, bind, prepend, trace, result, final.
  destruct (m s) as [[[a| |] s1] t1]; cbn.
  - apply existsb_app.
  - now rewrite orb_false_r.
  - now rewrite orb_false_r.
Qed.

Lemma elem_of_trace_bind {A B} e (m : M A) (k : A -> M B) s :
  e ∈ trace (m s) -> e ∈ trace (bind m k s).
Proof.
  unfold bind, prepend, trace.
  destruct (m s) as [[[a| |] s1] t1]; cbn; auto.
  intros He. apply elem_of_app. now left.
Qed.

(** *** Silent steps *)

Lemma silent_bind {A B} p (m : M A) (k : A -> M B) :
  silent p m -> (forall a, silent p (k a)) -> silent p (bind m k).
Proof.
  intros Hm Hk s. rewrite occurs_bind, Hm. cbn.
  destruct (result (m s)); [apply Hk | reflexivity | reflexivity].
Qed.

Lemma silent_ret {A} p (a : A) : silent p (ret a).
Proof. intros s; reflexivity. Qed.

Lemma silent_get p : silent p get.
Proof. intros s; reflexivity. Qed.

Lemma silent_modify p f : silent p (modify f).
Proof. intros s; reflexivity. Qed.

Lemma silent_return {A} p : silent p (@return_ _ A).
Proof. intros s; reflexivity. Qed.

Lemma silent_fault {A} p : silent p (@fault _ A).
Proof. intros s; reflexivity. Qed.

Lemma silent_emit p e : p e = false -> silent p (emit e).
Proof. intros He s. unfold occurs; cbn. now rewrite He. Qed.

Lemma silent_deref {A} p (o : option A) : silent p (deref o).
Proof. destruct o; intros s; reflexivity. Qed.

Lemma silent_when p b m : silent p m -> silent p (when b m).
Proof. destruct b; cbn; auto using silent_ret. Qed.

Lemma silent_call_pf p f : silent p (call_pf f).
Proof.
  unfold call_pf. apply silent_bind; [apply silent_get|intros st].
  apply silent_bind; [apply silent_deref|intros pf]. apply silent_modify.
Qed.

Lemma silent_call_fn p m : silent p m -> silent p (call_fn m).
Proof.
  intros Hm s. specialize (Hm s). unfold occurs, call_fn, trace in *.
  destruct (m s) as [[[a| |] s1] t1]; exact Hm.
Qed.

Lemma read_hyps_trace pf counts acc :
  Forall (λ e, exists t, e = EvLog ERROR t) (read_hyps pf counts acc).2.
Proof.
  revert acc. induction counts as [|c rest IH]; intros acc; cbn.
  - constructor.
  - destruct (pf_get_cluster_stats pf c) as [[[w mean] cov]|]; cbn.
    + destruct (decide (w > acc.1.1)); apply IH.
    + repeat constructor. eauto.
Qed.

Lemma silent_read_hypotheses p :
  (forall t, p (EvLog ERROR t) = false) -> silent p read_hypotheses.
Proof.
  intros Hp. unfold read_hypotheses.
  apply silent_bind; [apply silent_get|intros st].
  apply silent_bind; [apply silent_deref|intros pf].
  intros s. unfold occurs, trace. cbn.
  pose proof (read_hyps_trace pf (seqZ 0 (pf_cluster_count pf))
    (0, (-1)%Z, replicate (Z.to_nat (pf_cluster_count pf)) zero_hyp)) as Hf.
  induction Hf as [|e l [t ->] _ IH]; cbn; [reflexivity|].
  now rewrite Hp.
Qed.

End Runs.

(** One step of a proof that a program is silent: descend into the
    program; what remains are facts about single events. *)
Ltac silent_step :=
  match goal with
  | |- silent _ (bind _ _) => apply silent_bind; [| intros ?]
  | |- silent _ (ret _) => apply silent_ret
  | |- silent _ get => apply silent_get
  | |- silent _ (modify _) => apply silent_modify
  | |- silent _ (emit _) => apply silent_emit; try reflexivity
  | |- silent _ return_ => apply silent_return
  | |- silent _ fault => apply silent_fault
  | |- silent _ (deref _) => apply silent_deref
  | |- silent _ (when _ _) => apply silent_when
  | |- silent _ (call_pf _) => apply silent_call_pf
  | |- silent _ (call_fn _) => apply silent_call_fn
  | |- silent _ read_hypotheses =>
      apply silent_read_hypotheses; try reflexivity
  | |- silent _ (match ?x with _ => _ end) => destruct x
  | |- silent _ (let _ := _ in _) => cbv zeta
  end.

Ltac silent_tac := repeat silent_step.

Section RunFacts.
Context `{Extern}.

Lemma silent_savePoseToServer p :
  (forall k v, p (EvSetParam k v) = false) -> silent p savePoseToServer.
Proof. intros Hp. unfold savePoseToServer. silent_tac; apply Hp. Qed.

Lemma silent_publish_cloud p now :
  (forall t f ps, p (EvPublishCloud t f ps) = false) ->
  silent p (publish_cloud now).
Proof. intros Hp. unfold publish_cloud. silent_tac; apply Hp. Qed.

(** The publication stages neither score nor resample. *)
Lemma silent_laser_publish p laser_scan env resampled force_publication :
  p = is_laser_scoring \/ p = is_marker_scoring \/ p = is_resample ->
  silent p (laser_publish laser_scan env resampled force_publication).
Proof.
  intros Hp. unfold laser_publish, save_pose_if_due.
  destruct Hp as [-> | [-> | ->]]; silent_tac;
    apply silent_savePoseToServer; reflexivity.
Qed.

Lemma silent_camera_publish p msg env obs resampled force_publication :
  p = is_laser_scoring \/ p = is_marker_scoring \/ p = is_resample ->
  silent p (camera_publish msg env obs resampled force_publication).
Proof.
  intros Hp. unfold camera_publish, save_pose_if_due.
  destruct Hp as [-> | [-> | ->]]; silent_tac;
    apply silent_savePoseToServer; reflexivity.
Qed.

Lemma moved_or_force st st' pose last force :
  d_thresh_ st' = d_thresh_ st -> a_thresh_ st' = a_thresh_ st ->
  moved st' (pose_delta pose last) || force = true <->
  gate_open st pose last force.
Proof.
  intros Hd Ha. unfold moved, gate_open, pose_delta; cbn. rewrite Hd, Ha.
  rewrite !orb_true_iff, !bool_decide_eq_true. tauto.
Qed.

End RunFacts.

(** Evaluation of the monad and of the member accesses, and nothing else *)
Ltac run_node :=
  repeat progress (cbn [negb orb andb];
  cbv beta iota zeta delta [bind ret get modify emit return_ fault deref when
    call_pf
    sent_first_transform_ latest_tf_ latest_tf_valid_ free_space_indices
    latest_odom_pose_scan latest_odom_pose_camera latest_odom_pose_
    odom_frame_id_ base_frame_id_ global_frame_id_ use_map_topic_
    first_map_only_ save_pose_last_time save_pose_period last_published_pose
    map_ lasers_ lasers_update_ frame_to_laser_ pf_ pf_err_ pf_z_ pf_init_
    pf_odom_pose_ d_thresh_ a_thresh_ resample_interval_ resample_count_cam
    resample_count_scan laser_min_range_ laser_max_range_ m_force_update_cam
    m_force_update_scan updated_scan updated_camera pf_init_scan pf_init_cam
    odom_ laser_ marker_ transform_tolerance_ initial_pose_hyp_
    first_map_received_ first_reconfigure_call_ max_beams_ min_particles_
    max_particles_ alpha1_ alpha2_ alpha3_ alpha4_ alpha5_ alpha_slow_
    alpha_fast_ z_hit_ z_short_ z_max_ z_rand_ sigma_hit_ lambda_short_
    do_beamskip_ beam_skip_distance_ beam_skip_threshold_
    beam_skip_error_threshold_ laser_likelihood_max_dist_ odom_model_type_
    init_pose_ init_cov_ laser_model_type_ marker_model_type_ tf_broadcast_
    last_laser_received_ts_ marker_update num_cam image_width image_height
    frame_to_camera_ marker_z_hit marker_z_rand marker_sigma_hit
    marker_landa marker_coeff laser_coeff simulation pose_ini
    default_config_ set_sent_first_transform_ set_latest_tf_
    set_latest_tf_valid_ set_free_space_indices set_latest_odom_pose_scan
    set_latest_odom_pose_camera set_latest_odom_pose_ set_odom_frame_id_
    set_base_frame_id_ set_global_frame_id_ set_use_map_topic_
    set_first_map_only_ set_save_pose_last_time set_save_pose_period
    set_last_published_pose set_map_ set_lasers_ set_lasers_update_
    set_frame_to_laser_ set_pf_ set_pf_err_ set_pf_z_ set_pf_init_
    set_pf_odom_pose_ set_d_thresh_ set_a_thresh_ set_resample_interval_
    set_resample_count_cam set_resample_count_scan set_laser_min_range_
    set_laser_max_range_ set_m_force_update_cam set_m_force_update_scan
    set_updated_scan set_updated_camera set_pf_init_scan set_pf_init_cam
    set_odom_ set_laser_ set_marker_ set_transform_tolerance_
    set_initial_pose_hyp_ set_first_map_received_
    set_first_reconfigure_call_ set_max_beams_ set_min_particles_
    set_max_particles_ set_alpha1_ set_alpha2_ set_alpha3_ set_alpha4_
    set_alpha5_ set_alpha_slow_ set_alpha_fast_ set_z_hit_ set_z_short_
    set_z_max_ set_z_rand_ set_sigma_hit_ set_lambda_short_ set_do_beamskip_
    set_beam_skip_distance_ set_beam_skip_threshold_
    set_beam_skip_error_threshold_ set_laser_likelihood_max_dist_
    set_odom_model_type_ set_init_pose_ set_init_cov_ set_laser_model_type_
    set_marker_model_type_ set_tf_broadcast_ set_last_laser_received_ts_
    set_marker_update set_num_cam set_image_width set_image_height
    set_frame_to_camera_ set_marker_z_hit set_marker_z_rand
    set_marker_sigma_hit set_marker_landa set_marker_coeff set_laser_coeff
    set_simulation set_pose_ini set_default_config_]).

(** The same, down to the outcome, the final state and the trace *)
Ltac run_phase :=
  repeat progress
    (run_node;
     cbv beta iota zeta delta [prepend result final trace fst snd app]).

Section Phases.
Context `{Extern}.

Lemma prepend_prepend {A} t1 t2 (r : outcome A * node * list event) :
  prepend t1 (prepend t2 r) = prepend (t1 ++ t2) r.
Proof. unfold prepend, result, final, trace; cbn. now rewrite app_assoc. Qed.

(** *** The steps of [detectionCallback] before the update block *)

Lemma getOdomPose_run tfp s :
  getOdomPose (Some tfp) s =
    (Normal (Some (pose_of tfp)), set_latest_odom_pose_ tfp s, []).
Proof. reflexivity. Qed.

Lemma camera_setup_run msg s mk :
  marker_ s = Some mk ->
  camera_setup msg s =
    (Normal tt,
     set_marker_
       (Some (mk_marker (am_setting mk) (am_model_type mk) (am_num_cam mk)
                (image_width s) (image_height s) (simulation s)))
       (set_frame_to_camera_ (det_frame_id msg) (set_marker_update true s)),
     []).
Proof.
  intros Hmk. unfold camera_setup. destruct s; cbn in Hmk; subst. reflexivity.
Qed.

Lemma camera_gate_run pose s :
  pf_init_cam s = true ->
  camera_gate pose s =
    (Normal (pose_delta pose (pf_odom_pose_ s)),
     (if moved s (pose_delta pose (latest_odom_pose_camera s))
         || m_force_update_cam s
      then set_marker_update true (set_m_force_update_cam false s)
      else set_m_force_update_cam false s),
     []).
Proof.
  intros Hi. unfold camera_gate. destruct s; cbn in Hi; subst.
  run_phase. destruct (moved _ _ || _); reflexivity.
Qed.

Lemma camera_gate_uninit_run pose s :
  pf_init_cam s = false ->
  camera_gate pose s = (Normal pf_vector_zero, s, []).
Proof.
  intros Hi. unfold camera_gate. destruct s; cbn in Hi; subst. reflexivity.
Qed.

Lemma camera_motion_run pose delta s od pf :
  pf_init_cam s = true -> odom_ s = Some od -> pf_ s = Some pf ->
  camera_motion pose delta s =
    (Normal false,
     (if marker_update s
      then set_pf_ (Some (odom_UpdateAction od pf pose delta)) s else s),
     (if marker_update s then [EvOdomUpdateAction pose delta] else [])).
Proof.
  intros Hi Hod Hpf. unfold camera_motion.
  destruct s; cbn in Hi, Hod, Hpf; subst.
  run_phase. destruct marker_update0; reflexivity.
Qed.

Lemma camera_motion_uninit_run pose delta s :
  pf_init_cam s = false ->
  camera_motion pose delta s =
    (Normal true,
     set_resample_count_cam 0
       (set_marker_update true
          (set_pf_init_cam true
             (set_latest_odom_pose_camera pose (set_pf_odom_pose_ pose s)))),
     []).
Proof.
  intros Hi. unfold camera_motion. destruct s; cbn in Hi; subst. reflexivity.
Qed.

(** *** The update block of [detectionCallback] *)

Lemma camera_update_scoring env obs pose s mk pf :
  marker_ s = Some mk -> pf_ s = Some pf ->
  occurs is_marker_scoring (camera_update env obs pose s)
  = negb (bool_decide (obs = [])).
Proof.
  intros Hmk Hpf. unfold occurs, camera_update, publish_cloud.
  destruct s; cbn in Hmk, Hpf; subst.
  destruct (bool_decide (obs = [])); run_phase.
  all: destruct (decide (in_int _)); run_phase; try reflexivity.
  all: destruct (decide (_ = 0)%Z); run_phase; try reflexivity.
  all: destruct (bool_decide (Z.rem _ _ = 0)%Z); run_phase.
  all: destruct m_force_update_cam0; run_phase; reflexivity.
Qed.

Lemma camera_update_resample env obs pose s mk pf :
  marker_ s = Some mk -> pf_ s = Some pf ->
  in_int (resample_count_cam s + 1) -> resample_interval_ s ≠ 0%Z ->
  result (camera_update env obs pose s) = Normal true /\
  occurs is_resample (camera_update env obs pose s)
  = bool_decide (Z.rem (resample_count_cam s + 1) (resample_interval_ s) = 0)%Z /\
  resample_count_cam (final (camera_update env obs pose s))
  = (resample_count_cam s + 1)%Z.
Proof.
  intros Hmk Hpf Hint Hival. unfold occurs, camera_update, publish_cloud.
  destruct s; cbn in Hmk, Hpf, Hint, Hival; subst.
  destruct (bool_decide (obs = [])); run_phase.
  all: destruct (decide (in_int _)); [|contradiction]; run_phase.
  all: destruct (decide (_ = 0)%Z); [contradiction|]; run_phase.
  all: destruct (bool_decide (Z.rem _ _ = 0)%Z); run_phase.
  all: destruct m_force_update_cam0; run_phase; auto.
Qed.

Lemma camera_update_keeps env obs pose s mk pf :
  marker_ s = Some mk -> pf_ s = Some pf ->
  in_int (resample_count_cam s + 1) -> resample_interval_ s ≠ 0%Z ->
  result (camera_update env obs pose s) = Normal true /\
  is_Some (pf_ (final (camera_update env obs pose s))) /\
  same_broadcast_settings s (final (camera_update env obs pose s)).
Proof.
  intros Hmk Hpf Hint Hival.
  unfold camera_update, publish_cloud, same_broadcast_settings.
  destruct s; cbn in Hmk, Hpf, Hint, Hival; subst.
  destruct (bool_decide (obs = [])); run_phase.
  all: destruct (decide (in_int _)); [|contradiction]; run_phase.
  all: destruct (decide (_ = 0)%Z); [contradiction|]; run_phase.
  all: destruct (bool_decide (Z.rem _ _ = 0)%Z); run_phase.
  all: destruct m_force_update_cam0; run_phase; eauto 10.
Qed.

(** *** [detectionCallback] up to the update block *)

Lemma detection_prefix_run st msg env m tfp pf od mk :
  map_ st = Some m -> pf_init_cam st = true -> de_odom_pose env = Some tfp ->
  pf_ st = Some pf -> odom_ st = Some od -> marker_ st = Some mk ->
  exists st3 t0,
    detectionCallback msg env st =
      prepend t0 (camera_score_and_publish msg env (observation_of msg)
                    (pose_of tfp) false st3)
    /\ Forall (λ e, exists p d, e = EvOdomUpdateAction p d) t0
    /\ marker_update st3 = camera_due st msg (pose_of tfp)
    /\ is_Some (marker_ st3) /\ is_Some (pf_ st3)
    /\ resample_count_cam st3 = resample_count_cam st
    /\ resample_interval_ st3 = resample_interval_ st
    /\ same_broadcast_settings st st3.
Proof.
  intros Hmap Hinit Hodom Hpf Hod Hmk.
  unfold detectionCallback, camera_due, same_broadcast_settings. rewrite Hodom.
  erewrite bind_run by reflexivity. cbv beta. rewrite Hmap, prepend_nil.
  destruct st; cbn in Hmap, Hinit, Hpf, Hod, Hmk; subst.
  cbn [frame_to_camera_ marker_update latest_odom_pose_camera
       m_force_update_cam resample_count_cam resample_interval_].
  destruct (bool_decide (frame_to_camera_0 = det_frame_id msg));
    cbn [negb when].
  - erewrite bind_run by reflexivity. cbv beta.
    erewrite bind_run by apply getOdomPose_run. cbv beta iota.
    erewrite bind_run by (apply camera_gate_run; reflexivity). cbv beta.
    erewrite bind_run by
      (eapply camera_motion_run; destruct (moved _ _ || _); reflexivity).
    rewrite !prepend_prepend.
    eexists; eexists; split; [reflexivity|].
    unfold moved. run_node.
    destruct (_ || _ || _ || m_force_update_cam0), marker_update0; run_node;
      repeat split; eauto; repeat constructor; eauto.
  - erewrite bind_run by (apply camera_setup_run; reflexivity). cbv beta.
    erewrite bind_run by apply getOdomPose_run. cbv beta iota.
    erewrite bind_run by (apply camera_gate_run; reflexivity). cbv beta.
    erewrite bind_run by
      (eapply camera_motion_run; destruct (moved _ _ || _); reflexivity).
    rewrite !prepend_prepend.
    eexists; eexists; split; [reflexivity|].
    unfold moved. run_node.
    destruct (_ || _ || _ || m_force_update_cam0); run_node;
      repeat split; eauto; repeat constructor; eauto.
Qed.

Lemma silent_camera_tail p msg env obs resampled force_publication :
  p = is_laser_scoring \/ p = is_marker_scoring \/ p = is_resample ->
  silent p (camera_publish msg env obs resampled force_publication;;;
            emit EvPublishPaths).
Proof.
  intros Hp. apply silent_bind; [now apply silent_camera_publish|intros _].
  destruct Hp as [-> | [-> | ->]]; now apply silent_emit.
Qed.

(** In the rest of the callback only the update block scores or
    resamples. *)
Lemma camera_tail_occurs p msg env obs pose force_publication s :
  p = is_marker_scoring \/ p = is_resample ->
  occurs p (camera_score_and_publish msg env obs pose force_publication s)
  = marker_update s && occurs p (camera_update env obs pose s).
Proof.
  intros Hp. unfold camera_score_and_publish.
  rewrite occurs_bind. cbn [get occurs trace result final existsb orb fst snd].
  rewrite occurs_bind.
  assert (Hs : forall r f s', occurs p
            ((camera_publish msg env obs r f;;; emit EvPublishPaths) s') = false).
  { intros r f s'. apply silent_camera_tail. tauto. }
  destruct (marker_update s); cbn [andb].
  - destruct (result (camera_update env obs pose s)); rewrite ?Hs;
      now rewrite orb_false_r.
  - cbn [ret occurs trace result final existsb orb fst snd]. apply Hs.
Qed.

Lemma existsb_odom_actions p t :
  (forall a d, p (EvOdomUpdateAction a d) = false) ->
  Forall (λ e, exists a d, e = EvOdomUpdateAction a d) t ->
  existsb p t = false.
Proof.
  intros Hp Ht. induction Ht as [|e l (a & d & ->) _ IH]; cbn; [reflexivity|].
  now rewrite Hp.
Qed.

Lemma observation_of_nil msg : observation_of msg = [] <-> DetectedMarkers msg = [].
Proof.
  unfold observation_of. destruct (DetectedMarkers msg); cbn; split; congruence.
Qed.

Lemma camera_due_iff st msg pose :
  camera_due st msg pose = true <->
  gate_open st pose (latest_odom_pose_camera st) (m_force_update_cam st)
  \/ marker_update st = true
  \/ frame_to_camera_ st ≠ det_frame_id msg.
Proof.
  unfold camera_due. rewrite orb_true_iff.
  rewrite (moved_or_force st st) by reflexivity.
  destruct (bool_decide (frame_to_camera_ st = det_frame_id msg)) eqn:Hf.
  - apply bool_decide_eq_true in Hf. tauto.
  - apply bool_decide_eq_false in Hf. tauto.
Qed.

(** The camera half of the gate: which detection messages are scored *)
Lemma camera_scoring_iff st msg env m tfp pf od mk :
  map_ st = Some m -> pf_init_cam st = true -> de_odom_pose env = Some tfp ->
  pf_ st = Some pf -> odom_ st = Some od -> marker_ st = Some mk ->
  occurs is_marker_scoring (detectionCallback msg env st) = true <->
  (gate_open st (pose_of tfp) (latest_odom_pose_camera st)
     (m_force_update_cam st)
   \/ marker_update st = true
   \/ frame_to_camera_ st ≠ det_frame_id msg)
  /\ DetectedMarkers msg ≠ [].
Proof.
  intros Hmap Hinit Hodom Hpf Hod Hmk.
  destruct (detection_prefix_run st msg env m tfp pf od mk)
    as (st3 & t0 & -> & Ht0 & Hdue & [mk3 Hmk3] & [pf3 Hpf3] & _); auto.
  rewrite occurs_prepend, (existsb_odom_actions _ _ (λ _ _, eq_refl) Ht0).
  rewrite camera_tail_occurs by tauto.
  rewrite (camera_update_scoring _ _ _ _ _ _ Hmk3 Hpf3), Hdue. cbn [orb].
  rewrite andb_true_iff, camera_due_iff, negb_true_iff, bool_decide_eq_false.
  now rewrite observation_of_nil.
Qed.


(** *** The steps of [laserReceived] *)

Lemma laser_flag_all_true s s' laser_index flag :
  laser_flag s laser_index = Some flag ->
  lasers_update_ s' = all_true (lasers_update_ s) ->
  laser_flag s' laser_index = Some true.
Proof.
  unfold laser_flag, all_true. intros Hf ->.
  destruct (decide (0 <= laser_index)%Z); [|discriminate].
  now rewrite list_lookup_fmap, Hf.
Qed.

Lemma register_laser_known_run laser_scan env s laser_index :
  frame_to_laser_ s !! scan_frame_id laser_scan = Some laser_index ->
  register_laser laser_scan env s = (Normal laser_index, s, []).
Proof.
  intros Hf. unfold register_laser.
  erewrite bind_run by reflexivity. cbv beta. now rewrite Hf.
Qed.

Lemma laser_gate_run pose s :
  pf_init_scan s = true ->
  laser_gate pose s =
    (Normal (pose_delta pose (pf_odom_pose_ s)),
     (if moved s (pose_delta pose (latest_odom_pose_scan s))
         || m_force_update_scan s
      then set_lasers_update_ (all_true (lasers_update_ s))
             (set_m_force_update_scan false s)
      else set_m_force_update_scan false s),
     []).
Proof.
  intros Hi. unfold laser_gate. destruct s; cbn in Hi; subst.
  run_phase. destruct (moved _ _ || _); reflexivity.
Qed.

Lemma laser_motion_run pose delta laser_index s flag od pf :
  pf_init_scan s = true -> laser_flag s laser_index = Some flag ->
  odom_ s = Some od -> pf_ s = Some pf ->
  laser_motion pose delta laser_index s =
    (Normal false,
     (if flag
      then set_pf_ (Some (odom_UpdateAction od pf pose delta)) s else s),
     (if flag then [EvOdomUpdateAction pose delta] else [])).
Proof.
  intros Hi Hf Hod Hpf. unfold laser_motion.
  erewrite bind_run by reflexivity. cbv beta. rewrite Hi, Hf, prepend_nil.
  cbn [negb deref]. destruct s; cbn in Hod, Hpf; subst.
  destruct flag; reflexivity.
Qed.

(** *** The update block of [laserReceived] *)


(** The block scores if and only if it resamples, and it ends with
    [resampled = true]. *)
Lemma laser_update_facts laser_scan env pose laser_index s :
  occurs is_resample (laser_update laser_scan env pose laser_index s)
  = occurs is_laser_scoring (laser_update laser_scan env pose laser_index s)
  /\ (forall b, result (laser_update laser_scan env pose laser_index s) = Normal b
                -> b = true)
  /\ (forall sensor pf, laser_at s laser_index = Some sensor -> pf_ s = Some pf ->
        occurs is_laser_scoring (laser_update laser_scan env pose laser_index s)
        = bool_decide (is_Some (le_scan_angles env))).
Proof.
  unfold occurs, laser_update, publish_cloud.
  erewrite bind_run by reflexivity. cbv beta. rewrite prepend_nil.
  destruct (laser_at s laser_index) as [sensor|]; cbn [deref].
  2: { repeat split; try discriminate. }
  erewrite bind_run by reflexivity. cbv beta. rewrite prepend_nil.
  destruct (le_scan_angles env) as [[yaw_min yaw_inc]|].
  2: { repeat split; try discriminate. }
  cbv zeta. generalize (scan_range_max s laser_scan) as rmax.
  generalize (scan_range_min s laser_scan) as rmin. intros rmin rmax.
  destruct s. destruct pf_0 as [pf|], m_force_update_scan0; run_phase.
  all: repeat split; try reflexivity; intros; congruence.
Qed.

(** *** [laserReceived] up to the update block *)

Lemma laser_prefix_run st laser_scan env m tfp pf od sensor laser_index pending :
  map_ st = Some m -> pf_init_scan st = true ->
  frame_to_laser_ st !! scan_frame_id laser_scan = Some laser_index ->
  laser_flag st laser_index = Some pending ->
  laser_at st laser_index = Some sensor ->
  le_odom_pose env = Some tfp ->
  pf_ st = Some pf -> odom_ st = Some od ->
  exists st3 t0,
    laserReceived laser_scan env st =
      prepend t0 (laser_score_and_publish laser_scan env (pose_of tfp)
                    laser_index false st3)
    /\ Forall (λ e, exists p d, e = EvOdomUpdateAction p d) t0
    /\ laser_flag st3 laser_index =
         Some (pending
               || (moved st (pose_delta (pose_of tfp) (latest_odom_pose_scan st))
                   || m_force_update_scan st))
    /\ is_Some (laser_at st3 laser_index) /\ is_Some (pf_ st3).
Proof.
  intros Hmap Hinit Hframe Hflag Hsensor Hodom Hpf Hod.
  unfold laserReceived. rewrite Hodom.
  erewrite bind_run by reflexivity. cbv beta.
  erewrite bind_run by reflexivity. cbv beta. rewrite !prepend_nil.
  set (up := moved st (pose_delta (pose_of tfp) (latest_odom_pose_scan st))
             || m_force_update_scan st).
  destruct st; cbn in Hmap, Hinit, Hframe, Hpf, Hod; subst.
  cbn [map_ set_last_laser_received_ts_].
  erewrite bind_run by (apply register_laser_known_run; exact Hframe).
  cbv beta.
  erewrite bind_run by apply getOdomPose_run. cbv beta iota.
  erewrite bind_run by (apply laser_gate_run; reflexivity). cbv beta.
  change (moved _ _ || m_force_update_scan _) with up.
  clearbody up. destruct up.
  - erewrite bind_run by
      (eapply laser_motion_run;
       [reflexivity
       |eapply laser_flag_all_true; [exact Hflag|reflexivity]
       |reflexivity|reflexivity]).
    rewrite !prepend_prepend.
    eexists; eexists; split; [reflexivity|].
    rewrite orb_true_r.
    split; [repeat constructor; eauto|].
    split; [eapply laser_flag_all_true; [exact Hflag|reflexivity]|].
    split; [exists sensor; exact Hsensor|eexists; reflexivity].
  - erewrite bind_run by
      (eapply laser_motion_run; [reflexivity|exact Hflag|reflexivity|reflexivity]).
    rewrite !prepend_prepend.
    eexists; eexists; split; [reflexivity|].
    rewrite orb_false_r.
    split; [destruct pending; repeat constructor; eauto|].
    split; [destruct pending; exact Hflag|].
    split; [exists sensor; destruct pending; exact Hsensor
           |destruct pending; eexists; reflexivity].
Qed.

Lemma silent_laser_tail p laser_scan env resampled force_publication :
  p = is_laser_scoring \/ p = is_marker_scoring \/ p = is_resample ->
  silent p (laser_publish laser_scan env resampled force_publication;;;
            emit EvPublishPaths).
Proof.
  intros Hp. apply silent_bind; [now apply silent_laser_publish|intros _].
  destruct Hp as [-> | [-> | ->]]; now apply silent_emit.
Qed.

Lemma laser_tail_occurs p laser_scan env pose laser_index force_publication s :
  p = is_laser_scoring \/ p = is_resample ->
  occurs p (laser_score_and_publish laser_scan env pose laser_index
              force_publication s)
  = match laser_flag s laser_index with
    | Some true => occurs p (laser_update laser_scan env pose laser_index s)
    | _ => false
    end.
Proof.
  intros Hp. unfold laser_score_and_publish.
  rewrite occurs_bind. cbn [get occurs trace result final existsb orb fst snd].
  assert (Hs : forall r f s', occurs p
            ((laser_publish laser_scan env r f;;; emit EvPublishPaths) s') = false).
  { intros r f s'. apply silent_laser_tail. tauto. }
  rewrite occurs_bind.
  destruct (laser_flag s laser_index) as [[|]|];
    cbn [deref ret fault occurs trace result final existsb orb fst snd];
    try reflexivity.
  - rewrite occurs_bind.
    destruct (result (laser_update laser_scan env pose laser_index s));
      rewrite ?Hs; now rewrite orb_false_r.
  - rewrite occurs_bind.
    cbn [ret occurs trace result final existsb orb fst snd]. apply Hs.
Qed.

(** The laser half of the gate: which scans are scored *)
Lemma laser_scoring_iff st laser_scan env m tfp pf od sensor laser_index pending :
  map_ st = Some m -> pf_init_scan st = true ->
  frame_to_laser_ st !! scan_frame_id laser_scan = Some laser_index ->
  laser_flag st laser_index = Some pending ->
  laser_at st laser_index = Some sensor ->
  le_odom_pose env = Some tfp ->
  pf_ st = Some pf -> odom_ st = Some od ->
  occurs is_laser_scoring (laserReceived laser_scan env st) = true <->
  (gate_open st (pose_of tfp) (latest_odom_pose_scan st)
     (m_force_update_scan st)
   \/ pending = true)
  /\ is_Some (le_scan_angles env).
Proof.
  intros Hmap Hinit Hframe Hflag Hsensor Hodom Hpf Hod.
  destruct (laser_prefix_run st laser_scan env m tfp pf od sensor laser_index
              pending)
    as (st3 & t0 & -> & Ht0 & Hfl & [s3 Hs3] & [pf3 Hpf3]); auto.
  rewrite occurs_prepend, (existsb_odom_actions _ _ (λ _ _, eq_refl) Ht0).
  rewrite laser_tail_occurs by tauto. rewrite Hfl. cbn [orb].
  rewrite <- (moved_or_force st st) by reflexivity.
  destruct (laser_update_facts laser_scan env (pose_of tfp) laser_index st3)
    as (_ & _ & Hsc).
  rewrite (Hsc _ _ Hs3 Hpf3).
  destruct pending, (moved _ _ || _); cbn [orb];
    rewrite ?bool_decide_eq_true; intuition discriminate.
Qed.

End Phases.

(** ** Invariants along a run *)

Section Maintains.
Context `{Extern}.
Variable I : node -> Prop.
Variable good : event -> Prop.

Lemma maintains_bind {A B} (m : M A) (k : A -> M B) :
  maintains I good m -> (forall a, maintains I good (k a)) ->
  maintains I good (bind m k).
Proof.
  intros Hm Hk s Hs. destruct (Hm s Hs) as [HI Ht].
  unfold bind, final, trace in *.
  destruct (m s) as [[[a| |] s1] t1]; cbn in *; auto.
  destruct (Hk a s1 HI) as [HI2 Ht2]. unfold final, trace in *.
  split; [exact HI2|]. apply Forall_app; auto.
Qed.

Lemma maintains_ret {A} (a : A) : maintains I good (ret a).
Proof. intros s Hs. split; [exact Hs|constructor]. Qed.

Lemma maintains_get : maintains I good get.
Proof. intros s Hs. split; [exact Hs|constructor]. Qed.

Lemma maintains_return {A} : maintains I good (@return_ _ A).
Proof. intros s Hs. split; [exact Hs|constructor]. Qed.

Lemma maintains_fault {A} : maintains I good (@fault _ A).
Proof. intros s Hs. split; [exact Hs|constructor]. Qed.

Lemma maintains_modify f :
  (forall s, I s -> I (f s)) -> maintains I good (modify f).
Proof. intros Hf s Hs. split; [now apply Hf|constructor]. Qed.

Lemma maintains_emit e : good e -> maintains I good (emit e).
Proof. intros He s Hs. split; [exact Hs|]. now repeat constructor. Qed.

Lemma maintains_deref {A} (o : option A) : maintains I good (deref o).
Proof. destruct o; [apply maintains_ret|apply maintains_fault]. Qed.

Lemma maintains_when b m : maintains I good m -> maintains I good (when b m).
Proof. destruct b; cbn; auto using maintains_ret. Qed.

Lemma maintains_call_fn m : maintains I good m -> maintains I good (call_fn m).
Proof.
  intros Hm s Hs. destruct (Hm s Hs) as [HI Ht].
  unfold call_fn, final, trace in *.
  destruct (m s) as [[[a| |] s1] t1]; cbn in *; auto.
Qed.

Lemma maintains_call_pf f :
  (forall s v, I s -> I (set_pf_ v s)) -> maintains I good (call_pf f).
Proof.
  intros Hf. unfold call_pf.
  apply maintains_bind; [apply maintains_get|intros st].
  apply maintains_bind; [apply maintains_deref|intros pf].
  apply maintains_modify. intros s. apply Hf.
Qed.

Lemma maintains_read_hypotheses :
  (forall t, good (EvLog ERROR t)) -> maintains I good read_hypotheses.
Proof.
  intros Hg. unfold read_hypotheses.
  apply maintains_bind; [apply maintains_get|intros st].
  apply maintains_bind; [apply maintains_deref|intros pf].
  intros s Hs. split; [exact Hs|]. unfold trace; cbn.
  eapply Forall_impl; [apply read_hyps_trace|].
  intros e [t ->]. apply Hg.
Qed.

(** The continuation of a read of the state may use the invariant of the
    state read, and the one of a dereference that the value is there. *)
Lemma maintains_bind_get {B} (k : node -> M B) :
  (forall st, I st -> maintains I good (k st)) ->
  maintains I good (bind get k).
Proof.
  intros Hk s Hs. destruct (Hk s Hs s Hs) as [HI Ht].
  unfold bind, get, prepend, final, trace, result in *. cbn in *.
  destruct (k s s) as [[o s1] t1]. cbn in *. auto.
Qed.


End Maintains.

(** One step of a proof that a program maintains an invariant *)
Ltac maintains_step :=
  match goal with
  | |- maintains _ _ (bind _ _) => apply maintains_bind; [| intros ?]
  | |- maintains _ _ (ret _) => apply maintains_ret
  | |- maintains _ _ get => apply maintains_get
  | |- maintains _ _ (modify _) =>
      apply maintains_modify; try (intros ? Hinv; exact Hinv)
  | |- maintains _ _ (emit _) => apply maintains_emit; try exact Logic.I
  | |- maintains _ _ return_ => apply maintains_return
  | |- maintains _ _ fault => apply maintains_fault
  | |- maintains _ _ (deref _) => apply maintains_deref
  | |- maintains _ _ (when _ _) => apply maintains_when
  | |- maintains _ _ (call_pf _) =>
      apply maintains_call_pf; try (intros ? ? Hinv; exact Hinv)
  | |- maintains _ _ (call_fn _) => apply maintains_call_fn
  | |- maintains _ _ read_hypotheses =>
      apply maintains_read_hypotheses; try (intros; exact Logic.I)
  | |- maintains _ _ (match ?x with _ => _ end) => destruct x
  | |- maintains _ _ (let _ := _ in _) => cbv zeta
  end.

Ltac maintains_tac := repeat maintains_step.


(** ** The two fusion coefficients *)

Section Coefficients.
Context `{Extern}.
Variables c1 c2 : R.

Lemma coeffs_savePoseToServer : maintains (coeffs_are c1 c2) any_event savePoseToServer.
Proof. unfold savePoseToServer. maintains_tac. Qed.

Lemma coeffs_laserReceived laser_scan env :
  maintains (coeffs_are c1 c2) any_event (laserReceived laser_scan env).
Proof.
  unfold laserReceived, register_laser, getOdomPose, laser_gate, laser_motion,
    laser_score_and_publish, laser_update, laser_publish, save_pose_if_due,
    publish_cloud.
  maintains_tac; apply coeffs_savePoseToServer.
Qed.

Lemma coeffs_detectionCallback msg env :
  maintains (coeffs_are c1 c2) any_event (detectionCallback msg env).
Proof.
  unfold detectionCallback, camera_setup, getOdomPose, camera_gate,
    camera_motion, camera_score_and_publish, camera_update, camera_publish,
    save_pose_if_due, publish_cloud.
  maintains_tac; apply coeffs_savePoseToServer.
Qed.

Lemma coeffs_applyInitialPose : maintains (coeffs_are c1 c2) any_event applyInitialPose.
Proof. unfold applyInitialPose. maintains_tac. Qed.

Lemma coeffs_handleMapMessage msg ps :
  maintains (coeffs_are c1 c2) any_event (handleMapMessage msg ps).
Proof.
  unfold handleMapMessage, freeMapDependentMemory, updatePoseFromServer,
    instantiate_odom, instantiate_laser, instantiate_marker.
  maintains_tac; apply coeffs_applyInitialPose.
Qed.

Lemma coeffs_handleInitialPoseMessage msg env :
  maintains (coeffs_are c1 c2) any_event (handleInitialPoseMessage msg env).
Proof.
  unfold handleInitialPoseMessage. maintains_tac; apply coeffs_applyInitialPose.
Qed.

Lemma coeffs_reconfigureCB config :
  maintains (coeffs_are c1 c2) any_event (reconfigureCB config).
Proof.
  unfold reconfigureCB, instantiate_odom, instantiate_laser, instantiate_marker.
  maintains_tac.
Qed.

Lemma coeffs_handle i : maintains (coeffs_are c1 c2) any_event (handle i).
Proof.
  destruct i; unfold handle.
  - apply coeffs_laserReceived.
  - apply coeffs_detectionCallback.
  - apply coeffs_handleInitialPoseMessage.
  - unfold mapReceived. maintains_tac. apply coeffs_handleMapMessage.
  - unfold globalLocalizationCallback. maintains_tac.
  - unfold nomotionUpdateCallback. maintains_tac.
  - unfold setMapCallback. maintains_tac.
    + apply coeffs_handleMapMessage.
    + apply coeffs_handleInitialPoseMessage.
  - apply coeffs_reconfigureCB.
Qed.

End Coefficients.

(** *** The coefficients that the sensor objects hold *)

Section Weights.
Context `{Extern}.
Variables c1 c2 : R.
















End Weights.

Section WeightsOfNode.
Context `{Extern}.



End WeightsOfNode.

Section CoefficientsOfNode.
Context `{Extern}.

(** The constructor reads both coefficients from the parameter
    [camera_coeff] with the default 0.5, and nothing after that assigns
    either. *)
Lemma coeffs_ctor ps map config memory :
  coeffs_are (param_double ps "camera_coeff" 0.5)
             (param_double ps "camera_coeff" 0.5)
             (final (AmclNode_ctor ps map config memory)).
Proof.
  unfold AmclNode_ctor.
  do 20 (erewrite bind_run by reflexivity; cbv beta).
  rewrite !final_prepend.
  match goal with
  | |- coeffs_are ?a ?b (final (?m ?s)) =>
      assert (Hm : maintains (coeffs_are a b) any_event m)
  end.
  { unfold updatePoseFromServer, requestMap. maintains_tac.
    - apply coeffs_handleMapMessage.
    - apply coeffs_reconfigureCB. }
  apply Hm. split; reflexivity.
Qed.

Lemma coeffs_reachable st :
  reachable st ->
  exists ps, coeffs_are (param_double ps "camera_coeff" 0.5)
                        (param_double ps "camera_coeff" 0.5) st.
Proof.
  intros Hst. induction Hst as [memory ps map config|st i _ [ps IH]].
  - exists ps. apply coeffs_ctor.
  - exists ps. now apply coeffs_handle.
Qed.



End CoefficientsOfNode.



(** ** The update gates *)

(** C1, as the code has it.  Once the gate of a sensor is initialized and
    the odometric pose is available: a scan of a registered laser is scored
    if and only if the update test holds (|dx| > d_thresh, |dy| > d_thresh,
    |dyaw| > a_thresh or the laser force flag) or the update flag of that
    laser was still set, and the scan angles can be transformed into the
    base frame; a detection message is scored if and only if the update test
    holds (with the camera force flag), or [marker_update] was still set, or
    the message comes in another camera frame than the last one, and the
    message holds at least one marker.  Otherwise scoring is skipped. *)
Theorem sensor_scoring_gate `{Extern} :
  (forall st laser_scan env m tfp pf od sensor laser_index pending,
     map_ st = Some m -> pf_init_scan st = true ->
     frame_to_laser_ st !! scan_frame_id laser_scan = Some laser_index ->
     laser_flag st laser_index = Some pending ->
     laser_at st laser_index = Some sensor ->
     le_odom_pose env = Some tfp ->
     pf_ st = Some pf -> odom_ st = Some od ->
     occurs is_laser_scoring (laserReceived laser_scan env st) = true <->
     (gate_open st (pose_of tfp) (latest_odom_pose_scan st)
        (m_force_update_scan st)
      \/ pending = true)
     /\ is_Some (le_scan_angles env)) /\
  (forall st msg env m tfp pf od mk,
     map_ st = Some m -> pf_init_cam st = true ->
     de_odom_pose env = Some tfp ->
     pf_ st = Some pf -> odom_ st = Some od -> marker_ st = Some mk ->
     occurs is_marker_scoring (detectionCallback msg env st) = true <->
     (gate_open st (pose_of tfp) (latest_odom_pose_camera st)
        (m_force_update_cam st)
      \/ marker_update st = true
      \/ frame_to_camera_ st ≠ det_frame_id msg)
     /\ DetectedMarkers msg ≠ []).
Proof.
  split.
  - intros. eapply laser_scoring_iff; eauto.
  - intros. eapply camera_scoring_iff; eauto.
Qed.

(** A detection message with a marker, arriving with the force flag set, is
    scored. *)
Lemma sensor_scoring_gate_witness :
  occurs is_marker_scoring
    (@detectionCallback example_extern example_detection
       example_detection_env example_node) = true.
Proof.
  apply (proj2 (@sensor_scoring_gate example_extern) example_node
           example_detection example_detection_env example_map pf_vector_zero
           0%nat example_odom example_marker
           eq_refl eq_refl eq_refl eq_refl eq_refl eq_refl).
  split.
  - left. right; right; right. reflexivity.
  - discriminate.
Defined.

(** C1 as stated fails: with the force flag set and the gate initialized, a
    detection message that holds no marker is not scored. *)
Lemma update_test_alone_does_not_decide_scoring :
  ~ ((forall (E : Extern) (st : node) laser_scan env m tfp,
        map_ st = Some m -> pf_init_scan st = true ->
        le_odom_pose env = Some tfp ->
        occurs is_laser_scoring (laserReceived laser_scan env st) = true <->
        gate_open st (pose_of tfp) (latest_odom_pose_scan st)
          (m_force_update_scan st)) /\
     (forall (E : Extern) (st : node) msg env m tfp,
        map_ st = Some m -> pf_init_cam st = true ->
        de_odom_pose env = Some tfp ->
        occurs is_marker_scoring (detectionCallback msg env st) = true <->
        gate_open st (pose_of tfp) (latest_odom_pose_camera st)
          (m_force_update_cam st))).
Proof.
  intros [_ Hclaim].
  pose proof (Hclaim example_extern example_node example_no_detection
                example_detection_env example_map pf_vector_zero
                eq_refl eq_refl eq_refl) as [_ Hscore].
  assert (Hopen : @gate_open example_extern example_node
                    (@pose_of example_extern pf_vector_zero)
                    (latest_odom_pose_camera example_node)
                    (m_force_update_cam example_node)).
  { right; right; right. reflexivity. }
  apply Hscore in Hopen.
  apply (@camera_scoring_iff example_extern example_node
           example_no_detection example_detection_env example_map
           pf_vector_zero 0%nat example_odom example_marker
           eq_refl eq_refl eq_refl eq_refl eq_refl eq_refl) in Hopen.
  destruct Hopen as [_ Hne]. now apply Hne.
Qed.

(** ** Resampling *)

Section Resampling.
Context `{Extern}.








End Resampling.



(** ** The map *)

Lemma occ_of_byte_cases (b : Z) :
  (b = 0%Z -> occ_of_byte b = (-1)%Z) /\
  (b = 100%Z -> occ_of_byte b = 1%Z) /\
  (b ≠ 0%Z -> b ≠ 100%Z -> occ_of_byte b = 0%Z).
Proof.
  unfold occ_of_byte.
  destruct (decide (b = 0)%Z), (decide (b = 100)%Z); repeat split; intros;
    subst; try reflexivity; try discriminate; contradiction.
Qed.

Lemma int_of_uint32_small (w : Z) :
  (0 <= w < 2 ^ 31)%Z -> int_of_uint32 w = w.
Proof.
  intros Hw. unfold int_of_uint32. destruct (decide (w < 2 ^ 31)%Z); lia.
Qed.

(** C4: [convertMap] turns the occupancy byte 0 into the cell state -1
    (free), the byte 100 into +1 (occupied) and every other byte into 0
    (unknown), cell by cell, and sets the origin to the message origin plus
    [(size / 2) * resolution] in x and in y, the division being the integer
    division of the source.  It returns a map for every message whose sizes
    fit an [int] and whose data holds a byte for every cell. *)
Theorem convertMap_cells_and_origin (msg : OccupancyGrid) :
  (forall m, convertMap msg = Some m ->
     size_x m = int_of_uint32 (og_width msg) /\
     size_y m = int_of_uint32 (og_height msg) /\
     scale m = og_resolution msg /\
     origin_x m = og_origin_x msg + IZR (size_x m ÷ 2) * scale m /\
     origin_y m = og_origin_y msg + IZR (size_y m ÷ 2) * scale m /\
     length (cells m) = Z.to_nat (size_x m * size_y m) /\
     forall (i : nat) c, cells m !! i = Some c ->
       exists b, og_data msg !! i = Some b /\
         (b = 0%Z -> occ_state c = (-1)%Z) /\
         (b = 100%Z -> occ_state c = 1%Z) /\
         (b ≠ 0%Z -> b ≠ 100%Z -> occ_state c = 0%Z)) /\
  ((0 <= og_width msg < 2 ^ 31)%Z -> (0 <= og_height msg < 2 ^ 31)%Z ->
   (og_width msg * og_height msg < 2 ^ 31)%Z ->
   (Z.to_nat (og_width msg * og_height msg) <= length (og_data msg))%nat ->
   is_Some (convertMap msg)).
Proof.
  split.
  - intros m Hm. unfold convertMap in Hm. cbv zeta in Hm.
    destruct (decide (in_int _)) as [Hint|]; [|discriminate].
    destruct (mapM _ _) as [cs|] eqn:Hcs; [|discriminate].
    cbn in Hm. injection Hm as <-. cbn.
    repeat (split; [reflexivity|]).
    pose proof (length_mapM _ _ _ Hcs) as Hlen. rewrite length_seq in Hlen.
    split; [now symmetry|].
    intros i c Hi. apply mapM_Some_1 in Hcs.
    destruct (Forall2_lookup_r _ _ _ _ _ Hcs Hi) as (j & Hj & Hf).
    apply lookup_seq in Hj as [-> _]. cbn in Hf.
    destruct (og_data msg !! i) as [b|]; [|discriminate].
    cbn in Hf. injection Hf as <-. exists b. split; [reflexivity|].
    cbn. apply occ_of_byte_cases.
  - intros Hw Hh Hwh Hlen. unfold convertMap. cbv zeta.
    rewrite !int_of_uint32_small by assumption.
    destruct (decide (in_int _)) as [_|Hn]; [|exfalso; apply Hn; unfold in_int; nia].
    assert (Hsome : is_Some
              (mapM (λ i, (λ b, mk_cell (occ_of_byte b)) <$> og_data msg !! i)
                 (seq 0 (Z.to_nat (og_width msg * og_height msg))))).
    { apply mapM_is_Some_2, Forall_forall. intros i Hi.
      apply elem_of_seq in Hi. cbn.
      destruct (lookup_lt_is_Some_2 (og_data msg) i) as [b ->]; [lia|].
      now eexists. }
    destruct Hsome as [cs ->]. now eexists.
Qed.

(** A grid of one free cell is converted. *)
Lemma convertMap_cells_and_origin_witness : is_Some (convertMap example_grid).
Proof.
  apply (proj2 (convertMap_cells_and_origin example_grid)); cbn; lia.
Defined.

(** ** The uniform pose generator *)

Section Generator.
Context `{Extern}.

Lemma truncate_bounds (u : R) (n : nat) :
  0 <= u < 1 -> (0 < n)%nat ->
  (0 <= truncate (u * INR n) < Z.of_nat n)%Z.
Proof.
  intros [Hu0 Hu1] Hn.
  assert (Hn' : 0 < INR n) by now apply lt_0_INR.
  assert (Hr : 0 <= u * INR n < INR n) by nra.
  unfold truncate. destruct (decide (0 <= u * INR n)) as [_|]; [|lra].
  destruct (base_Int_part (u * INR n)) as [Hle Hgt].
  split.
  - assert (IZR (-1) < IZR (Int_part (u * INR n))) by (simpl IZR; lra).
    apply lt_IZR in H0. lia.
  - apply lt_IZR. rewrite <- INR_IZR_INZ. lra.
Qed.

Lemma uniformPoseGenerator_some map free u1 u2 :
  free ≠ [] -> 0 <= u1 < 1 ->
  exists ij, ij ∈ free /\
    uniformPoseGenerator map free u1 u2 =
      Some (mk_vec (MAP_WXGX map ij.1) (MAP_WYGY map ij.2) (u2 * 2 * PI - PI)).
Proof.
  intros Hne Hu1. unfold uniformPoseGenerator. cbv zeta.
  assert (Hlen : (0 < length free)%nat) by (destruct free; [contradiction|cbn; lia]).
  pose proof (truncate_bounds u1 (length free) Hu1 Hlen) as Hb.
  destruct (lookup_lt_is_Some_2 free
              (Z.to_nat (truncate (u1 * INR (length free))))) as [ij Hij]; [lia|].
  exists ij. split; [eapply list_elem_of_lookup_2; eauto|].
  now rewrite Hij.
Qed.

Lemma index_free_space_cells m free ij :
  index_free_space m = Some free -> ij ∈ free ->
  exists c, cell_at m (MAP_INDEX m ij.1 ij.2) = Some c /\ occ_state c = (-1)%Z.
Proof.
  unfold index_free_space. intros Hidx Hin.
  destruct (mapM _ _) as [ls|] eqn:Hls; [|discriminate].
  cbn in Hidx. injection Hidx as <-.
  apply list_elem_of_In, in_concat in Hin as (l & Hl & Hin).
  apply list_elem_of_In, list_elem_of_lookup_1 in Hl as [k Hk].
  apply mapM_Some_1 in Hls.
  destruct (Forall2_lookup_r _ _ _ _ _ Hls Hk) as (ij' & _ & Hf).
  cbn in Hf. destruct (cell_at m (MAP_INDEX m ij'.1 ij'.2)) as [c|] eqn:Hc;
    [|discriminate].
  cbn in Hf. injection Hf as <-.
  destruct (decide (occ_state c = -1)%Z) as [Hocc|]; [|now destruct Hin].
  destruct Hin as [->|[]]. now exists c.
Qed.

End Generator.

(** C8, as the code has it: over the free-space index built from the map,
    when it is not empty, the generator returns a pose whose (x, y) are the
    world coordinates of a cell of the index, a cell with [occ_state] -1,
    and whose yaw lies in [-PI, PI). *)
Theorem uniformPoseGenerator_in_free_space `{Extern} map free u1 u2 :
  index_free_space map = Some free -> free ≠ [] ->
  0 <= u1 < 1 -> 0 <= u2 < 1 ->
  exists p i j c,
    uniformPoseGenerator map free u1 u2 = Some p /\
    (i, j) ∈ free /\
    v0 p = MAP_WXGX map i /\ v1 p = MAP_WYGY map j /\
    cell_at map (MAP_INDEX map i j) = Some c /\ occ_state c = (-1)%Z /\
    - PI <= v2 p < PI.
Proof.
  intros Hidx Hne Hu1 Hu2.
  destruct (uniformPoseGenerator_some map free u1 u2 Hne Hu1)
    as ([i j] & Hin & Hgen).
  destruct (index_free_space_cells map free (i, j) Hidx Hin) as (c & Hc & Hocc).
  eexists _, i, j, c. split; [exact Hgen|]. cbn.
  repeat (split; [done|]).
  pose proof PI_RGT_0. nra.
Qed.

(** On the map of one free cell the generator returns the pose of that
    cell. *)
Lemma uniformPoseGenerator_in_free_space_witness :
  exists p i j c,
    @uniformPoseGenerator example_extern example_map [(0, 0)%Z] 0 (1 / 2) = Some p /\
    (i, j) ∈ [(0, 0)%Z] /\
    v0 p = @MAP_WXGX example_extern example_map i /\
    v1 p = @MAP_WYGY example_extern example_map j /\
    cell_at example_map (@MAP_INDEX example_extern example_map i j) = Some c /\
    occ_state c = (-1)%Z /\
    - PI <= v2 p < PI.
Proof.
  apply (@uniformPoseGenerator_in_free_space example_extern example_map
           [(0, 0)%Z] 0 (1 / 2)).
  - reflexivity.
  - discriminate.
  - lra.
  - lra.
Defined.

(** C8 as stated fails: when [drand48] returns 0 for the yaw, the yaw is
    -PI, which is outside (-PI, PI]. *)
Lemma uniformPoseGenerator_yaw_can_be_minus_PI :
  ~ (forall (E : Extern) map free u1 u2 p,
       index_free_space map = Some free -> free ≠ [] ->
       0 <= u1 < 1 -> 0 <= u2 < 1 ->
       uniformPoseGenerator map free u1 u2 = Some p ->
       - PI < v2 p <= PI).
Proof.
  intros Hclaim.
  destruct (@uniformPoseGenerator_some example_extern example_map
              [(0, 0)%Z] 0 0) as (ij & _ & Hgen); [discriminate|lra|].
  specialize (Hclaim example_extern example_map [(0, 0)%Z] 0 0 _
                eq_refl ltac:(discriminate) ltac:(lra) ltac:(lra) Hgen).
  cbn in Hclaim. lra.
Qed.

(** C7, the code at a map without free cells: on the empty index the
    generator reads [free_space_indices[0]] outside the vector, whatever
    [drand48] returns, and there is no error result; the global
    localization service checks only that a map is present and hands the
    generator to [pf_init_model]. *)
Theorem uniformPoseGenerator_on_empty_index `{Extern} :
  (forall map u1 u2, uniformPoseGenerator map [] u1 u2 = None) /\
  (forall st m pf,
     map_ st = Some m -> pf_ st = Some pf ->
     globalLocalizationCallback st =
       (Normal true,
        set_pf_init_cam false
          (set_pf_init_scan false
             (set_pf_init_ false
                (set_pf_
                   (Some (pf_init_model pf
                            (uniformPoseGenerator m (free_space_indices st))))
                   st))),
        [EvLog INFO "Initializing with uniform distribution";
         EvPfInitModel;
         EvLog INFO "Global initialisation done!"])).
Proof.
  split.
  - intros map u1 u2. unfold uniformPoseGenerator. cbv zeta. cbn [length].
    now rewrite lookup_nil.
  - intros st m pf Hmap Hpf. unfold globalLocalizationCallback.
    destruct st; cbn in Hmap, Hpf; subst. reflexivity.
Qed.

(** The service on a node whose map has no free cell *)
Lemma uniformPoseGenerator_on_empty_index_witness :
  result (@globalLocalizationCallback example_extern
            (set_free_space_indices [] example_node)) = Normal true.
Proof.
  now rewrite (proj2 (@uniformPoseGenerator_on_empty_index example_extern)
                 (set_free_space_indices [] example_node) example_map 0%nat
                 eq_refl eq_refl).
Defined.

(** ** The ranges of a scan *)

Section Ranges.
Context `{Extern}.
Variables laser_min laser_max : R.
Variable laser_scan : LaserScan.

Let I := range_limits_are laser_min laser_max.
Let good := ranges_handed_over laser_min laser_max laser_scan.




End Ranges.



(** ** Initial poses *)

Section InitialPoses.
Context `{Extern}.

(** An initial pose without a frame id is accepted: with a map present the
    filter is initialized anew from it. *)
Lemma initial_pose_empty_frame_accepted st msg env m pf :
  ip_frame_id msg = EmptyString -> map_ st = Some m -> pf_ st = Some pf ->
  result (handleInitialPoseMessage msg env st) = Normal tt /\
  occurs is_pf_init (handleInitialPoseMessage msg env st) = true /\
  exists mean cov, pf_ (final (handleInitialPoseMessage msg env st))
                   = Some (pf_init pf mean cov).
Proof.
  intros Hframe Hmap Hpf. unfold occurs, handleInitialPoseMessage, applyInitialPose.
  rewrite Hframe. destruct st; cbn in Hmap, Hpf; subst.
  destruct (decide (EmptyString = EmptyString)) as [_|Hn]; [|contradiction].
  destruct (ie_tx_odom env) as [tx|], sent_first_transform_0;
    run_phase; (split; [reflexivity|]; split; [reflexivity|]; eauto).
Qed.

End InitialPoses.

(** C6, as the code has it: an initial pose whose frame id is not empty and
    does not resolve to the global frame is dropped: the handler logs the
    warning and returns, and the node, with its particle filter, is left as
    it was. *)
Theorem initial_pose_in_other_frame_dropped `{Extern} st msg env :
  ip_frame_id msg ≠ EmptyString ->
  tf_resolve (ip_frame_id msg) ≠ tf_resolve (global_frame_id_ st) ->
  handleInitialPoseMessage msg env st =
    (Returned, st,
     [EvLog WARN
        "Ignoring initial pose in frame %s; initial poses must be in the global frame, %s"]).
Proof.
  intros Hne Hres. unfold handleInitialPoseMessage.
  unfold bind at 1. cbn [get].
  destruct (decide (ip_frame_id msg = EmptyString)) as [|_]; [contradiction|].
  destruct (decide (tf_resolve (ip_frame_id msg)
                    ≠ tf_resolve (global_frame_id_ st))) as [_|];
    [|contradiction].
  reflexivity.
Qed.

(** An initial pose in the odometry frame, on a node whose global frame is
    the map frame *)
Lemma initial_pose_in_other_frame_dropped_witness :
  @handleInitialPoseMessage example_extern (example_initial_pose "odom")
    example_initial_pose_env example_node =
    (Returned, example_node,
     [EvLog WARN
        "Ignoring initial pose in frame %s; initial poses must be in the global frame, %s"]).
Proof.
  apply (@initial_pose_in_other_frame_dropped example_extern example_node
           (example_initial_pose "odom") example_initial_pose_env);
    discriminate.
Defined.

(** C6 as stated fails: an initial pose with an empty frame id is not in
    the global frame, and it is not dropped: the filter is initialized from
    it. *)
Lemma initial_pose_without_frame_not_dropped :
  ~ (forall (E : Extern) (st : node) msg env,
       tf_resolve (ip_frame_id msg) ≠ tf_resolve (global_frame_id_ st) ->
       result (handleInitialPoseMessage msg env st) = Returned /\
       occurs is_warning (handleInitialPoseMessage msg env st) = true /\
       pf_ (final (handleInitialPoseMessage msg env st)) = pf_ st).
Proof.
  intros Hclaim.
  destruct (Hclaim example_extern example_node (example_initial_pose "")
              example_initial_pose_env) as (Hret & _); [discriminate|].
  destruct (@initial_pose_empty_frame_accepted example_extern example_node
              (example_initial_pose "") example_initial_pose_env example_map
              0%nat eq_refl eq_refl eq_refl) as (Hres & _).
  rewrite Hres in Hret. discriminate.
Qed.

(** ** The broadcast of the transform *)

Section Broadcast.
Context `{Extern}.

(** On the laser path every broadcast of the map->odom transform expires
    at the stamp of the scan plus the tolerance. *)
Lemma laser_broadcast_expiry st laser_scan env resampled force_publication :
  Forall (stamps_are st (scan_stamp laser_scan + transform_tolerance_ st))
    (trace (laser_publish laser_scan env resampled force_publication st)).
Proof.
  unfold laser_publish.
  erewrite bind_run by reflexivity. cbv beta. rewrite prepend_nil.
  match goal with
  | |- Forall ?good (trace (?m st)) =>
      assert (Hm : maintains any_state good m)
  end.
  { unfold save_pose_if_due, savePoseToServer. maintains_tac;
      intros _ _; reflexivity. }
  now apply Hm.
Qed.

(** On the camera path the transform that is republished when no update
    fired expires at the stamp of the message plus the tolerance. *)
Lemma camera_republish_expiry st msg env obs :
  Forall (stamps_are st (det_stamp msg + transform_tolerance_ st))
    (trace (camera_publish msg env obs false false st)).
Proof.
  unfold camera_publish.
  erewrite bind_run by reflexivity. cbv beta. rewrite prepend_nil.
  cbn [orb].
  match goal with
  | |- Forall ?good (trace (?m st)) =>
      assert (Hm : maintains any_state good m)
  end.
  { unfold save_pose_if_due, savePoseToServer. maintains_tac;
      intros _ _; reflexivity. }
  now apply Hm.
Qed.

(** On a camera update cycle every broadcast carries the stamp of the
    message itself. *)
Lemma camera_update_stamps st msg env obs force_publication :
  Forall (stamps_are st (det_stamp msg))
    (trace (camera_publish msg env obs true force_publication st)).
Proof.
  unfold camera_publish.
  erewrite bind_run by reflexivity. cbv beta. rewrite prepend_nil.
  cbn [orb negb].
  match goal with
  | |- Forall ?good (trace (?m st)) =>
      assert (Hm : maintains any_state good m)
  end.
  { maintains_tac; intros _ _; reflexivity. }
  now apply Hm.
Qed.

(** The hypotheses read from a filter *)
Lemma read_hypotheses_run st pf r errors :
  pf_ st = Some pf ->
  read_hyps pf (seqZ 0 (pf_cluster_count pf))
    (0, (-1)%Z, replicate (Z.to_nat (pf_cluster_count pf)) zero_hyp)
  = (r, errors) ->
  read_hypotheses st = (Normal r, st, errors).
Proof.
  intros Hpf Hread. unfold read_hypotheses.
  erewrite bind_run by reflexivity. cbv beta.
  erewrite bind_run by (rewrite Hpf; reflexivity). cbv beta.
  rewrite Hread. reflexivity.
Qed.

(** The broadcast of an update cycle of the camera *)
Lemma camera_update_broadcast st msg env obs force_publication pf w idx hyps
    errors h odom_to_map :
  pf_ st = Some pf ->
  read_hyps pf (seqZ 0 (pf_cluster_count pf))
    (0, (-1)%Z, replicate (Z.to_nat (pf_cluster_count pf)) zero_hyp)
  = ((w, idx, hyps), errors) ->
  w > 0 -> hyp_at hyps idx = Some h ->
  de_odom_to_map env
    (tf_inverse (tf_from_yaw (v2 (pf_pose_mean h)) (v0 (pf_pose_mean h))
                   (v1 (pf_pose_mean h)))) = Some odom_to_map ->
  tf_broadcast_ st = true ->
  EvSendTransform (tf_inverse odom_to_map) (det_stamp msg)
    (global_frame_id_ st) (odom_frame_id_ st)
  ∈ trace (camera_publish msg env obs true force_publication st).
Proof.
  intros Hpf Hread Hw Hh Hotm Hbc.
  unfold camera_publish.
  erewrite bind_run by reflexivity. cbv beta. cbn [orb negb when].
  erewrite bind_run by reflexivity. cbv beta.
  erewrite bind_run by (eapply read_hypotheses_run; eassumption). cbv beta.
  cbn [fst snd].
  destruct (decide (w > 0)) as [_|]; [|contradiction].
  rewrite Hh, Hbc. cbn [when].
  erewrite bind_run by reflexivity. cbv beta.
  rewrite Hotm.
  erewrite bind_run by reflexivity. cbv beta.
  erewrite bind_run by (rewrite Hpf; reflexivity). cbv beta.
  erewrite bind_run by reflexivity. cbv beta.
  destruct (bool_decide (simulation st = 1)%Z),
           (bool_decide (simulation st = 0)%Z); cbn [when];
    repeat (erewrite bind_run by reflexivity; cbv beta).
  all: rewrite !prepend_prepend, trace_prepend.
  all: apply elem_of_app; left; apply elem_of_app; left;
    apply elem_of_app; right; constructor.
Qed.

(** An update cycle of the camera, on a whole callback: the transform from
    the best hypothesis is broadcast with the stamp of the message. *)
Lemma camera_cycle_broadcast st msg env m tfp pf od mk w idx hyps errors h
    odom_to_map :
  map_ st = Some m -> pf_init_cam st = true -> de_odom_pose env = Some tfp ->
  pf_ st = Some pf -> odom_ st = Some od -> marker_ st = Some mk ->
  in_int (resample_count_cam st + 1) -> resample_interval_ st ≠ 0%Z ->
  camera_due st msg (pose_of tfp) = true ->
  tf_broadcast_ st = true ->
  (forall pf',
     read_hyps pf' (seqZ 0 (pf_cluster_count pf'))
       (0, (-1)%Z, replicate (Z.to_nat (pf_cluster_count pf')) zero_hyp)
     = ((w, idx, hyps), errors)) ->
  w > 0 -> hyp_at hyps idx = Some h ->
  de_odom_to_map env
    (tf_inverse (tf_from_yaw (v2 (pf_pose_mean h)) (v0 (pf_pose_mean h))
                   (v1 (pf_pose_mean h)))) = Some odom_to_map ->
  EvSendTransform (tf_inverse odom_to_map) (det_stamp msg)
    (global_frame_id_ st) (odom_frame_id_ st)
  ∈ trace (detectionCallback msg env st).
Proof.
  intros Hmap Hinit Hodom Hpf Hod Hmk Hint Hival Hdue Hbc Hread Hw Hh Hotm.
  destruct (detection_prefix_run st msg env m tfp pf od mk)
    as (st3 & t0 & -> & _ & Hmu & [mk3 Hmk3] & [pf3 Hpf3] & Hc & Hi
        & Hg3 & Ho3 & Hb3 & _); auto.
  rewrite trace_prepend. apply elem_of_app. right.
  unfold camera_score_and_publish.
  erewrite bind_run by reflexivity. cbv beta. rewrite prepend_nil.
  rewrite Hmu, Hdue.
  destruct (camera_update_keeps env (observation_of msg) (pose_of tfp)
              st3 mk3 pf3) as (Hres & [pf4 Hpf4] & Hg4 & Ho4 & Hb4 & _);
    rewrite ?Hc, ?Hi; auto.
  destruct (camera_update env (observation_of msg) (pose_of tfp) st3)
    as [[o st4] t1] eqn:Hrun.
  cbn in Hres, Hpf4, Hg4, Ho4, Hb4. subst o.
  erewrite bind_run by exact Hrun. cbv beta.
  rewrite trace_prepend. apply elem_of_app. right.
  apply elem_of_trace_bind.
  rewrite <- Hg3, <- Ho3, <- Hg4, <- Ho4.
  eapply camera_update_broadcast; eauto.
Qed.

(** The hypotheses that the small instance's filter reports *)
Lemma example_read_hyps (pf : @pf_t example_extern) :
  @read_hyps example_extern pf (seqZ 0 (pf_cluster_count pf))
    (0, (-1)%Z, replicate (Z.to_nat (pf_cluster_count pf)) zero_hyp)
  = ((1, 0%Z, [mk_hyp 1 pf_vector_zero pf_matrix_zero]), []).
Proof.
  change (seqZ 0 (pf_cluster_count pf)) with [0%Z]. cbn.
  destruct (decide (1 > 0)); [reflexivity|lra].
Qed.

End Broadcast.

(** C5, the sibling paths: on the laser path, and on the camera path when
    no update fired, every broadcast of the map->odom transform carries the
    stamp of the observation plus [transform_tolerance_]. *)
Lemma broadcast_expiry_elsewhere `{Extern} st :
  (forall laser_scan env resampled force_publication,
     Forall (stamps_are st (scan_stamp laser_scan + transform_tolerance_ st))
       (trace (laser_publish laser_scan env resampled force_publication st)))
  /\ (forall msg env obs,
        Forall (stamps_are st (det_stamp msg + transform_tolerance_ st))
          (trace (camera_publish msg env obs false false st))).
Proof.
  split; intros.
  - apply laser_broadcast_expiry.
  - apply camera_republish_expiry.
Qed.

(** C5, the code at a detection message that opens the camera gate: the
    map->odom transform is broadcast with the stamp of the message (5), not
    with the stamp plus the tolerance, and no broadcast of that cycle
    carries the expiry. *)
Theorem camera_update_broadcast_stamp :
  let run := @detectionCallback example_extern example_detection
               example_detection_env example_node in
  let odom_to_map := @tf_inverse example_extern pf_vector_zero in
  @EvSendTransform example_extern (@tf_inverse example_extern odom_to_map)
    5%Z "map" "odom" ∈ trace run
  /\ (det_stamp example_detection + transform_tolerance_ example_node)%Z
     = 100000005%Z.
Proof.
  cbv zeta. split; [|reflexivity].
  apply (@camera_cycle_broadcast example_extern example_node
           example_detection example_detection_env example_map
           pf_vector_zero 0%nat example_odom example_marker
           1 0%Z [mk_hyp 1 pf_vector_zero pf_matrix_zero] []
           (mk_hyp 1 pf_vector_zero pf_matrix_zero)
           (@tf_inverse example_extern pf_vector_zero));
    try reflexivity.
  - unfold in_int. cbn. lia.
  - discriminate.
  - apply camera_due_iff. left. unfold gate_open. tauto.
  - apply example_read_hyps.
  - lra.
Qed.

(* ===================================================================== *)
(** * Further properties of the node *)
(* ===================================================================== *)

(** ** More on the angle helpers *)

(** An angle strictly within a full turn of 0 with the sine and cosine of 0
    is 0. *)
Lemma angle_zero_of_sin_cos (x : R) :
  - (2 * PI) < x < 2 * PI -> sin x = 0 -> cos x = 1 -> x = 0.
Proof.
  intros Hx Hs Hc. pose proof PI_RGT_0 as Hpi.
  destruct (sin_eq_0_0 x Hs) as [k Hk].
  assert (Hk2 : (-2 < k < 2)%Z).
  { split; apply lt_IZR; nra. }
  assert (Hcases : k = (-1)%Z \/ k = 0%Z \/ k = 1%Z) by lia.
  destruct Hcases as [-> | [-> | ->]].
  - replace x with (- PI) in Hc by lra. rewrite cos_neg, cos_PI in Hc. lra.
  - lra.
  - replace x with PI in Hc by lra. rewrite cos_PI in Hc. lra.
Qed.

Lemma angle_eq_of_sin_cos (x y : R) :
  - (2 * PI) < x - y < 2 * PI -> sin x = sin y -> cos x = cos y -> x = y.
Proof.
  intros Hxy Hs Hc.
  assert (x - y = 0); [|lra].
  apply angle_zero_of_sin_cos; [exact Hxy| |].
  - rewrite sin_minus, Hs, Hc. ring.
  - rewrite cos_minus, Hs, Hc.
    pose proof (sin2_cos2 y) as H1. unfold Rsqr in H1. lra.
Qed.

(** X1: [angle_diff a b] is the difference [a - b] brought into (-PI, PI)
    by whole turns: whenever an angle [d] strictly inside (-PI, PI) has the
    sine and cosine of [a - b], the result is [d]. *)
Theorem angle_diff_wraps (a b d : R) :
  - PI < d < PI -> sin d = sin (a - b) -> cos d = cos (a - b) ->
  angle_diff a b = d.
Proof.
  intros Hd Hs Hc.
  pose proof (angle_diff_range a b) as Hr.
  destruct (angle_diff_sin_cos a b) as [Hs' Hc'].
  apply angle_eq_of_sin_cos; [lra|congruence|congruence].
Qed.

Lemma angle_diff_wraps_witness : angle_diff 1 1 = 0.
Proof.
  apply (angle_diff_wraps 1 1 0).
  - pose proof PI_RGT_0. lra.
  - now replace (1 - 1) with 0 by lra.
  - now replace (1 - 1) with 0 by lra.
Defined.

Lemma normalize_fixed (z : R) : - PI < z <= PI -> normalize z = z.
Proof.
  intros Hz. pose proof (normalize_range z) as Hn.
  destruct (sin_cos_normalize z) as [Hs Hc].
  apply angle_eq_of_sin_cos; [lra|exact Hs|exact Hc].
Qed.

Lemma normalize_turn (z : R) : normalize (z + 2 * PI) = normalize z.
Proof.
  unfold normalize.
  now rewrite sin_plus, cos_plus, sin_2PI, cos_2PI,
    !Rmult_0_r, !Rmult_1_r, Rplus_0_r, Rminus_0_r.
Qed.

Lemma angle_diff_same (a : R) : angle_diff a a = 0.
Proof.
  pose proof PI_RGT_0 as Hpi.
  pose proof (angle_diff_range a a) as Hr.
  destruct (angle_diff_sin_cos a a) as [Hs Hc].
  replace (a - a) with 0 in Hs, Hc by lra.
  apply angle_eq_of_sin_cos; [lra|exact Hs|exact Hc].
Qed.

(** X2: [normalize] is the identity on (-PI, PI], so it is idempotent, and
    it does not see whole turns; [angle_diff] inherits the latter in both
    arguments, and the difference of an angle with itself is 0. *)
Theorem normalize_fixes_range_and_turns (z a b : R) :
  (- PI < z <= PI -> normalize z = z) /\
  normalize (normalize z) = normalize z /\
  normalize (z + 2 * PI) = normalize z /\
  angle_diff (a + 2 * PI) b = angle_diff a b /\
  angle_diff a (b + 2 * PI) = angle_diff a b /\
  angle_diff a a = 0.
Proof.
  split; [apply normalize_fixed|].
  split; [apply normalize_fixed, normalize_range|].
  split; [apply normalize_turn|].
  split; [unfold angle_diff; now rewrite normalize_turn|].
  split; [unfold angle_diff; now rewrite normalize_turn|].
  apply angle_diff_same.
Qed.

Lemma normalize_fixes_range_and_turns_witness : normalize 0 = 0.
Proof.
  apply (proj1 (normalize_fixes_range_and_turns 0 0 0)).
  pose proof PI_RGT_0. lra.
Defined.

Section FreeSpace.
Context `{Extern}.

Lemma elem_of_grid_indices m i j :
  (i, j) ∈ grid_indices m <-> (0 <= i < size_x m)%Z /\ (0 <= j < size_y m)%Z.
Proof.
  unfold grid_indices. rewrite list_elem_of_bind. split.
  - intros (i' & Hin & Hi'). apply list_elem_of_bind in Hin as (j' & Hin & Hj').
    apply list_elem_of_singleton in Hin. injection Hin as -> ->.
    apply elem_of_seqZ in Hi', Hj'. lia.
  - intros [Hi Hj]. exists i. split; [|apply elem_of_seqZ; lia].
    apply list_elem_of_bind. exists j. split; [|apply elem_of_seqZ; lia].
    now apply list_elem_of_singleton.
Qed.

Lemma NoDup_grid_indices m : NoDup (grid_indices m).
Proof.
  unfold grid_indices. apply NoDup_bind; [| |apply NoDup_seqZ].
  - intros i1 i2 ij Hi1 Hi2 H1 H2.
    apply list_elem_of_bind in H1 as (j1 & H1 & _).
    apply list_elem_of_bind in H2 as (j2 & H2 & _).
    apply list_elem_of_singleton in H1, H2. congruence.
  - intros i _. apply NoDup_bind; [| |apply NoDup_seqZ].
    + intros j1 j2 ij _ _ H1 H2.
      apply list_elem_of_singleton in H1, H2. congruence.
    + intros j _. apply NoDup_singleton.
Qed.

(** The concatenation of the per-position results of the double loop *)
Lemma concat_selected (g : Z * Z -> option (list (Z * Z))) l ls :
  (forall x y, g x = Some y -> y = [x] \/ y = []) ->
  Forall2 (λ x y, g x = Some y) l ls ->
  (forall ij, ij ∈ concat ls <-> ij ∈ l /\ g ij = Some [ij])
  /\ (NoDup l -> NoDup (concat ls)).
Proof.
  intros Hg Hf. induction Hf as [|x y l ls Hxy _ [IH1 IH2]]; cbn.
  - split; [|auto]. intros ij. rewrite elem_of_nil. tauto.
  - destruct (Hg x y Hxy) as [-> | ->]; cbn.
    + split.
      * intros ij. rewrite !elem_of_cons, IH1. split.
        -- intros [-> | [Hin Hgij]]; auto.
        -- intros [[-> | Hin] Hgij]; auto.
      * intros Hnd. apply NoDup_cons in Hnd as [Hx Hnd].
        apply NoDup_cons. split; [|auto]. rewrite IH1. tauto.
    + split.
      * intros ij. rewrite elem_of_cons, IH1. split.
        -- intros [Hin Hgij]; auto.
        -- intros [[-> | Hin] Hgij]; [congruence|auto].
      * intros Hnd. apply NoDup_cons in Hnd as [Hx Hnd]. auto.
Qed.

(** X3: the free-space index holds exactly the positions of the grid whose
    cell is free, each once. *)
Theorem index_free_space_exact m free :
  index_free_space m = Some free ->
  NoDup free /\
  forall i j,
    (i, j) ∈ free <->
    (0 <= i < size_x m)%Z /\ (0 <= j < size_y m)%Z /\
    exists c, cell_at m (MAP_INDEX m i j) = Some c /\ occ_state c = (-1)%Z.
Proof.
  unfold index_free_space. intros Hidx.
  destruct (mapM _ _) as [ls|] eqn:Hls; [|discriminate].
  cbn in Hidx. injection Hidx as <-.
  apply mapM_Some in Hls.
  apply concat_selected in Hls as [Hin Hnd].
  - split; [apply Hnd, NoDup_grid_indices|].
    intros i j. rewrite Hin, elem_of_grid_indices. cbn.
    destruct (cell_at m (MAP_INDEX m i j)) as [c|]; cbn.
    + destruct (decide (occ_state c = -1)%Z) as [Hc|Hc].
      * split; [|tauto]. intros [[Hi Hj] _]. eauto.
      * split; [intros [_ [=]]|]. intros (_ & _ & c' & [= <-] & Hc').
        contradiction.
    + split; [intros [_ [=]]|]. intros (_ & _ & c' & [=] & _).
  - intros ij r Hr. destruct (cell_at m (MAP_INDEX m ij.1 ij.2)) as [c|];
      [|discriminate].
    cbn in Hr. injection Hr as <-. destruct (decide _); auto.
Qed.

End FreeSpace.

(** The map of one free cell has the index [(0, 0)]. *)
Lemma index_free_space_exact_witness :
  NoDup [(0, 0)%Z] /\
  forall i j,
    (i, j) ∈ [(0, 0)%Z] <->
    (0 <= i < size_x example_map)%Z /\ (0 <= j < size_y example_map)%Z /\
    exists c, cell_at example_map (@MAP_INDEX example_extern example_map i j)
              = Some c /\ occ_state c = (-1)%Z.
Proof.
  apply (@index_free_space_exact example_extern example_map [(0, 0)%Z]).
  reflexivity.
Defined.

(** ** The bytes that [convertMap] reads *)

Lemma mapM_lookup_ext {A B} (f g : A -> option B) l :
  Forall (λ x, f x = g x) l -> mapM f l = mapM g l.
Proof.
  induction 1 as [|x l Hx _ IH]; cbn; [reflexivity|]. now rewrite Hx, IH.
Qed.

(** X4: for sizes that fit, [convertMap] reads exactly the first
    [width * height] bytes of the data.  With fewer bytes it yields no map
    (the source would read past the end of the vector), and bytes beyond
    them do not change the map. *)
Theorem convertMap_reads_all_cells (msg : OccupancyGrid) (more : list Z) :
  (0 <= og_width msg < 2 ^ 31)%Z -> (0 <= og_height msg < 2 ^ 31)%Z ->
  (og_width msg * og_height msg < 2 ^ 31)%Z ->
  ((length (og_data msg) < Z.to_nat (og_width msg * og_height msg))%nat ->
   convertMap msg = None) /\
  ((Z.to_nat (og_width msg * og_height msg) <= length (og_data msg))%nat ->
   convertMap (mk_grid (og_frame_id msg) (og_width msg) (og_height msg)
                 (og_resolution msg) (og_origin_x msg) (og_origin_y msg)
                 (og_data msg ++ more))
   = convertMap msg).
Proof.
  intros Hw Hh Hwh.
  assert (Hint : in_int (og_width msg * og_height msg)) by (unfold in_int; nia).
  split.
  - intros Hlt. destruct (convertMap msg) as [m|] eqn:Hm; [exfalso|reflexivity].
    unfold convertMap in Hm. cbv zeta in Hm.
    rewrite !int_of_uint32_small in Hm by assumption.
    destruct (decide (in_int _)); [|contradiction].
    destruct (mapM _ _) as [cs|] eqn:Hcs; [|discriminate].
    apply mapM_Some in Hcs.
    assert (Hsome : is_Some (seq 0 (Z.to_nat (og_width msg * og_height msg))
                             !! length (og_data msg))).
    { apply lookup_lt_is_Some. now rewrite length_seq. }
    destruct Hsome as [k Hk].
    destruct (Forall2_lookup_l _ _ _ _ _ Hcs Hk) as (c & _ & Hc).
    apply lookup_seq in Hk as [-> _]. cbn in Hc.
    rewrite lookup_ge_None_2 in Hc by lia. discriminate.
  - intros Hlen.
    unfold convertMap. cbv zeta. cbn [og_width og_height og_data og_resolution
      og_origin_x og_origin_y].
    rewrite !int_of_uint32_small by assumption.
    destruct (decide (in_int _)); [|reflexivity].
    erewrite mapM_lookup_ext; [reflexivity|].
    apply Forall_forall. intros k Hk. apply elem_of_seq in Hk.
    rewrite lookup_app_l by lia. reflexivity.
Qed.

(** The grid of one cell with a second byte, and without its byte *)
Lemma convertMap_reads_all_cells_witness :
  convertMap (mk_grid "map" 1 1 1 0 0 [0%Z; 100%Z]) = convertMap example_grid
  /\ convertMap (mk_grid "map" 1 1 1 0 0 []) = None.
Proof.
  split.
  - apply (proj2 (convertMap_reads_all_cells example_grid [100%Z]
                    ltac:(cbn; lia) ltac:(cbn; lia) ltac:(cbn; lia))).
    cbn. lia.
  - apply (proj1 (convertMap_reads_all_cells (mk_grid "map" 1 1 1 0 0 []) []
                    ltac:(cbn; lia) ltac:(cbn; lia) ltac:(cbn; lia))).
    cbn. lia.
Defined.

Section Hypotheses.
Context `{Extern}.

Lemma read_hyps_keeps pf n len : forall k acc,
  (0 <= k)%Z -> (k + Z.of_nat len <= Z.of_nat n)%Z ->
  best_so_far n k acc ->
  best_so_far n (Z.of_nat n) (read_hyps pf (seqZ k (Z.of_nat len)) acc).1.
Proof.
  induction len as [|len IH]; intros k acc Hk Hn Hacc.
  - rewrite seqZ_nil by lia. cbn. destruct Hacc as (Hl & Hw & Hall & Hbest).
    repeat (split; [assumption|]). intros Hpos.
    destruct (Hbest Hpos) as [Hidx Hh]. split; [lia|exact Hh].
  - rewrite seqZ_cons by lia. cbn [read_hyps].
    replace (Z.pred (Z.of_nat (S len))) with (Z.of_nat len) by lia.
    destruct Hacc as (Hl & Hw & Hall & Hbest).
    destruct (pf_get_cluster_stats pf k) as [[[w mean] cov]|].
    + destruct (decide (w > acc.1.1)) as [Hgt|Hle].
      * apply IH; [lia|lia|]. unfold best_so_far. cbn [fst snd].
        rewrite length_insert.
        split; [assumption|]. split; [lra|]. split.
        -- apply Forall_insert; [|cbn; lra].
           eapply Forall_impl; [exact Hall|]. cbn. intros h Hh. lra.
        -- intros _. split; [lia|]. eexists.
           split; [apply list_lookup_insert_eq; lia|reflexivity].
      * apply IH; [lia|lia|]. unfold best_so_far. cbn [fst snd].
        rewrite length_insert.
        split; [assumption|]. split; [assumption|]. split.
        -- apply Forall_insert; [exact Hall|cbn; lra].
        -- intros Hpos. destruct (Hbest Hpos) as [Hidx (h & Hh & Hwh)].
           split; [lia|]. exists h. split; [|exact Hwh].
           rewrite list_lookup_insert_ne by lia. exact Hh.
    + cbn. repeat (split; [assumption|]). intros Hpos.
      destruct (Hbest Hpos) as [Hidx Hh]. split; [lia|exact Hh].
Qed.

Lemma read_hyps_from_start pf (n : Z) :
  best_so_far (Z.to_nat n) (Z.of_nat (Z.to_nat n))
    (read_hyps pf (seqZ 0 n) (0, (-1)%Z, replicate (Z.to_nat n) zero_hyp)).1.
Proof.
  assert (Hn : seqZ 0 n = seqZ 0 (Z.of_nat (Z.to_nat n))).
  { destruct (decide (0 <= n)%Z); [now rewrite Z2Nat.id|].
    rewrite !seqZ_nil by lia. reflexivity. }
  rewrite Hn. apply read_hyps_keeps; [lia|lia|].
  unfold best_so_far. cbn [fst snd]. rewrite length_replicate.
  split; [reflexivity|]. split; [lra|].
  split; [|lra]. apply Forall_replicate. cbn. lra.
Qed.

(** X5: the hypotheses read out of the filter.  Whatever the filter
    reports, also when a cluster cannot be read and the loop stops early,
    no hypothesis weighs more than [max_weight], and a positive
    [max_weight] belongs to [hyps[max_weight_hyp]], which is then a read
    inside the vector. *)
Theorem read_hyps_best pf (n : Z) w idx hyps errors :
  read_hyps pf (seqZ 0 n) (0, (-1)%Z, replicate (Z.to_nat n) zero_hyp)
  = ((w, idx, hyps), errors) ->
  length hyps = Z.to_nat n /\
  Forall (λ h, weight h <= w) hyps /\
  (w > 0 -> exists h, hyp_at hyps idx = Some h /\ weight h = w).
Proof.
  intros Hread.
  pose proof (read_hyps_from_start pf n) as Hk.
  rewrite Hread in Hk. unfold best_so_far in Hk. cbn [fst snd] in Hk.
  destruct Hk as (Hl & _ & Hall & Hbest).
  split; [exact Hl|]. split; [exact Hall|].
  intros Hpos. destruct (Hbest Hpos) as [Hidx Hh].
  unfold hyp_at. destruct (decide (0 <= idx)%Z); [exact Hh|lia].
Qed.

End Hypotheses.

(** The filter of the small instance reports one cluster of weight 1. *)
Lemma read_hyps_best_witness :
  length [mk_hyp 1 pf_vector_zero pf_matrix_zero] = Z.to_nat 1 /\
  Forall (λ h, weight h <= 1) [mk_hyp 1 pf_vector_zero pf_matrix_zero] /\
  (1 > 0 -> exists h,
     hyp_at [mk_hyp 1 pf_vector_zero pf_matrix_zero] 0 = Some h /\ weight h = 1).
Proof.
  apply (@read_hyps_best example_extern 0%nat 1 1 0%Z
           [mk_hyp 1 pf_vector_zero pf_matrix_zero] []).
  apply (example_read_hyps 0%nat).
Defined.

(** ** Runs that do not fault *)

Section Ensures.
Context `{Extern}.

Lemma ensures_bind {A B} P (m : M A) (k : A -> M B) Q Q' :
  ensures P m Q -> (forall a, ensures (Q a) (k a) Q') ->
  ensures P (bind m k) Q'.
Proof.
  intros Hm Hk s Hs. specialize (Hm s Hs).
  unfold bind, result, final in *.
  destruct (m s) as [[[a| |] s1] t1]; cbn in *; auto.
  exact (Hk a s1 Hm).
Qed.

Lemma ensures_bind_get {B} P (k : node -> M B) Q :
  (forall st, P st -> ensures P (k st) Q) -> ensures P (bind get k) Q.
Proof.
  intros Hk s Hs. specialize (Hk s Hs s Hs).
  unfold bind, get, prepend, result, final in *. cbn in *.
  destruct (k s s) as [[[a| |] s1] t1]; cbn in *; auto.
Qed.

Lemma ensures_weaken {A} (P P' : node -> Prop) (m : M A) (Q Q' : A -> node -> Prop) :
  (forall s, P' s -> P s) -> (forall a s, Q a s -> Q' a s) ->
  ensures P m Q -> ensures P' m Q'.
Proof.
  intros HP HQ Hm s Hs. specialize (Hm s (HP s Hs)).
  destruct (result (m s)); auto.
Qed.

Lemma ensures_ret {A} (P : node -> Prop) (a : A) (Q : A -> node -> Prop) :
  (forall s, P s -> Q a s) -> ensures P (ret a) Q.
Proof. intros HQ s Hs. now apply HQ. Qed.

Lemma ensures_modify (P : node -> Prop) f (Q : unit -> node -> Prop) :
  (forall s, P s -> Q tt (f s)) -> ensures P (modify f) Q.
Proof. intros HQ s Hs. now apply HQ. Qed.

Lemma ensures_emit (P : node -> Prop) e (Q : unit -> node -> Prop) :
  (forall s, P s -> Q tt s) -> ensures P (emit e) Q.
Proof. intros HQ s Hs. now apply HQ. Qed.

Lemma ensures_return {A} (P : node -> Prop) (Q : A -> node -> Prop) :
  ensures P return_ Q.
Proof. intros s Hs. exact Logic.I. Qed.

Lemma ensures_deref {A} (P : node -> Prop) (o : option A) (Q : A -> node -> Prop) :
  is_Some o -> (forall a s, o = Some a -> P s -> Q a s) ->
  ensures P (deref o) Q.
Proof. intros [a ->] HQ s Hs. now apply HQ. Qed.

Lemma ensures_when (P : node -> Prop) b m (Q : unit -> node -> Prop) :
  (b = true -> ensures P m Q) -> (b = false -> forall s, P s -> Q tt s) ->
  ensures P (when b m) Q.
Proof.
  destruct b; cbn; intros Hm HQ; [now apply Hm|].
  apply ensures_ret. now apply HQ.
Qed.

Lemma ensures_call_pf (P : node -> Prop) f (Q : unit -> node -> Prop) :
  (forall s, P s -> is_Some (pf_ s)) ->
  (forall s pf, P s -> pf_ s = Some pf -> Q tt (set_pf_ (Some (f pf)) s)) ->
  ensures P (call_pf f) Q.
Proof.
  intros Hpf HQ s Hs. destruct (Hpf s Hs) as [pf Hp].
  unfold call_pf, bind, get, prepend, result, final. cbn.
  rewrite Hp. cbn. now apply HQ.
Qed.

(** [read_hypotheses] and what it returns *)
Lemma ensures_read_hypotheses (P : node -> Prop) :
  (forall s, P s -> is_Some (pf_ s)) ->
  ensures P read_hypotheses
    (λ r s, P s /\ (r.1.1 > 0 -> is_Some (hyp_at r.2 r.1.2))).
Proof.
  intros Hpf s Hs. destruct (Hpf s Hs) as [pf Hp].
  unfold read_hypotheses, bind, get, prepend, result, final. cbn.
  rewrite Hp. cbn. split; [exact Hs|]. intros Hpos.
  destruct (read_hyps pf (seqZ 0 (pf_cluster_count pf))
              (0, (-1)%Z, replicate (Z.to_nat (pf_cluster_count pf)) zero_hyp))
    as [[[w idx] hyps] errors] eqn:Hread.
  pose proof (read_hyps_from_start pf (pf_cluster_count pf)) as Hk.
  rewrite Hread in Hk. unfold best_so_far in Hk. cbn [fst snd] in Hk, Hpos |- *.
  destruct Hk as (_ & _ & _ & Hbest).
  destruct (Hbest Hpos) as [Hidx (h & Hh & _)].
  unfold hyp_at. destruct (decide (0 <= idx)%Z); [eauto|lia].
Qed.

End Ensures.

Section EnsuresMore.
Context `{Extern}.

Lemma ensures_bind_get_eq {B} (P : node -> Prop) (k : node -> M B) Q :
  (forall st, P st -> ensures (eq st) (k st) Q) -> ensures P (bind get k) Q.
Proof.
  intros Hk s Hs. specialize (Hk s Hs s eq_refl).
  unfold bind, get, prepend, result, final in *. cbn in *.
  destruct (k s s) as [[[a| |] s1] t1]; cbn in *; auto.
Qed.

Lemma ensures_bind_read_hypotheses {B} (P : node -> Prop)
    (k : R * Z * list amcl_hyp_t -> M B) Q :
  (forall s, P s -> is_Some (pf_ s)) ->
  (forall r, (r.1.1 > 0 -> is_Some (hyp_at r.2 r.1.2)) -> ensures P (k r) Q) ->
  ensures P (bind read_hypotheses k) Q.
Proof.
  intros Hpf Hk.
  eapply ensures_bind; [now apply ensures_read_hypotheses|].
  intros r s [Hs Hr]. now apply Hk.
Qed.

End EnsuresMore.

Ltac ensures_step I :=
  match goal with
  | |- ensures _ (bind get _) _ => apply ensures_bind_get; intros ? ?
  | |- ensures _ (bind read_hypotheses _) _ =>
      apply ensures_bind_read_hypotheses; [|intros ? ?]
  | |- ensures _ (bind _ _) _ => apply (ensures_bind _ _ _ (λ _, I)); [|intros ?]
  | |- ensures _ (ret _) _ => apply ensures_ret
  | |- ensures _ (modify _) _ => apply ensures_modify
  | |- ensures _ (emit _) _ => apply ensures_emit
  | |- ensures _ return_ _ => apply ensures_return
  | |- ensures _ fault _ => exfalso
  | |- ensures _ (deref _) _ => apply ensures_deref
  | |- ensures _ (when _ _) _ => apply ensures_when; [intros ?|intros ?]
  | |- ensures _ (call_pf _) _ => apply ensures_call_pf
  | |- ensures _ (match ?x with _ => _ end) _ => destruct x eqn:?
  | |- ensures _ (let _ := _ in _) _ => cbv zeta
  end.

Section LaserFlags.
Context `{Extern}.

Lemma laser_flag_all_true_is_Some st s laser_index :
  is_Some (laser_flag st laser_index) ->
  is_Some (laser_flag (set_lasers_update_ (all_true (lasers_update_ st)) s)
             laser_index).
Proof.
  unfold laser_flag, all_true. cbn.
  destruct (decide (0 <= laser_index)%Z); [|tauto].
  rewrite list_lookup_fmap. intros [b ->]. now eexists.
Qed.

Lemma laser_flag_insert_is_Some st s laser_index k b :
  is_Some (laser_flag st laser_index) ->
  is_Some (laser_flag (set_lasers_update_ (<[k := b]> (lasers_update_ st)) s)
             laser_index).
Proof.
  unfold laser_flag. cbn.
  destruct (decide (0 <= laser_index)%Z); [|tauto].
  rewrite !lookup_lt_is_Some, length_insert. tauto.
Qed.

End LaserFlags.

Ltac laser_ready_tac :=
  intros;
  repeat match goal with
    | Hr : laser_ready _ _ |- _ => destruct Hr as (? & ? & ? & ?)
    end;
  repeat match goal with
    | |- laser_ready _ _ => split; [|split; [|split]]
    end;
  first [ assumption | exact Logic.I
        | apply laser_flag_all_true_is_Some; assumption
        | apply laser_flag_insert_is_Some; assumption
        | (eexists; reflexivity)
        | solve [auto]
        | idtac ].

Section LaserSafety.
Context `{Extern}.

Lemma laser_tail_safe laser_scan env pose laser_index :
  ensures (laser_ready laser_index)
    (let* delta := laser_gate pose in
     let* force_publication := laser_motion pose delta laser_index in
     laser_score_and_publish laser_scan env pose laser_index force_publication)
    (λ _ _, True).
Proof.
  unfold laser_gate, laser_motion, laser_score_and_publish, laser_update,
    laser_publish, publish_cloud, save_pose_if_due, savePoseToServer.
  eapply ensures_weaken with (Q := λ _, laser_ready laser_index);
    [intros s Hs; exact Hs|auto|].
  repeat ensures_step (laser_ready laser_index).
  all: laser_ready_tac.
Qed.

(** The registration of the laser of a scan *)
Lemma register_laser_safe laser_scan env :
  ensures (λ s, registry_ok s /\ is_Some (pf_ s) /\ is_Some (odom_ s)
                /\ is_Some (laser_ s))
    (register_laser laser_scan env)
    (λ laser_index s, laser_ready laser_index s).
Proof.
  intros s (Hreg & Hpf & Hod & [l Hl]).
  destruct Hreg as (Hlen & Hsize & Hidx). cbn in Hlen, Hsize, Hidx.
  unfold register_laser.
  erewrite bind_run by reflexivity. cbv beta. rewrite prepend_nil.
  destruct (frame_to_laser_ s !! scan_frame_id laser_scan) as [i|] eqn:Hf.
  - cbn. specialize (Hidx _ _ Hf).
    split; [exact Hpf|]. split; [exact Hod|].
    unfold laser_flag, laser_at. destruct (decide (0 <= i)%Z); [|lia].
    split; apply lookup_lt_is_Some; lia.
  - rewrite Hl. cbn [deref].
    erewrite bind_run by reflexivity. cbv beta.
    erewrite bind_run by reflexivity. cbv beta.
    erewrite bind_run by reflexivity. cbv beta.
    rewrite !prepend_nil.
    destruct (le_laser_pose env) as [laser_pose|].
    2: { erewrite bind_run by reflexivity. exact Logic.I. }
    erewrite bind_run by reflexivity. cbv beta. rewrite prepend_nil.
    set (st1 := set_lasers_update_ _ _).
    assert (Hsome : is_Some (laser_at st1 (Z.of_nat (size (frame_to_laser_ s))))).
    { unfold laser_at, st1. cbn.
      destruct (decide (0 <= Z.of_nat (size (frame_to_laser_ s)))%Z); [|lia].
      apply lookup_lt_is_Some. rewrite length_app. cbn. lia. }
    destruct Hsome as [l1 Hl1]. rewrite Hl1. cbn [deref].
    do 3 (erewrite bind_run by reflexivity; cbv beta).
    rewrite !prepend_nil. cbn [ret result final fst snd].
    unfold laser_ready, laser_flag, laser_at, st1. cbn.
    split; [exact Hpf|]. split; [exact Hod|].
    destruct (decide (0 <= Z.of_nat (size (frame_to_laser_ s)))%Z); [|lia].
    split; apply lookup_lt_is_Some;
      rewrite ?length_insert, length_app; cbn; lia.
Qed.

(** X6: a scan never takes the laser callback to a read outside a vector
    or through a null pointer: with a consistent laser registry and, once a
    map is there, the filter, the odometry and the laser object allocated,
    [laserReceived] ends or returns, whatever the scan, the answers of the
    transform listener and the filter's clusters. *)
Theorem laserReceived_does_not_fault st laser_scan env :
  registry_ok st ->
  (is_Some (map_ st) ->
   is_Some (pf_ st) /\ is_Some (odom_ st) /\ is_Some (laser_ st)) ->
  result (laserReceived laser_scan env st) ≠ Fault.
Proof.
  intros Hreg Hobj.
  set (P := λ s : node,
         registry_ok s /\
         (is_Some (map_ s) ->
          is_Some (pf_ s) /\ is_Some (odom_ s) /\ is_Some (laser_ s))).
  assert (Hens : ensures P (laserReceived laser_scan env) (λ _ _, True)).
  { unfold laserReceived.
    apply (ensures_bind _ _ _ (λ _, P));
      [apply ensures_modify; intros s Hs; exact Hs|].
    intros _. apply ensures_bind_get_eq. intros st0 [Hreg0 Hobj0].
    destruct (map_ st0) as [m|] eqn:Hmap; [|apply ensures_return].
    destruct Hobj0 as (Hpf & Hod & Hl); [now eexists|].
    eapply ensures_bind.
    { eapply ensures_weaken; [| |apply register_laser_safe].
      - intros s <-. auto.
      - intros a s Hs. exact Hs. }
    intros laser_index.
    eapply ensures_bind with (Q := λ _, laser_ready laser_index).
    { unfold getOdomPose. destruct (le_odom_pose env);
        repeat ensures_step (laser_ready laser_index); laser_ready_tac. }
    intros [pose|].
    - apply laser_tail_safe.
    - repeat ensures_step (laser_ready laser_index); laser_ready_tac. }
  specialize (Hens st (conj Hreg Hobj)).
  intros Hf. now rewrite Hf in Hens.
Qed.
End LaserSafety.

(** The scan of two beams arrives at the node of the small instance. *)
Lemma laserReceived_does_not_fault_witness :
  result (@laserReceived example_extern example_scan example_laser_env
            example_node) ≠ Fault.
Proof.
  apply (@laserReceived_does_not_fault example_extern).
  - unfold registry_ok, registry_consistent, laser_registry, example_node.
    cbn [lasers_ lasers_update_ frame_to_laser_ fst snd length].
    rewrite map_size_singleton.
    split; [reflexivity|]. split; [lia|].
    intros frame k Hk. apply lookup_singleton_Some in Hk as [_ <-]. lia.
  - intros _. cbn. eauto.
Defined.


Ltac camera_ready_tac :=
  intros;
  repeat match goal with
    | Hr : camera_ready _ |- _ => destruct Hr as (? & ? & ? & ? & ?)
    | Hr : camera_counted _ |- _ => destruct Hr as (? & ? & ?)
    end;
  repeat match goal with
    | |- camera_ready _ => split; [|split; [|split; [|split]]]
    | |- camera_counted _ => split; [|split]
    end;
  first [ assumption | exact Logic.I | contradiction
        | (eexists; reflexivity)
        | (unfold in_int; cbn; lia)
        | solve [auto]
        | idtac ].

Section CameraSafety.
Context `{Extern}.

Lemma camera_publish_safe msg env obs resampled force_publication :
  ensures camera_counted
    (camera_publish msg env obs resampled force_publication;;;
     emit EvPublishPaths)
    (λ _ _, True).
Proof.
  unfold camera_publish, save_pose_if_due, savePoseToServer.
  eapply ensures_weaken with (Q := λ _, camera_counted);
    [intros s Hs; exact Hs|auto|].
  repeat ensures_step camera_counted.
  all: camera_ready_tac.
Qed.

Lemma camera_update_safe env obs pose :
  ensures camera_ready (camera_update env obs pose) (λ _, camera_counted).
Proof.
  unfold camera_update, publish_cloud.
  apply ensures_bind_get. intros st Hst.
  eapply ensures_weaken with (P := camera_counted)
    (Q := λ _, camera_counted); [|auto|].
  { intros s (? & ? & ? & _). repeat split; assumption. }
  repeat ensures_step camera_counted.
  all: camera_ready_tac.
Qed.

(** X7: a detection message never takes the camera callback to a null
    pointer, a division by zero or an overflow of the cycle count: with the
    filter, the odometry and the marker object allocated once a map is
    there, a resample interval other than 0 and a count below [INT_MAX],
    [detectionCallback] ends or returns. *)
Theorem detectionCallback_does_not_fault st msg env :
  (is_Some (map_ st) -> camera_ready st) ->
  result (detectionCallback msg env st) ≠ Fault.
Proof.
  intros Hobj.
  set (P := λ s : node, is_Some (map_ s) -> camera_ready s).
  assert (Hens : ensures P (detectionCallback msg env) (λ _ _, True)).
  { unfold detectionCallback.
    apply ensures_bind_get_eq. intros st0 Hobj0.
    destruct (map_ st0) as [m|] eqn:Hmap; [|apply ensures_return].
    assert (Hst0 : camera_ready st0) by (apply Hobj0; rewrite Hmap; eauto).
    cbv zeta.
    apply ensures_weaken with (P := camera_ready) (Q := λ _ _, True);
      [intros s Heq; rewrite <- Heq; exact Hst0|auto|].
    unfold camera_setup, getOdomPose, camera_gate, camera_motion,
      camera_score_and_publish.
    apply (ensures_bind _ _ _ (λ _, camera_ready)).
    { repeat ensures_step camera_ready; camera_ready_tac. }
    intros _.
    apply (ensures_bind _ _ _ (λ _, camera_ready)).
    { destruct (de_odom_pose env);
        repeat ensures_step camera_ready; camera_ready_tac. }
    intros [pose|]; [|repeat ensures_step camera_ready; camera_ready_tac].
    apply (ensures_bind _ _ _ (λ _, camera_ready)).
    { repeat ensures_step camera_ready; camera_ready_tac. }
    intros delta.
    apply (ensures_bind _ _ _ (λ _, camera_ready)).
    { repeat ensures_step camera_ready; camera_ready_tac. }
    intros force_publication.
    apply ensures_bind_get. intros st1 Hst1.
    eapply ensures_bind with (Q := λ _, camera_counted).
    - destruct (marker_update st1); [apply camera_update_safe|].
      apply ensures_ret. intros s (? & ? & ? & _). repeat split; assumption.
    - intros resampled. apply camera_publish_safe. }
  specialize (Hens st Hobj).
  intros Hf. now rewrite Hf in Hens.
Qed.

End CameraSafety.

(** A detection of one marker arrives at that node. *)
Lemma detectionCallback_does_not_fault_witness :
  result (@detectionCallback example_extern example_detection
            example_detection_env example_node) ≠ Fault.
Proof.
  apply (@detectionCallback_does_not_fault example_extern).
  intros _. unfold camera_ready, in_int. cbn.
  split; [eauto|]. split; [eauto|]. split; [eauto|]. split; [discriminate|lia].
Defined.

(** ** Invariants that read the state *)

Section Keeps.
Context `{Extern}.

Lemma final_bind {A B} (m : M A) (k : A -> M B) s :
  final (bind m k s) =
  match result (m s) with
  | Normal a => final (k a (final (m s)))
  | _ => final (m s)
  end.
Proof.
  unfold bind, prepend, final, result.
  destruct (m s) as [[[a| |] s1] t1]; reflexivity.
Qed.

Lemma maintains_keeps {A} I good (m : M A) : maintains I good m -> keeps I m.
Proof. intros Hm s Hs. now apply Hm. Qed.

Lemma keeps_bind {A B} I (m : M A) (k : A -> M B) :
  keeps I m -> (forall a, keeps I (k a)) -> keeps I (bind m k).
Proof.
  intros Hm Hk s Hs. rewrite final_bind. specialize (Hm s Hs).
  destruct (result (m s)); auto. now apply Hk.
Qed.

Lemma keeps_call_fn I m : keeps I m -> keeps I (call_fn m).
Proof.
  intros Hm s Hs. specialize (Hm s Hs). unfold call_fn, final in *.
  destruct (m s) as [[[a| |] s1] t1]; exact Hm.
Qed.

End Keeps.

(** A step that takes the state read by [get] into account *)
Ltac maintains_step_get :=
  match goal with
  | |- maintains _ _ (bind get _) => apply maintains_bind_get; intros ? ?
  | _ => maintains_step
  end.

Section Registry.
Context `{Extern}.

Lemma registry_all_true r st s :
  registry_is r st -> registry_is r s ->
  registry_is r (set_lasers_update_ (all_true (lasers_update_ st)) s).
Proof.
  unfold registry_is, laser_registry, all_true. cbn.
  intros <- [= Hl Hu Hf]. now rewrite length_fmap, Hl, Hf.
Qed.

Lemma registry_insert r st s k b :
  registry_is r st -> registry_is r s ->
  registry_is r (set_lasers_update_ (<[k := b]> (lasers_update_ st)) s).
Proof.
  unfold registry_is, laser_registry. cbn.
  intros <- [= Hl Hu Hf]. now rewrite length_insert, Hl, Hf.
Qed.

(** After the registration, the laser callback leaves the registry as it
    is. *)
Lemma registry_laser_rest r laser_scan env laser_index :
  maintains (registry_is r) any_event
    (let* odom := getOdomPose (le_odom_pose env) in
     match odom with
     | None =>
         emit (EvLog ERROR
           "Couldn't determine robot's pose associated with laser scan");;;
         return_
     | Some pose =>
         let* delta := laser_gate pose in
         let* force_publication := laser_motion pose delta laser_index in
         laser_score_and_publish laser_scan env pose laser_index
           force_publication
     end).
Proof.
  unfold getOdomPose, laser_gate, laser_motion, laser_score_and_publish,
    laser_update, laser_publish, save_pose_if_due, savePoseToServer,
    publish_cloud.
  repeat maintains_step_get.
  all: try (intros; first [now apply registry_all_true
                          |now apply registry_insert]).
Qed.

Lemma keeps_registry_is {A} (m : M A) :
  (forall r, maintains (registry_is r) any_event m) -> keeps registry_ok m.
Proof.
  intros Hm s Hs. destruct (Hm (laser_registry s) s eq_refl) as [Hr _].
  unfold registry_ok. now rewrite Hr.
Qed.

Lemma keeps_always {A} I (m : M A) : (forall s, I (final (m s))) -> keeps I m.
Proof. intros Hm s _. apply Hm. Qed.

(** The registration keeps the registry consistent: a known frame changes
    nothing; a new frame gets the next index, and when its pose cannot be
    looked up only the two vectors grow. *)
Lemma register_laser_registry laser_scan env :
  keeps registry_ok (register_laser laser_scan env).
Proof.
  intros s Hs. pose proof Hs as (Hlen & Hsize & Hidx).
  cbn in Hlen, Hsize, Hidx.
  unfold register_laser.
  erewrite bind_run by reflexivity. cbv beta. rewrite prepend_nil.
  destruct (frame_to_laser_ s !! scan_frame_id laser_scan) as [i|] eqn:Hf.
  { exact Hs. }
  destruct (laser_ s) as [l|]; cbn [deref].
  2: { erewrite bind_fault by reflexivity. exact Hs. }
  do 3 (erewrite bind_run by reflexivity; cbv beta).
  rewrite !prepend_nil.
  destruct (le_laser_pose env) as [laser_pose|].
  2: { erewrite bind_run by reflexivity. cbv beta.
       unfold registry_ok, registry_consistent, laser_registry. cbn.
       rewrite !length_app. cbn. split; [lia|]. split; [lia|exact Hidx]. }
  erewrite bind_run by reflexivity. cbv beta. rewrite prepend_nil.
  set (st1 := set_lasers_update_ _ _).
  assert (Hsome : is_Some (laser_at st1 (Z.of_nat (size (frame_to_laser_ s))))).
  { unfold laser_at, st1. cbn.
    destruct (decide (0 <= Z.of_nat (size (frame_to_laser_ s)))%Z); [|lia].
    apply lookup_lt_is_Some. rewrite length_app. cbn. lia. }
  destruct Hsome as [l1 Hl1]. rewrite Hl1. cbn [deref].
  do 3 (erewrite bind_run by reflexivity; cbv beta).
  rewrite !prepend_nil. cbn [ret result final fst snd].
  unfold registry_ok, registry_consistent, laser_registry, st1.
  cbn [lasers_ lasers_update_ frame_to_laser_ set_lasers_ set_lasers_update_
       set_frame_to_laser_ fst snd].
  rewrite !length_insert, !length_app, (map_size_insert_None _ _ _ Hf).
  cbn [length]. split; [lia|]. split; [lia|].
  intros frame i [[_ Hi]|[_ Hi]]%lookup_insert_Some; [lia|].
  specialize (Hidx _ _ Hi). lia.
Qed.

Lemma registry_laserReceived laser_scan env :
  keeps registry_ok (laserReceived laser_scan env).
Proof.
  unfold laserReceived.
  apply keeps_bind; [intros s Hs; exact Hs|intros _].
  intros s Hs.
  erewrite bind_run by reflexivity. cbv beta. rewrite prepend_nil.
  destruct (map_ s); [|exact Hs].
  revert s Hs. apply keeps_bind; [apply register_laser_registry|].
  intros laser_index.
  apply keeps_registry_is. intros r. apply registry_laser_rest.
Qed.

(** What does not touch the registry *)
Lemma registry_detectionCallback r msg env :
  maintains (registry_is r) any_event (detectionCallback msg env).
Proof.
  unfold detectionCallback, camera_setup, getOdomPose, camera_gate,
    camera_motion, camera_score_and_publish, camera_update, camera_publish,
    save_pose_if_due, savePoseToServer, publish_cloud.
  maintains_tac.
Qed.

Lemma registry_applyInitialPose r :
  maintains (registry_is r) any_event applyInitialPose.
Proof. unfold applyInitialPose. maintains_tac. Qed.

Lemma registry_handleInitialPoseMessage r msg env :
  maintains (registry_is r) any_event (handleInitialPoseMessage msg env).
Proof.
  unfold handleInitialPoseMessage. maintains_tac; apply registry_applyInitialPose.
Qed.

Lemma registry_reconfigureCB r config :
  maintains (registry_is r) any_event (reconfigureCB config).
Proof.
  unfold reconfigureCB, instantiate_odom, instantiate_laser, instantiate_marker.
  maintains_tac.
Qed.

(** A map message empties the registry. *)
Lemma registry_handleMapMessage msg ps s :
  registry_ok (final (handleMapMessage msg ps s)).
Proof.
  unfold handleMapMessage.
  erewrite bind_run by reflexivity. cbv beta.
  erewrite bind_run by reflexivity. cbv beta.
  assert (Hreg : forall s0, registry_is (0%nat, 0%nat, ∅) s0 -> registry_ok s0).
  { intros s0 Hr. unfold registry_ok. rewrite Hr.
    split; [reflexivity|]. split; [cbn; rewrite map_size_empty; lia|].
    intros frame i Hi. cbn in Hi. now rewrite lookup_empty in Hi. }
  destruct (negb (bool_decide _)); cbn [when].
  all: repeat (erewrite bind_run by reflexivity; cbv beta).
  all: rewrite !final_prepend.
  all: destruct (convertMap msg) as [m|]; cbn [deref];
    [|erewrite bind_fault by reflexivity; apply Hreg; reflexivity].
  all: repeat (erewrite bind_run by reflexivity; cbv beta).
  all: rewrite !final_prepend.
  all: destruct (index_free_space m) as [free|]; cbn [deref];
    [|erewrite bind_fault by reflexivity; apply Hreg; reflexivity].
  all: rewrite ?final_prepend.
  all: match goal with
       | |- registry_ok (final (?m ?s0)) =>
           assert (Hm : maintains (registry_is (0%nat, 0%nat, ∅)) any_event m)
             by (unfold updatePoseFromServer, instantiate_odom,
                   instantiate_laser, instantiate_marker;
                 maintains_tac; apply registry_applyInitialPose);
           apply Hreg, Hm; reflexivity
       end.
Qed.

(** X8: the laser registry stays consistent.  A map message leaves it
    empty, and whatever arrives at the node, and however its handling ends,
    the vectors [lasers_] and [lasers_update_] keep one length and every
    index in [frame_to_laser_] stays inside them. *)
Theorem laser_registry_consistent :
  (forall msg ps st, registry_ok (final (handleMapMessage msg ps st))) /\
  (forall i st, registry_ok st -> registry_ok (final (handle i st))).
Proof.
  split; [apply registry_handleMapMessage|].
  intros i. change (keeps registry_ok (handle i)).
  destruct i; unfold handle.
  - apply registry_laserReceived.
  - apply keeps_registry_is. intros r. apply registry_detectionCallback.
  - apply keeps_registry_is. intros r. apply registry_handleInitialPoseMessage.
  - unfold mapReceived. intros s Hs.
    erewrite bind_run by reflexivity. cbv beta. rewrite prepend_nil.
    destruct (_ && _); [exact Hs|].
    revert s Hs. apply keeps_bind.
    + apply keeps_call_fn, keeps_always, registry_handleMapMessage.
    + intros _ s Hs. exact Hs.
  - apply keeps_registry_is. intros r.
    unfold globalLocalizationCallback. maintains_tac.
  - apply keeps_registry_is. intros r.
    unfold nomotionUpdateCallback. maintains_tac.
  - unfold setMapCallback.
    apply keeps_bind; [|intros _; intros s Hs; exact Hs].
    apply keeps_bind.
    + apply keeps_call_fn, keeps_always, registry_handleMapMessage.
    + intros _. apply keeps_bind; [|intros _ s Hs; exact Hs].
      apply keeps_call_fn, keeps_registry_is. intros r.
      apply registry_handleInitialPoseMessage.
  - apply keeps_registry_is. intros r. apply registry_reconfigureCB.
Qed.

End Registry.

(** The registry of the small instance, one laser under one frame, after a
    scan *)
Lemma laser_registry_consistent_witness :
  registry_ok (final (@handle example_extern
                        (InLaserScan example_scan example_laser_env) example_node)).
Proof.
  apply (proj2 (@laser_registry_consistent example_extern)).
  unfold registry_ok, registry_consistent, laser_registry, example_node.
  cbn [lasers_ lasers_update_ frame_to_laser_ fst snd length].
  rewrite map_size_singleton.
  split; [reflexivity|]. split; [lia|].
  intros frame k Hk. apply lookup_singleton_Some in Hk as [_ <-]. lia.
Defined.

(** ** The callbacks before a map has arrived *)

(** X9: without a map the sensor callbacks and the global localization
    service do nothing: no event, no change of the node, except that a scan
    still records the time of its arrival. *)
Theorem callbacks_without_map `{Extern} st :
  map_ st = None ->
  (forall laser_scan env,
     laserReceived laser_scan env st
     = (Returned, set_last_laser_received_ts_ (le_now env) st, [])) /\
  (forall msg env, detectionCallback msg env st = (Returned, st, [])) /\
  globalLocalizationCallback st = (Normal true, st, []).
Proof.
  intros Hmap. split; [|split].
  - intros laser_scan env. unfold laserReceived.
    erewrite bind_run by reflexivity. cbv beta.
    erewrite bind_run by reflexivity. cbv beta.
    cbn [map_ set_last_laser_received_ts_]. rewrite Hmap. reflexivity.
  - intros msg env. unfold detectionCallback.
    erewrite bind_run by reflexivity. cbv beta. rewrite Hmap. reflexivity.
  - unfold globalLocalizationCallback.
    erewrite bind_run by reflexivity. cbv beta. rewrite Hmap. reflexivity.
Qed.

(** A node that has just been constructed over the map topic *)
Lemma callbacks_without_map_witness :
  @detectionCallback example_extern example_detection example_detection_env
    (set_map_ None example_node)
  = (Returned, set_map_ None example_node, []).
Proof.
  apply (proj1 (proj2 (@callbacks_without_map example_extern
                         (set_map_ None example_node) eq_refl))).
Defined.

(** ** What the sensor callbacks never do *)

Section Never.
Context `{Extern}.

Lemma silent_save_pose_if_due p now :
  (forall k v, p (EvSetParam k v) = false) -> silent p (save_pose_if_due now).
Proof.
  intros Hp. unfold save_pose_if_due. silent_tac.
  now apply silent_savePoseToServer.
Qed.

End Never.

(** X10: a laser scan never reaches the marker model and a detection
    message never reaches the laser model, and neither callback initializes
    the filter anew: that is left to map messages, initial poses, the global
    localization service and reconfiguration. *)
Theorem sensor_callbacks_stay_in_lane `{Extern} laser_scan lenv msg denv :
  silent is_marker_scoring (laserReceived laser_scan lenv) /\
  silent is_filter_init (laserReceived laser_scan lenv) /\
  silent is_laser_scoring (detectionCallback msg denv) /\
  silent is_filter_init (detectionCallback msg denv).
Proof.
  repeat split.
  1,2: unfold laserReceived, register_laser, getOdomPose, laser_gate,
         laser_motion, laser_score_and_publish, laser_update, laser_publish,
         publish_cloud; silent_tac;
       now apply silent_save_pose_if_due.
  all: unfold detectionCallback, camera_setup, getOdomPose, camera_gate,
         camera_motion, camera_score_and_publish, camera_update,
         camera_publish, publish_cloud; silent_tac;
       now apply silent_save_pose_if_due.
Qed.

(** ** The expiry of the transform on the laser path *)

Section LaserStamps.
Context `{Extern}.

Lemma settings_stamp st st' stamp tf :
  same_broadcast_settings st st' ->
  stamps_are st (stamp + transform_tolerance_ st)
    (EvSendTransform tf (stamp + transform_tolerance_ st')
       (global_frame_id_ st') (odom_frame_id_ st')).
Proof. intros (_ & _ & _ & ->) _ _. reflexivity. Qed.

End LaserStamps.

(** X11: on the laser path every broadcast of the map->odom transform, in an
    update cycle as well as in a cycle that republishes the last
    correction, carries the stamp of the scan plus [transform_tolerance_]. *)
Theorem laser_broadcasts_carry_expiry `{Extern} st laser_scan env :
  Forall (stamps_are st (scan_stamp laser_scan + transform_tolerance_ st))
    (trace (laserReceived laser_scan env st)).
Proof.
  assert (Hm : maintains (same_broadcast_settings st)
                 (stamps_are st (scan_stamp laser_scan + transform_tolerance_ st))
                 (laserReceived laser_scan env)).
  { unfold laserReceived, register_laser, getOdomPose, laser_gate,
      laser_motion, laser_score_and_publish, laser_update, laser_publish,
      save_pose_if_due, savePoseToServer, publish_cloud.
    repeat maintains_step_get.
    all: now apply settings_stamp. }
  apply Hm. repeat split.
Qed.

(** ** What a map message installs *)

Section MapMessage.
Context `{Extern}.

Lemma call_pf_run f s pf :
  pf_ s = Some pf -> call_pf f s = (Normal tt, set_pf_ (Some (f pf)) s, []).
Proof.
  intros Hpf. unfold call_pf.
  erewrite bind_run by reflexivity. cbv beta. rewrite Hpf. reflexivity.
Qed.

Lemma freeMapDependentMemory_run s :
  freeMapDependentMemory s =
    (Normal tt,
     set_marker_ None (set_laser_ None (set_odom_ None
       (set_pf_ None (set_map_ None s)))), []).
Proof. reflexivity. Qed.

Lemma updatePoseFromServer_run ps s :
  updatePoseFromServer ps s =
    (Normal tt,
     set_init_cov_
       (mk_vec (param_double ps "initial_cov_xx" (0.5 * 0.5))
               (param_double ps "initial_cov_yy" (0.5 * 0.5))
               (param_double ps "initial_cov_aa" ((PI / 12) * (PI / 12))))
       (set_init_pose_
          (mk_vec (param_double ps "initial_pose_x" 0)
                  (param_double ps "initial_pose_y" 0)
                  (param_double ps "initial_pose_a" 0)) s), []).
Proof. reflexivity. Qed.

Lemma instantiate_odom_run s :
  instantiate_odom s =
    (Normal tt,
     set_odom_ (Some (mk_odom (odom_model_type_ s) (alpha1_ s) (alpha2_ s)
                        (alpha3_ s) (alpha4_ s) (alpha5_ s))) s, []).
Proof. reflexivity. Qed.

Lemma instantiate_laser_run b s :
  exists setting t,
    instantiate_laser b s =
      (Normal tt,
       set_laser_ (Some (mk_laser (max_beams_ s) (map_ s) (Some setting)
                           pf_vector_zero)) s,
       t).
Proof.
  unfold instantiate_laser.
  erewrite bind_run by reflexivity. cbv beta. rewrite ?prepend_nil. cbv zeta.
  destruct (laser_model_type_ s); eexists; eexists; reflexivity.
Qed.

Lemma instantiate_marker_run b s :
  exists mk t, instantiate_marker b s = (Normal tt, set_marker_ (Some mk) s, t).
Proof.
  unfold instantiate_marker.
  erewrite bind_run by reflexivity. cbv beta. rewrite ?prepend_nil.
  destruct (marker_model_type_ s), b; eexists; eexists; reflexivity.
Qed.

(** [applyInitialPose] on a node with a map and a filter: a stored
    hypothesis is applied and cleared. *)
Lemma applyInitialPose_run s :
  is_Some (map_ s) -> is_Some (pf_ s) ->
  exists s' t,
    applyInitialPose s = (Normal tt, s', t) /\
    map_ s' = map_ s /\ free_space_indices s' = free_space_indices s /\
    laser_registry s' = laser_registry s /\ is_Some (pf_ s') /\
    odom_ s' = odom_ s /\ laser_ s' = laser_ s /\ marker_ s' = marker_ s /\
    first_map_only_ s' = first_map_only_ s /\
    initial_pose_hyp_ s' = None /\
    (pf_init_scan s = false -> pf_init_scan s' = false) /\
    (pf_init_cam s = false -> pf_init_cam s' = false) /\
    (forall h, initial_pose_hyp_ s = Some h ->
     pf_init_scan s' = false /\ pf_init_cam s' = false /\
     t = [EvPfInit (pf_pose_mean h) (pf_pose_cov h)] /\
     exists pf0,
       pf_ s' = Some (pf_init pf0 (pf_pose_mean h) (pf_pose_cov h))).
Proof.
  intros [m Hm] [pf Hpf]. unfold applyInitialPose.
  erewrite bind_run by reflexivity. cbv beta. rewrite ?prepend_nil.
  rewrite Hm. destruct (initial_pose_hyp_ s) as [h|] eqn:Hh.
  - unfold call_pf.
    erewrite bind_run by (erewrite bind_run by reflexivity; cbv beta;
                          rewrite Hpf; reflexivity).
    do 4 (erewrite bind_run by reflexivity; cbv beta).
    eexists; eexists. split; [reflexivity|].
    cbn. rewrite Hm.
    do 11 (split; [first [reflexivity|now eexists|tauto]|]).
    intros h' [= <-]. do 3 (split; [reflexivity|]). eexists. reflexivity.
  - eexists; eexists. split; [reflexivity|].
    rewrite Hpf. do 11 (split; [first [reflexivity|now eexists|tauto]|]).
    intros h' [=].
Qed.

End MapMessage.

(** One step of a run: the first statement of the program is executed. *)
Ltac run_step :=
  first
    [ erewrite (bind_run get) by reflexivity
    | erewrite (bind_run (modify _)) by reflexivity
    | erewrite (bind_run (emit _)) by reflexivity
    | erewrite (bind_run (ret _)) by reflexivity
    | erewrite (bind_run freeMapDependentMemory)
        by apply freeMapDependentMemory_run
    | erewrite (bind_run (updatePoseFromServer _))
        by apply updatePoseFromServer_run
    | erewrite (bind_run instantiate_odom) by apply instantiate_odom_run
    | erewrite (bind_run (call_pf _)) by (apply call_pf_run; reflexivity) ];
  cbv beta; rewrite ?prepend_nil.


Section MapMessageInstalls.
Context `{Extern}.

(** The second half of [handleMapMessage], from the initialization of the
    new filter on *)
Lemma handleMapMessage_tail_run s m pf :
  map_ s = Some m -> pf_ s = Some pf ->
  exists s' t,
    (let* st1 := get in
     call_pf (λ pf, pf_init pf (init_pose_ st1) (diag_cov (init_cov_ st1)));;;
     emit (EvPfInit (init_pose_ st1) (diag_cov (init_cov_ st1)));;;
     modify (set_pf_init_ false);;;
     modify (set_pf_init_scan false);;;
     modify (set_pf_init_cam false);;;
     instantiate_odom;;;
     instantiate_laser false;;;
     instantiate_marker false;;;
     applyInitialPose) s = (Normal tt, s', t) /\
    map_ s' = Some m /\ free_space_indices s' = free_space_indices s /\
    laser_registry s' = laser_registry s /\
    is_Some (pf_ s') /\ is_Some (odom_ s') /\ is_Some (marker_ s') /\
    (exists l, laser_ s' = Some l /\ al_map l = Some m) /\
    pf_init_scan s' = false /\ pf_init_cam s' = false /\
    initial_pose_hyp_ s' = None /\
    existsb is_filter_init t = true /\
    first_map_only_ s' = first_map_only_ s /\
    (forall h, initial_pose_hyp_ s = Some h ->
       EvPfInit (pf_pose_mean h) (pf_pose_cov h) ∈ t /\
       exists pf0,
         pf_ s' = Some (pf_init pf0 (pf_pose_mean h) (pf_pose_cov h))).
Proof.
  intros Hmap Hpf.
  run_step.
  erewrite (bind_run (call_pf _)) by (apply call_pf_run; exact Hpf). cbv beta.
  do 5 run_step.
  match goal with
  | |- context [bind (instantiate_laser false) _ ?s0] =>
      destruct (instantiate_laser_run false s0) as (setting & tl & Hl)
  end.
  erewrite bind_run by exact Hl. cbv beta.
  match goal with
  | |- context [bind (instantiate_marker false) _ ?s0] =>
      destruct (instantiate_marker_run false s0) as (mk & tm & Hmk)
  end.
  erewrite bind_run by exact Hmk. cbv beta.
  rewrite ?prepend_prepend.
  match goal with
  | |- context [applyInitialPose ?s0] =>
      destruct (applyInitialPose_run s0)
        as (s' & ta & -> & Ha1 & Ha2 & Ha3 & Ha4 & Ha5 & Ha6 & Ha7 & Hfm
            & Ha8 & Ha9 & Ha10 & Ha11);
        [cbn; rewrite Hmap; eexists; reflexivity|eexists; reflexivity|]
  end.
  exists s'. eexists. split; [reflexivity|].
  rewrite Ha1, Ha2, Ha3, Ha6, Ha7, Ha8.
  split; [exact Hmap|]. split; [reflexivity|]. split; [reflexivity|].
  split; [exact Ha4|].
  split; [rewrite Ha5; eexists; reflexivity|].
  split; [eexists; reflexivity|].
  split; [eexists; split; [reflexivity|exact Hmap]|].
  split; [apply Ha9; reflexivity|].
  split; [apply Ha10; reflexivity|].
  split; [reflexivity|].
  split.
  { rewrite !existsb_app. cbn [existsb is_filter_init orb app].
    rewrite ?orb_true_r. reflexivity. }
  split; [rewrite Hfm; reflexivity|].
  - intros h Hh. destruct (Ha11 h Hh) as (_ & _ & -> & Hpf0).
    split; [|exact Hpf0]. apply elem_of_app. right. constructor.
Qed.

(** The run of a map message that converts *)
Lemma handleMapMessage_converted_run msg ps st m free :
  convertMap msg = Some m -> index_free_space m = Some free ->
  exists s' t,
    handleMapMessage msg ps st = (Normal tt, s', t) /\
    map_ s' = Some m /\ free_space_indices s' = free /\
    laser_registry s' = (0%nat, 0%nat, ∅) /\
    is_Some (pf_ s') /\ is_Some (odom_ s') /\ is_Some (marker_ s') /\
    (exists l, laser_ s' = Some l /\ al_map l = Some m) /\
    pf_init_scan s' = false /\ pf_init_cam s' = false /\
    initial_pose_hyp_ s' = None /\
    existsb is_filter_init t = true /\
    first_map_only_ s' = first_map_only_ st /\
    (forall h, initial_pose_hyp_ st = Some h ->
       EvPfInit (pf_pose_mean h) (pf_pose_cov h) ∈ t /\
       exists pf0,
         pf_ s' = Some (pf_init pf0 (pf_pose_mean h) (pf_pose_cov h))).
Proof.
  intros Hconv Hfree.
  unfold handleMapMessage.
  do 2 run_step.
  destruct (negb (bool_decide _)); cbn [when].
  all: do 5 run_step.
  all: rewrite Hconv; cbn [deref].
  all: do 2 run_step.
  all: rewrite Hfree; cbn [deref].
  all: do 4 run_step.
  all: rewrite ?prepend_prepend.
  all: match goal with
       | |- context [prepend _ (?tail ?s0)] =>
           destruct (handleMapMessage_tail_run s0 m _ eq_refl eq_refl)
             as (s' & t & Hrun & H1 & H2 & H3 & H4 & H5 & H6 & H7 & H8 & H9
                 & H10 & H11 & H12 & H13)
       end.
  all: rewrite Hrun; exists s'; eexists.
  all: split; [unfold prepend; cbn [result final trace fst snd]; reflexivity|].
  all: rewrite H2, H3, existsb_app, H11, orb_true_r.
  all: do 11 (split; [assumption || reflexivity|]).
  all: split; [rewrite H12; reflexivity|].
  all: intros h Hh; destruct (H13 h Hh) as [Hin Hpf0].
  all: split; [apply elem_of_app; right; exact Hin|exact Hpf0].
Qed.


End MapMessageInstalls.


(** ** The no-motion update service *)

(** X13: the no-motion update service sets both force flags and no other
    member, and the next observation of either sensor is then scored without
    any motion: a detection message as soon as it holds a marker, a scan of
    a registered laser as soon as its angles can be transformed. *)
Theorem nomotion_update_forces_next_update `{Extern} st :
  let st' := set_m_force_update_cam true (set_m_force_update_scan true st) in
  nomotionUpdateCallback st = (Normal true, st', []) /\
  (forall msg env m tfp pf od mk,
     map_ st = Some m -> pf_init_cam st = true ->
     de_odom_pose env = Some tfp ->
     pf_ st = Some pf -> odom_ st = Some od -> marker_ st = Some mk ->
     (occurs is_marker_scoring (detectionCallback msg env st') = true
      <-> DetectedMarkers msg ≠ [])) /\
  (forall laser_scan env m tfp pf od sensor laser_index pending,
     map_ st = Some m -> pf_init_scan st = true ->
     frame_to_laser_ st !! scan_frame_id laser_scan = Some laser_index ->
     laser_flag st laser_index = Some pending ->
     laser_at st laser_index = Some sensor ->
     le_odom_pose env = Some tfp ->
     pf_ st = Some pf -> odom_ st = Some od ->
     (occurs is_laser_scoring (laserReceived laser_scan env st') = true
      <-> is_Some (le_scan_angles env))).
Proof.
  cbv zeta. split; [reflexivity|]. split.
  - intros msg env m tfp pf od mk Hmap Hinit Hodom Hpf Hod Hmk.
    rewrite (camera_scoring_iff _ msg env m tfp pf od mk) by assumption.
    unfold gate_open. cbn [m_force_update_cam set_m_force_update_cam]. tauto.
  - intros laser_scan env m tfp pf od sensor laser_index pending
      Hmap Hinit Hframe Hflag Hsensor Hodom Hpf Hod.
    rewrite (laser_scoring_iff _ laser_scan env m tfp pf od sensor laser_index
               pending) by assumption.
    unfold gate_open.
    cbn [m_force_update_scan set_m_force_update_scan set_m_force_update_cam].
    tauto.
Qed.

(** After the service, a detection message with a marker is scored on the
    small instance although the robot has not moved. *)
Lemma nomotion_update_forces_next_update_witness :
  occurs is_marker_scoring
    (@detectionCallback example_extern example_detection example_detection_env
       (set_m_force_update_cam true
          (set_m_force_update_scan true
             (set_m_force_update_cam false example_node)))) = true
  <-> DetectedMarkers example_detection ≠ [].
Proof.
  apply (proj1 (proj2 (@nomotion_update_forces_next_update example_extern
                         (set_m_force_update_cam false example_node)))
           example_detection example_detection_env example_map pf_vector_zero
           0%nat example_odom example_marker);
    reflexivity.
Defined.

(** ** When the odometric pose is not available *)

(** X14: an observation whose odometric pose cannot be looked up is dropped
    with a warning and an error: the callback returns at once and the
    filter, the flags and the gates are as before (a scan records the time
    of its arrival, a detection message nothing). *)
Theorem observation_without_odom_pose_dropped `{Extern} st m :
  map_ st = Some m ->
  (forall laser_scan env laser_index,
     frame_to_laser_ st !! scan_frame_id laser_scan = Some laser_index ->
     le_odom_pose env = None ->
     laserReceived laser_scan env st =
       (Returned, set_last_laser_received_ts_ (le_now env) st,
        [EvLog WARN "Failed to compute odom pose, skipping scan (%s)";
         EvLog ERROR
           "Couldn't determine robot's pose associated with laser scan"])) /\
  (forall msg env,
     frame_to_camera_ st = det_frame_id msg ->
     de_odom_pose env = None ->
     detectionCallback msg env st =
       (Returned, st,
        [EvLog WARN "Failed to compute odom pose, skipping scan (%s)";
         EvLog ERROR
           "Couldn't determine robot's pose associated with camera info"])).
Proof.
  intros Hmap. split.
  - intros laser_scan env laser_index Hframe Hodom.
    unfold laserReceived. rewrite Hodom.
    do 2 run_step. cbn [map_ set_last_laser_received_ts_]. rewrite Hmap.
    erewrite bind_run by (apply register_laser_known_run; exact Hframe).
    reflexivity.
  - intros msg env Hframe Hodom.
    unfold detectionCallback. rewrite Hodom.
    run_step. rewrite Hmap. cbv zeta.
    rewrite bool_decide_eq_true_2 by exact Hframe. reflexivity.
Qed.

Lemma observation_without_odom_pose_dropped_witness :
  @detectionCallback example_extern example_detection
    (@mk_detection_env example_extern 0%Z None (λ t, Some t)) example_node =
    (Returned, example_node,
     [EvLog WARN "Failed to compute odom pose, skipping scan (%s)";
      EvLog ERROR
        "Couldn't determine robot's pose associated with camera info"]).
Proof.
  apply (proj2 (@observation_without_odom_pose_dropped example_extern
                  example_node example_map eq_refl)); reflexivity.
Defined.

(** ** A cycle without update *)

Section SkippedCycle.
Context `{Extern}.

Lemma camera_not_due st msg pose :
  camera_due st msg pose = false ->
  bool_decide (frame_to_camera_ st = det_frame_id msg) = true /\
  marker_update st = false /\
  moved st (pose_delta pose (latest_odom_pose_camera st))
  || m_force_update_cam st = false.
Proof.
  unfold camera_due. intros Hdue. apply orb_false_iff in Hdue as [H1 H2].
  destruct (bool_decide (frame_to_camera_ st = det_frame_id msg));
    [auto|discriminate].
Qed.

Lemma camera_motion_idle_run pose delta s :
  pf_init_cam s = true -> marker_update s = false ->
  camera_motion pose delta s = (Normal false, s, []).
Proof.
  intros Hi Hmu. unfold camera_motion. run_step.
  rewrite Hi, Hmu. reflexivity.
Qed.

(** The run of a detection message that is not due: up to the
    publication stage only the odometric pose is stored and the force flag
    cleared. *)
Lemma detection_skipped_run st msg env m tfp :
  map_ st = Some m -> pf_init_cam st = true ->
  de_odom_pose env = Some tfp ->
  camera_due st msg (pose_of tfp) = false ->
  detectionCallback msg env st =
    (camera_publish msg env (observation_of msg) false false;;;
     emit EvPublishPaths)
      (set_m_force_update_cam false (set_latest_odom_pose_ tfp st)).
Proof.
  intros Hmap Hinit Hodom Hdue.
  destruct (camera_not_due _ _ _ Hdue) as (Hframe & Hmu & Hup).
  unfold detectionCallback. rewrite Hodom.
  run_step. rewrite Hmap, ?prepend_nil. cbv zeta.
  rewrite Hframe. cbn [negb when]. run_step. rewrite ?prepend_nil.
  erewrite bind_run by apply getOdomPose_run. cbv beta iota.
  rewrite ?prepend_nil.
  erewrite bind_run by (apply camera_gate_run; exact Hinit). cbv beta.
  rewrite ?prepend_nil.
  change (pose_of tfp) with (pose_of tfp) in Hup.
  cbn [latest_odom_pose_camera m_force_update_cam set_latest_odom_pose_].
  unfold moved in *.
  cbn [d_thresh_ a_thresh_ set_latest_odom_pose_]. rewrite Hup.
  erewrite bind_run by (apply camera_motion_idle_run; assumption).
  cbv beta. rewrite ?prepend_nil.
  unfold camera_score_and_publish. run_step. rewrite ?prepend_nil.
  cbn [marker_update set_m_force_update_cam set_latest_odom_pose_].
  rewrite Hmu. run_step. rewrite ?prepend_nil. reflexivity.
Qed.

Lemma pf_camera_republish p msg env obs :
  maintains (λ s, pf_ s = p) any_event
    (camera_publish msg env obs false false;;; emit EvPublishPaths).
Proof.
  unfold camera_publish, save_pose_if_due, savePoseToServer.
  apply maintains_bind; [|intros _; maintains_tac].
  apply maintains_bind; [apply maintains_get|intros st].
  cbn [orb]. maintains_tac.
Qed.

Lemma silent_camera_republish p msg env obs :
  p = is_publication \/ p = is_odom_action \/ p = is_marker_scoring
  \/ p = is_resample ->
  silent p (camera_publish msg env obs false false;;; emit EvPublishPaths).
Proof.
  intros Hp. unfold camera_publish, save_pose_if_due, savePoseToServer.
  apply silent_bind; [|intros _; destruct Hp as [->|[->|[->| ->]]]; silent_tac].
  apply silent_bind; [apply silent_get|intros st]. cbn [orb].
  destruct Hp as [->|[->|[->| ->]]]; silent_tac.
Qed.

Lemma camera_republish_broadcast st msg env obs :
  latest_tf_valid_ st = true -> tf_broadcast_ st = true ->
  EvSendTransform (tf_inverse (latest_tf_ st))
    (det_stamp msg + transform_tolerance_ st)
    (global_frame_id_ st) (odom_frame_id_ st)
  ∈ trace ((camera_publish msg env obs false false;;; emit EvPublishPaths) st).
Proof.
  intros Hvalid Hbc. apply elem_of_trace_bind.
  unfold camera_publish. run_step. rewrite ?prepend_nil. cbn [orb].
  rewrite Hvalid, Hbc. cbn [when].
  apply elem_of_trace_bind. run_step.
  rewrite trace_prepend. apply elem_of_app. left. constructor.
Qed.

End SkippedCycle.

(** X15: a detection message that is not due (the robot has not moved past
    the thresholds, no force flag, no pending update, same camera frame)
    leaves the filter alone: no motion update, no scoring, no resampling,
    and neither a pose nor a cloud is published; with a valid last
    correction and broadcasting on, the callback republishes the map->odom
    transform with the stamp of the message plus the tolerance. *)
Theorem detection_not_due_only_republishes `{Extern} st msg env m tfp :
  map_ st = Some m -> pf_init_cam st = true ->
  de_odom_pose env = Some tfp ->
  camera_due st msg (pose_of tfp) = false ->
  let r := detectionCallback msg env st in
  pf_ (final r) = pf_ st /\
  occurs is_odom_action r = false /\ occurs is_marker_scoring r = false /\
  occurs is_resample r = false /\ occurs is_publication r = false /\
  (latest_tf_valid_ st = true -> tf_broadcast_ st = true ->
   EvSendTransform (tf_inverse (latest_tf_ st))
     (det_stamp msg + transform_tolerance_ st)
     (global_frame_id_ st) (odom_frame_id_ st) ∈ trace r).
Proof.
  intros Hmap Hinit Hodom Hdue. cbv zeta.
  rewrite (detection_skipped_run st msg env m tfp) by assumption.
  split; [now apply (pf_camera_republish (pf_ st))|].
  do 4 (split; [apply silent_camera_republish; tauto|]).
  intros Hvalid Hbc.
  now apply (camera_republish_broadcast
               (set_m_force_update_cam false (set_latest_odom_pose_ tfp st))).
Qed.

Section AtRest.
Context `{Extern}.

(** A robot at the pose of the last update, without a force flag, does
    not open the gate. *)
Lemma gate_closed_at_rest st pose :
  0 <= d_thresh_ st -> 0 <= a_thresh_ st ->
  ~ gate_open st pose pose false.
Proof.
  intros Hd Ha [Hg|[Hg|[Hg|Hg]]]; [| | |discriminate].
  - rewrite Rminus_diag, Rabs_R0 in Hg. lra.
  - rewrite Rminus_diag, Rabs_R0 in Hg. lra.
  - rewrite angle_diff_same, Rabs_R0 in Hg. lra.
Qed.

End AtRest.

(** A second detection message at the same pose, with the force flag
    cleared, is not due on the small instance. *)
Lemma detection_not_due_only_republishes_witness :
  pf_ (final (@detectionCallback example_extern example_detection
                example_detection_env
                (set_m_force_update_cam false example_node)))
  = pf_ (set_m_force_update_cam false example_node).
Proof.
  apply (@detection_not_due_only_republishes example_extern
           (set_m_force_update_cam false example_node) example_detection
           example_detection_env example_map pf_vector_zero);
    try reflexivity.
  destruct (camera_due _ _ _) eqn:Hdue; [exfalso|reflexivity].
  apply camera_due_iff in Hdue as [Hg|[Hg|Hg]].
  - revert Hg. apply gate_closed_at_rest; cbn; pose proof PI_RGT_0; lra.
  - discriminate.
  - apply Hg. reflexivity.
Defined.

(** ** The first observation after an initialization of the filter *)

Section FirstObservation.
Context `{Extern}.

Lemma detection_uninit_run st msg env m tfp mk :
  map_ st = Some m -> pf_init_cam st = false ->
  de_odom_pose env = Some tfp -> marker_ st = Some mk ->
  exists st3,
    detectionCallback msg env st =
      camera_score_and_publish msg env (observation_of msg) (pose_of tfp)
        true st3
    /\ marker_update st3 = true /\ is_Some (marker_ st3)
    /\ pf_ st3 = pf_ st /\ resample_count_cam st3 = 0%Z
    /\ resample_interval_ st3 = resample_interval_ st
    /\ pf_odom_pose_ st3 = pose_of tfp
    /\ latest_odom_pose_camera st3 = pose_of tfp.
Proof.
  intros Hmap Hinit Hodom Hmk.
  unfold detectionCallback. rewrite Hodom.
  run_step. rewrite Hmap, ?prepend_nil. cbv zeta.
  destruct (bool_decide (frame_to_camera_ st = det_frame_id msg));
    cbn [negb when].
  - run_step. rewrite ?prepend_nil.
    erewrite bind_run by apply getOdomPose_run. cbv beta iota.
    erewrite bind_run by (apply camera_gate_uninit_run; exact Hinit).
    cbv beta.
    erewrite bind_run by (apply camera_motion_uninit_run; exact Hinit).
    cbv beta. rewrite ?prepend_nil.
    eexists. split; [reflexivity|]. cbn. rewrite Hmk.
    repeat split; eauto.
  - erewrite bind_run by (apply camera_setup_run; exact Hmk). cbv beta.
    erewrite bind_run by apply getOdomPose_run. cbv beta iota.
    erewrite bind_run by (apply camera_gate_uninit_run; exact Hinit).
    cbv beta.
    erewrite bind_run by (apply camera_motion_uninit_run; exact Hinit).
    cbv beta. rewrite ?prepend_nil.
    eexists. split; [reflexivity|]. cbn.
    repeat split; eauto.
Qed.

Lemma silent_camera_score_and_publish_odom msg env obs pose fp :
  silent is_odom_action (camera_score_and_publish msg env obs pose fp).
Proof.
  unfold camera_score_and_publish, camera_update, camera_publish,
    publish_cloud, save_pose_if_due, savePoseToServer.
  silent_tac.
Qed.

End FirstObservation.

(** X16: the first detection message after the filter has been initialized
    (by a map, an initial pose, the global localization service or a
    reconfiguration) applies no motion model, whatever the odometry says: the
    callback takes the odometric pose as the new reference, scores the
    message as soon as it holds a marker, and counts it as cycle 1 of the
    resampling interval. *)
Theorem first_detection_sets_reference `{Extern} st msg env m tfp mk pf :
  map_ st = Some m -> pf_init_cam st = false ->
  de_odom_pose env = Some tfp -> marker_ st = Some mk -> pf_ st = Some pf ->
  resample_interval_ st ≠ 0%Z ->
  let r := detectionCallback msg env st in
  occurs is_odom_action r = false /\
  (occurs is_marker_scoring r = true <-> DetectedMarkers msg ≠ []) /\
  (occurs is_resample r = true <-> (resample_interval_ st | 1)%Z).
Proof.
  intros Hmap Hinit Hodom Hmk Hpf Hival. cbv zeta.
  destruct (detection_uninit_run st msg env m tfp mk)
    as (st3 & -> & Hmu & [mk3 Hmk3] & Hpf3 & Hc & Hi & _); auto.
  rewrite Hpf in Hpf3.
  split; [apply silent_camera_score_and_publish_odom|].
  rewrite !camera_tail_occurs by tauto. rewrite Hmu. cbn [andb].
  rewrite (camera_update_scoring _ _ _ _ _ _ Hmk3 Hpf3).
  destruct (camera_update_resample env (observation_of msg) (pose_of tfp)
              st3 mk3 pf) as (_ & -> & _); rewrite ?Hc, ?Hi; auto.
  { unfold in_int. lia. }
  rewrite negb_true_iff, bool_decide_eq_false, bool_decide_eq_true.
  rewrite observation_of_nil, Z.rem_divide by assumption. tauto.
Qed.

Lemma first_detection_sets_reference_witness :
  occurs is_odom_action
    (@detectionCallback example_extern example_detection example_detection_env
       (set_pf_init_cam false example_node)) = false.
Proof.
  apply (@first_detection_sets_reference example_extern
           (set_pf_init_cam false example_node) example_detection
           example_detection_env example_map pf_vector_zero example_marker
           0%nat); try reflexivity.
  discriminate.
Defined.

(** ** The laser watchdog *)

(** X17: every scan feeds the watchdog, also one that is dropped (no map
    yet, no pose, a failed transform): after [laserReceived] the recorded
    time is the arrival of that scan, and [checkLaserReceived] warns exactly
    when more than the check interval has passed since then; the check
    changes nothing in the node. *)
Theorem laser_watchdog_fed_by_every_scan `{Extern} st laser_scan env now interval :
  let st' := final (laserReceived laser_scan env st) in
  last_laser_received_ts_ st' = le_now env /\
  (occurs is_warning (checkLaserReceived now interval st') = true
   <-> (now - le_now env > interval)%Z) /\
  final (checkLaserReceived now interval st') = st'.
Proof.
  cbv zeta.
  assert (Hts : last_laser_received_ts_ (final (laserReceived laser_scan env st))
                = le_now env).
  { unfold laserReceived. run_step. rewrite ?final_prepend.
    match goal with
    | |- last_laser_received_ts_ (final (?m ?s0)) = _ =>
        assert (Hm : maintains (λ s, last_laser_received_ts_ s = le_now env)
                       any_event m)
    end.
    { unfold register_laser, getOdomPose, laser_gate, laser_motion,
        laser_score_and_publish, laser_update, laser_publish,
        save_pose_if_due, savePoseToServer, publish_cloud.
      maintains_tac. }
    now apply Hm. }
  split; [exact Hts|].
  unfold occurs, checkLaserReceived. run_step. rewrite Hts, ?prepend_nil.
  cbv zeta.
  destruct (bool_decide (now - le_now env > interval)%Z) eqn:Hd; cbn.
  - apply bool_decide_eq_true in Hd. tauto.
  - apply bool_decide_eq_false in Hd. split; [|reflexivity].
    split; [discriminate|contradiction].
Qed.

(** ** What is saved of a published pose *)

(** X18: the covariance that [savePoseToServer] saves is the one of the
    pose published last: the entries xx, yy and yaw-yaw that the
    publication wrote at 0, 7 and 35 of the 6x6 array are the ones read
    back, and the pose saved is the latest odometric pose taken through the
    inverse of the latest correction. *)
Theorem savePoseToServer_saves_published_covariance `{Extern} st frame stamp h cov :
  last_published_pose st = pose_message frame stamp h cov ->
  let map_pose := tf_mul (tf_inverse (latest_tf_ st)) (latest_odom_pose_ st) in
  savePoseToServer st =
    (Normal tt, st,
     [EvSetParam "initial_pose_x" (tf_x map_pose);
      EvSetParam "initial_pose_y" (tf_y map_pose);
      EvSetParam "initial_pose_a" (tf_yaw map_pose);
      EvSetParam "initial_cov_xx" (m00 cov);
      EvSetParam "initial_cov_yy" (m11 cov);
      EvSetParam "initial_cov_aa" (m22 cov)]).
Proof.
  intros Hlast. cbv zeta.
  unfold savePoseToServer. run_step. rewrite Hlast. reflexivity.
Qed.

Lemma savePoseToServer_saves_published_covariance_witness :
  trace (@savePoseToServer example_extern
           (set_last_published_pose
              (pose_message "map" 0 zero_hyp pf_matrix_zero) example_node))
  = [EvSetParam "initial_pose_x" 0; EvSetParam "initial_pose_y" 0;
     EvSetParam "initial_pose_a" 0; EvSetParam "initial_cov_xx" 0;
     EvSetParam "initial_cov_yy" 0; EvSetParam "initial_cov_aa" 0].
Proof.
  rewrite (@savePoseToServer_saves_published_covariance example_extern
             (set_last_published_pose
                (pose_message "map" 0 zero_hyp pf_matrix_zero) example_node)
             "map" 0%Z zero_hyp pf_matrix_zero eq_refl).
  cbn. repeat f_equal; lra.
Defined.

(** ** Reconfiguration *)

Section Reconfigure.
Context `{Extern}.

Lemma reconfigureCB_first_run config st :
  first_reconfigure_call_ st = true ->
  reconfigureCB config st =
    (Returned,
     set_default_config_ config (set_first_reconfigure_call_ false st), []).
Proof.
  intros Hfirst. unfold reconfigureCB. run_step. rewrite Hfirst, ?prepend_nil.
  reflexivity.
Qed.



End Reconfigure.

(** X19: the first reconfigure call, the one the constructor makes, changes
    no parameter: it stores its configuration as the default and returns;
    a later call that asks to restore the defaults then acts exactly like a
    call with that first configuration. *)
Theorem reconfigure_restores_first_configuration `{Extern} st first later :
  first_reconfigure_call_ st = true -> restore_defaults later = true ->
  let st1 := set_default_config_ first (set_first_reconfigure_call_ false st) in
  reconfigureCB first st = (Returned, st1, []) /\
  reconfigureCB later st1 = reconfigureCB first st1.
Proof.
  intros Hfirst Hrestore. cbv zeta.
  split; [now apply reconfigureCB_first_run|].
  unfold reconfigureCB.
  erewrite (bind_run get _ (set_default_config_ first _)) by reflexivity.
  symmetry.
  erewrite (bind_run get _ (set_default_config_ first _)) by reflexivity.
  cbv beta.
  cbn [first_reconfigure_call_ default_config_ set_default_config_
       set_first_reconfigure_call_].
  rewrite Hrestore. destruct (restore_defaults first); reflexivity.
Qed.

Lemma reconfigure_restores_first_configuration_witness :
  @reconfigureCB example_extern
    (mk_config true 0 0 1 0 0 1 0 1 0 0 0 0 0 0 0 0 0 0 0 0 "beam" "omni" 1 1
       0 0 false false 0 0 0 0 "o" "b" "g")
    (set_default_config_ example_config
       (set_first_reconfigure_call_ false
          (set_first_reconfigure_call_ true example_node)))
  = @reconfigureCB example_extern example_config
      (set_default_config_ example_config
         (set_first_reconfigure_call_ false
            (set_first_reconfigure_call_ true example_node))).
Proof.
  apply (@reconfigure_restores_first_configuration example_extern
           (set_first_reconfigure_call_ true example_node)); reflexivity.
Defined.



Section MapAfterwards.
Context `{Extern}.

Lemma mapReceived_converted_run msg ps st m free :
  first_map_only_ st && first_map_received_ st = false ->
  convertMap msg = Some m -> index_free_space m = Some free ->
  result (mapReceived msg ps st) = Normal tt.
Proof.
  intros Hfirst Hconv Hfree. unfold mapReceived.
  run_step. rewrite Hfirst.
  destruct (handleMapMessage_converted_run msg ps st m free Hconv Hfree)
    as (s' & t & Hrun & _).
  erewrite bind_run by (unfold call_fn; rewrite Hrun; reflexivity).
  reflexivity.
Qed.

(** An initial pose on a node without a map *)
Lemma initial_pose_stored_run st msg env :
  map_ st = None ->
  ip_frame_id msg = EmptyString
  \/ tf_resolve (ip_frame_id msg) = tf_resolve (global_frame_id_ st) ->
  exists s' t,
    handleInitialPoseMessage msg env st = (Normal tt, s', t) /\
    existsb is_filter_init t = false /\
    pf_ s' = pf_ st /\
    let pose_new :=
      tf_mul (ip_pose msg)
        (match ie_tx_odom env with Some tx => tx | None => tf_identity end) in
    initial_pose_hyp_ s' =
      Some (mk_hyp 0
              (mk_vec (tf_x pose_new) (tf_y pose_new) (tf_yaw pose_new))
              (mk_mat (covariance_at (ip_covariance msg) 0)
                      (covariance_at (ip_covariance msg) 1) 0
                      (covariance_at (ip_covariance msg) 6)
                      (covariance_at (ip_covariance msg) 7) 0
                      0 0 (covariance_at (ip_covariance msg) 35))).
Proof.
  intros Hmap Hframe. unfold handleInitialPoseMessage, applyInitialPose.
  run_step.
  assert (Hcheck : exists t0,
    (if decide (ip_frame_id msg = EmptyString) then
       emit (EvLog WARN
         "Received initial pose with empty frame_id.  You should always supply a frame_id.")
     else if decide (tf_resolve (ip_frame_id msg)
                     ≠ tf_resolve (global_frame_id_ st))
     then
       emit (EvLog WARN
         "Ignoring initial pose in frame %s; initial poses must be in the global frame, %s");;;
       return_
     else ret tt) st = (Normal tt, st, t0) /\ existsb is_filter_init t0 = false).
  { destruct (decide (ip_frame_id msg = EmptyString)) as [|Hne].
    - eexists. split; reflexivity.
    - destruct Hframe as [|Hres]; [contradiction|].
      destruct (decide (tf_resolve (ip_frame_id msg)
                        ≠ tf_resolve (global_frame_id_ st))); [contradiction|].
      eexists. split; reflexivity. }
  destruct Hcheck as (t0 & Hcheck & Ht0).
  erewrite bind_run by exact Hcheck. cbv beta.
  assert (Hlookup : exists t1,
    (match ie_tx_odom env with
     | Some tx => ret tx
     | None =>
         when (sent_first_transform_ st)
           (emit (EvLog WARN "Failed to transform initial pose in time (%s)"));;;
         ret tf_identity
     end) st
    = (Normal (match ie_tx_odom env with Some tx => tx | None => tf_identity end),
       st, t1)
    /\ existsb is_filter_init t1 = false).
  { destruct (ie_tx_odom env) as [tx|].
    - eexists. split; reflexivity.
    - destruct (sent_first_transform_ st); eexists; split; reflexivity. }
  destruct Hlookup as (t1 & Hlookup & Ht1).
  erewrite bind_run by exact Hlookup. cbv beta.
  do 4 run_step.
  cbn [initial_pose_hyp_ map_ set_initial_pose_hyp_ set_pose_ini].
  destruct (map_ st); [discriminate|].
  unfold prepend, ret. cbn [result final trace fst snd].
  eexists; eexists. split; [reflexivity|].
  rewrite !existsb_app, Ht0, Ht1. repeat split; reflexivity.
Qed.

End MapAfterwards.

(** X21: an initial pose that arrives before the map is not lost.  Its
    pose, taken through the odometry correction since its stamp (the
    identity when that lookup fails), with the entries 0, 1, 6, 7 and 35 of
    its covariance, is kept as the pending hypothesis without touching the
    filter; the next map message that converts initializes its new filter
    with that mean and covariance, which is the filter it leaves, and
    clears the hypothesis. *)
Theorem initial_pose_waits_for_map `{Extern} st msg env msg' ps m free :
  map_ st = None ->
  ip_frame_id msg = EmptyString
  \/ tf_resolve (ip_frame_id msg) = tf_resolve (global_frame_id_ st) ->
  convertMap msg' = Some m -> index_free_space m = Some free ->
  let r := handleInitialPoseMessage msg env st in
  let r' := handleMapMessage msg' ps (final r) in
  let pose_new :=
    tf_mul (ip_pose msg)
      (match ie_tx_odom env with Some tx => tx | None => tf_identity end) in
  let mean := mk_vec (tf_x pose_new) (tf_y pose_new) (tf_yaw pose_new) in
  let cov :=
    mk_mat (covariance_at (ip_covariance msg) 0)
           (covariance_at (ip_covariance msg) 1) 0
           (covariance_at (ip_covariance msg) 6)
           (covariance_at (ip_covariance msg) 7) 0
           0 0 (covariance_at (ip_covariance msg) 35) in
  result r = Normal tt /\ occurs is_filter_init r = false /\
  pf_ (final r) = pf_ st /\
  initial_pose_hyp_ (final r) = Some (mk_hyp 0 mean cov) /\
  result r' = Normal tt /\
  EvPfInit mean cov ∈ trace r' /\
  (exists pf0, pf_ (final r') = Some (pf_init pf0 mean cov)) /\
  initial_pose_hyp_ (final r') = None.
Proof.
  intros Hmap Hframe Hconv Hfree. cbv zeta.
  destruct (initial_pose_stored_run st msg env Hmap Hframe)
    as (s1 & t1 & -> & Ht1 & Hpf & Hh).
  cbv zeta in Hh.
  unfold occurs. cbn [result final trace fst snd].
  split; [reflexivity|]. split; [exact Ht1|]. split; [exact Hpf|].
  split; [exact Hh|].
  destruct (handleMapMessage_converted_run msg' ps s1 m free Hconv Hfree)
    as (s2 & t2 & -> & _ & _ & _ & _ & _ & _ & _ & _ & _ & Hnone & _ & _ & Hin).
  cbn [result final trace fst snd].
  destruct (Hin _ Hh) as [Hev Hpf0].
  split; [reflexivity|]. split; [exact Hev|]. split; [exact Hpf0|exact Hnone].
Qed.

(** An initial pose in the frame [map] arrives at a node without a map;
    the pending hypothesis is the pose of the message. *)
Lemma initial_pose_waits_for_map_witness :
  initial_pose_hyp_
    (final (@handleInitialPoseMessage example_extern
              (example_initial_pose "map") example_initial_pose_env
              (set_map_ None example_node)))
  = Some (mk_hyp 0
            (mk_vec (0 + 0) (0 + 0) (0 + 0))
            (mk_mat 0 0 0 0 0 0 0 0 0)).
Proof.
  apply (@initial_pose_waits_for_map example_extern
           (set_map_ None example_node) (example_initial_pose "map")
           example_initial_pose_env example_grid tt
           (mk_map 1 1 1 (0 + IZR (1 ÷ 2) * 1) (0 + IZR (1 ÷ 2) * 1)
              [mk_cell (-1)])
           [(0, 0)%Z]); try reflexivity.
  right. reflexivity.
Defined.

(** ** The first map only *)

Section FirstMap.
Context `{Extern}.

Lemma first_map_only_handleMapMessage b msg ps :
  maintains (λ s, first_map_only_ s = b) any_event (handleMapMessage msg ps).
Proof.
  unfold handleMapMessage, freeMapDependentMemory, updatePoseFromServer,
    instantiate_odom, instantiate_laser, instantiate_marker, applyInitialPose.
  maintains_tac.
Qed.

End FirstMap.

(** X22: with [first_map_only_] set, the first map message that is handled
    to its end closes the door: every later map message is dropped without
    an event and without a change of the node. *)
Theorem first_map_only_drops_later_maps `{Extern} st msg ps msg' ps' :
  first_map_only_ st = true ->
  result (mapReceived msg ps st) = Normal tt ->
  mapReceived msg' ps' (final (mapReceived msg ps st))
  = (Returned, final (mapReceived msg ps st), []).
Proof.
  intros Honly Hres.
  assert (Hfin : first_map_only_ (final (mapReceived msg ps st)) = true
                 /\ first_map_received_ (final (mapReceived msg ps st)) = true).
  { revert Hres. unfold mapReceived.
    erewrite bind_run by reflexivity. cbv beta. rewrite prepend_nil.
    destruct (first_map_only_ st && first_map_received_ st); [discriminate|].
    pose proof (first_map_only_handleMapMessage true msg ps st Honly) as [Hk _].
    unfold call_fn, bind, prepend, result, final in *.
    destruct (handleMapMessage msg ps st) as [[[[]| |] s1] t1]; cbn in *;
      try discriminate; intros _; split; assumption || reflexivity. }
  destruct Hfin as [H1 H2].
  unfold mapReceived at 1.
  erewrite bind_run by reflexivity. cbv beta. rewrite prepend_nil.
  now rewrite H1, H2.
Qed.

(** The first map of a node that takes only one *)
Lemma first_map_only_drops_later_maps_witness :
  @mapReceived example_extern example_grid tt
    (final (@mapReceived example_extern example_grid tt
              (set_first_map_received_ false
                 (set_first_map_only_ true example_node))))
  = (Returned,
     final (@mapReceived example_extern example_grid tt
              (set_first_map_received_ false
                 (set_first_map_only_ true example_node))), []).
Proof.
  apply (@first_map_only_drops_later_maps example_extern).
  - reflexivity.
  - apply (@mapReceived_converted_run example_extern example_grid tt _
             (mk_map 1 1 1 (0 + IZR (1 ÷ 2) * 1) (0 + IZR (1 ÷ 2) * 1)
                [mk_cell (-1)])
             [(0, 0)%Z]); reflexivity.
Defined.

(** ** A laser whose pose cannot be looked up *)

Section FailedRegistration.
Context `{Extern}.

Lemma laserReceived_unregistered_run st laser_scan env m l :
  map_ st = Some m -> laser_ st = Some l ->
  frame_to_laser_ st !! scan_frame_id laser_scan = None ->
  le_laser_pose env = None ->
  laserReceived laser_scan env st
  = (Returned,
     set_lasers_update_ (lasers_update_ st ++ [true])
       (set_lasers_ (lasers_ st ++ [l])
          (set_last_laser_received_ts_ (le_now env) st)),
     [EvLog ERROR
        "Couldn't transform from %s to %s, even though the message notifier is in use"]).
Proof.
  intros Hmap Hlaser Hframe Hpose. unfold laserReceived.
  do 2 run_step. cbn [map_ set_last_laser_received_ts_]. rewrite Hmap.
  apply bind_returned. unfold register_laser.
  run_step. cbn [frame_to_laser_ laser_ set_last_laser_received_ts_].
  rewrite Hframe, Hlaser, Hpose. reflexivity.
Qed.

End FailedRegistration.

(** X23: a scan of a frame that is not registered and whose laser pose
    cannot be looked up is dropped with an error, after its laser has been
    appended: the frame stays unregistered, so each further such scan
    appends one more entry to [lasers_] and [lasers_update_] that no frame
    refers to. *)
Theorem failed_registration_grows_lasers `{Extern} st laser_scan env m l (n : nat) :
  map_ st = Some m -> laser_ st = Some l ->
  frame_to_laser_ st !! scan_frame_id laser_scan = None ->
  le_laser_pose env = None ->
  let st' := Nat.iter n (λ s, final (laserReceived laser_scan env s)) st in
  length (lasers_ st') = (length (lasers_ st) + n)%nat /\
  length (lasers_update_ st') = (length (lasers_update_ st) + n)%nat /\
  frame_to_laser_ st' = frame_to_laser_ st /\
  result (laserReceived laser_scan env st') = Returned /\
  trace (laserReceived laser_scan env st')
  = [EvLog ERROR
       "Couldn't transform from %s to %s, even though the message notifier is in use"].
Proof.
  intros Hmap Hlaser Hframe Hpose. cbv zeta.
  assert (Hn : map_ (Nat.iter n (λ s, final (laserReceived laser_scan env s)) st)
               = Some m /\
               laser_ (Nat.iter n (λ s, final (laserReceived laser_scan env s)) st)
               = Some l /\
               frame_to_laser_
                 (Nat.iter n (λ s, final (laserReceived laser_scan env s)) st)
               = frame_to_laser_ st /\
               length (lasers_
                 (Nat.iter n (λ s, final (laserReceived laser_scan env s)) st))
               = (length (lasers_ st) + n)%nat /\
               length (lasers_update_
                 (Nat.iter n (λ s, final (laserReceived laser_scan env s)) st))
               = (length (lasers_update_ st) + n)%nat).
  { induction n as [|n IH].
    - unfold Nat.iter. cbn [nat_rect]. repeat split; try assumption; lia.
    - rewrite Nat.iter_succ. destruct IH as (IH1 & IH2 & IH3 & IH4 & IH5).
      rewrite (laserReceived_unregistered_run _ laser_scan env m l IH1 IH2)
        by (first [exact Hpose | rewrite IH3; exact Hframe]).
      cbn [final fst snd map_ laser_ frame_to_laser_ lasers_ lasers_update_
           set_lasers_update_ set_lasers_ set_last_laser_received_ts_].
      rewrite !length_app, IH4, IH5. cbn [length].
      repeat split; try assumption; lia. }
  destruct Hn as (H1 & H2 & H3 & H4 & H5).
  rewrite (laserReceived_unregistered_run _ laser_scan env m l H1 H2)
    by (first [exact Hpose | rewrite H3; exact Hframe]).
  repeat split; assumption.
Qed.

(** Two scans of the frame [other], whose pose is not known *)
Lemma failed_registration_grows_lasers_witness :
  length (lasers_
    (Nat.iter 2
       (λ s, final (@laserReceived example_extern
                      (mk_scan "other" 5 0 1 1 10 [0.5; 3])
                      (@mk_laser_env example_extern 0%Z None
                         (Some pf_vector_zero) (Some (0, 1)) (λ t, Some t)) s))
       example_node))
  = (length (lasers_ example_node) + 2)%nat.
Proof.
  apply (@failed_registration_grows_lasers example_extern example_node
           (mk_scan "other" 5 0 1 1 10 [0.5; 3])
           (@mk_laser_env example_extern 0%Z None
              (Some pf_vector_zero) (Some (0, 1)) (λ t, Some t))
           example_map example_laser 2); reflexivity.
Defined.
